(** * requirements-tool: the requirement extractor, the story synthesizer
      and the batch Jira endpoints

    A shallow embedding of [backend/llm_client.py], [backend/jira_client.py]
    and [backend/main.py].

    Text is a list of characters.  The alphabet is 7-bit ASCII and four
    characters outside it: the bullet glyph U+2022 of the story parser's
    list-marker class, the en dash U+2013 of the stories prompt and the
    no-break space U+00A0, a white-space character that NFKC replaces by
    a space, each carried by the code it has in Windows-1252 (149, 150,
    160); and the Greek question mark U+037E, carried by the code 254, a
    character without case that NFC and NFKC replace by a semicolon.  On
    this alphabet Python's [str] methods and the [re] module behave as
    written below: the white-space characters are the code points 9-13
    and 28-32 and the no-break space, [\d] is [0-9], [str.lower] maps
    [A-Z] to [a-z].  [unicodedata.normalize("NFKC", .)] is a function
    of the library that the development does not define: the extractor
    takes it as a parameter, and everything proved of the extractor
    holds for every such function. *)

From Stdlib Require Import Ascii String List Bool Arith ZArith Lia.
Import ListNotations.


(* ================================================================== *)
(** ** Python's [str] on the text of the model *)

Module PyStr.

Definition text := list ascii.

Definition str (s : string) : text := list_ascii_of_string s.

Definition code (c : ascii) : nat := nat_of_ascii c.

(** The four characters of the alphabet outside ASCII. *)
Definition bullet_glyph : ascii := "149"%char.    (* U+2022 *)
Definition en_dash : ascii := "150"%char.         (* U+2013 *)
Definition nbsp : ascii := "160"%char.            (* U+00A0 *)
Definition greek_question : ascii := "254"%char.  (* U+037E *)

(** [str.isspace] on one character: TAB, LF, VT, FF, CR, FS, GS, RS, US,
    SPACE and the no-break space. *)
Definition isspace (c : ascii) : bool :=
  ((9 <=? code c) && (code c <=? 13)) || ((28 <=? code c) && (code c <=? 32))
  || (code c =? 160).

Definition isdigit (c : ascii) : bool :=
  (48 <=? code c) && (code c <=? 57).

Definition lower_char (c : ascii) : ascii :=
  if (65 <=? code c) && (code c <=? 90) then ascii_of_nat (code c + 32) else c.

(** [s.lower()] *)
Definition lower (s : text) : text := map lower_char s.

Fixpoint text_eqb (a b : text) : bool :=
  match a, b with
  | [], [] => true
  | x :: a', y :: b' => Ascii.eqb x y && text_eqb a' b'
  | _, _ => false
  end.

Definition is_empty (s : text) : bool :=
  match s with [] => true | _ :: _ => false end.

Fixpoint dropwhile (p : ascii -> bool) (s : text) : text :=
  match s with
  | [] => []
  | c :: t => if p c then dropwhile p t else s
  end.

Definition lstrip (s : text) : text := dropwhile isspace s.
Definition rstrip (s : text) : text := rev (dropwhile isspace (rev s)).

(** [s.strip()] *)
Definition strip (s : text) : text := rstrip (lstrip s).

(** [s.startswith(p)] *)
Fixpoint startswith (p s : text) : bool :=
  match p, s with
  | [], _ => true
  | x :: p', y :: s' => Ascii.eqb x y && startswith p' s'
  | _ :: _, [] => false
  end.

(** [sub in s] *)
Fixpoint contains (sub s : text) : bool :=
  startswith sub s ||
  match s with
  | [] => false
  | _ :: t => contains sub t
  end.

(** [s.replace(old, '')] for a non-empty [old]: the occurrences of [old]
    are removed from left to right, without overlap.  [skip] counts the
    characters of the occurrence being removed that are still ahead. *)
Fixpoint remove_from (old : text) (skip : nat) (s : text) : text :=
  match s with
  | [] => []
  | c :: t =>
      match skip with
      | S j => remove_from old j t
      | O =>
          if startswith old s then
            match length old with
            | S j => remove_from old j t
            | O => c :: remove_from old 0 t
            end
          else c :: remove_from old 0 t
      end
  end.

Definition remove (old s : text) : text := remove_from old 0 s.

(** The line boundaries of [str.splitlines] on the alphabet: LF, VT, FF, CR, FS,
    GS and RS (CR LF counts as one boundary, handled in [splitlines_from]). *)
Definition is_linebreak (c : ascii) : bool :=
  ((10 <=? code c) && (code c <=? 13)) || ((28 <=? code c) && (code c <=? 30)).

(** [cur] is the current line, reversed. *)
Fixpoint splitlines_from (cur : text) (s : text) : list text :=
  match s with
  | [] => match cur with [] => [] | _ :: _ => [rev cur] end
  | c :: t =>
      if Ascii.eqb c "013" then
        match t with
        | c' :: t' =>
            if Ascii.eqb c' "010" then rev cur :: splitlines_from [] t'
            else rev cur :: splitlines_from [] t
        | [] => rev cur :: splitlines_from [] t
        end
      else if is_linebreak c then rev cur :: splitlines_from [] t
      else splitlines_from (c :: cur) t
  end.

(** [s.splitlines()] *)
Definition splitlines (s : text) : list text := splitlines_from [] s.

(** [s.split()]: the maximal runs of characters that are not white space. *)
Fixpoint split_from (cur : text) (s : text) : list text :=
  match s with
  | [] => match cur with [] => [] | _ :: _ => [rev cur] end
  | c :: t =>
      if isspace c then
        match cur with
        | [] => split_from [] t
        | _ :: _ => rev cur :: split_from [] t
        end
      else split_from (c :: cur) t
  end.

Definition split (s : text) : list text := split_from [] s.

(** [sep.join(parts)] *)
Fixpoint join (sep : text) (parts : list text) : text :=
  match parts with
  | [] => []
  | [p] => p
  | p :: rest => p ++ sep ++ join sep rest
  end.

(** [" ".join(s.split())] *)
Definition collapse (s : text) : text := join (str " ") (split s).

(** [key in seen] for a set of strings *)
Definition mem (k : text) (seen : list text) : bool := existsb (text_eqb k) seen.

(** [s.endswith(suffix)] *)
Definition endswith (suffix s : text) : bool := startswith (rev suffix) (rev s).

(** [s.split(sep)] for a separator of one character; [cur] is the current
    piece, reversed. *)
Fixpoint split_on_from (sep : ascii) (cur : text) (s : text) : list text :=
  match s with
  | [] => [rev cur]
  | c :: t =>
      if Ascii.eqb c sep then rev cur :: split_on_from sep [] t
      else split_on_from sep (c :: cur) t
  end.

Definition split_on (sep : ascii) (s : text) : list text := split_on_from sep [] s.

End PyStr.

(* ================================================================== *)
(** ** Python's [re]: a backtracking matcher for the constructs used *)

Module Re.
Import PyStr.

Inductive regex : Type :=
| Eps
| Lit (a : ascii)                 (* a literal character *)
| Cls (p : ascii -> bool)         (* a character class: [\s], [\d], [.], [[...]] *)
| Seq (r1 r2 : regex)
| Alt (r1 r2 : regex)             (* [r1|r2], [r1] tried first *)
| Star (r : regex)                (* greedy [r*] *)
| LazyStar (r : regex)            (* non-greedy [r*?] *)
| Group (i : nat) (r : regex)     (* capturing group number [i] *)
| Bol                             (* [^] without MULTILINE *)
| Eol.                            (* [$] without MULTILINE *)

(** Greedy [r+] tries the same paths, in the same order, as [r r*];
    [r+?] as [r r*?]; greedy [r?] as [(?:r|)]. *)
Definition Plus (r : regex) : regex := Seq r (Star r).
Definition LazyPlus (r : regex) : regex := Seq r (LazyStar r).
Definition Opt (r : regex) : regex := Alt r Eps.

Fixpoint Word (w : text) : regex :=
  match w with
  | [] => Eps
  | c :: w' => Seq (Lit c) (Word w')
  end.

(** The groups that have matched so far, most recent first. *)
Definition groups := list (nat * text).

Fixpoint group (i : nat) (g : groups) : text :=
  match g with
  | [] => []
  | (j, t) :: g' => if Nat.eqb i j then t else group i g'
  end.

Definition outcome : Type := option (text * groups).
Definition cont : Type := text -> groups -> outcome.

Definition orelse (a : outcome) (b : unit -> outcome) : outcome :=
  match a with
  | Some _ => a
  | None => b tt
  end.

Section Matcher.

(** [ic]: the flag [re.I]; [len0]: the length of the whole subject
    string, so that [^] can tell the start of the subject. *)
Variable ic : bool.
Variable len0 : nat.

Definition lit_matches (a x : ascii) : bool :=
  if ic then Ascii.eqb (lower_char a) (lower_char x) else Ascii.eqb a x.

(** [m r s g k]: match [r] at the front of [s], then continue with [k] on
    what is left; the first path that succeeds wins, as in a backtracking
    engine.  An iteration of a repetition that consumes nothing is not
    taken. *)
Fixpoint m (r : regex) (s : text) (g : groups) (k : cont) {struct r} : outcome :=
  match r with
  | Eps => k s g
  | Lit a =>
      match s with
      | x :: s' => if lit_matches a x then k s' g else None
      | [] => None
      end
  | Cls p =>
      match s with
      | x :: s' => if p x then k s' g else None
      | [] => None
      end
  | Seq r1 r2 => m r1 s g (fun s' g' => m r2 s' g' k)
  | Alt r1 r2 => orelse (m r1 s g k) (fun _ => m r2 s g k)
  | Star r' =>
      (fix loop (n : nat) (s : text) (g : groups) {struct n} : outcome :=
         match n with
         | O => k s g
         | S n' =>
             orelse
               (m r' s g (fun s' g' =>
                            if length s' <? length s then loop n' s' g' else None))
               (fun _ => k s g)
         end) (length s) s g
  | LazyStar r' =>
      (fix loop (n : nat) (s : text) (g : groups) {struct n} : outcome :=
         orelse (k s g)
           (fun _ =>
              match n with
              | O => None
              | S n' =>
                  m r' s g (fun s' g' =>
                              if length s' <? length s then loop n' s' g' else None)
              end)) (length s) s g
  | Group i r' =>
      m r' s g (fun s' g' => k s' ((i, firstn (length s - length s') s) :: g'))
  | Bol => if length s =? len0 then k s g else None
  | Eol =>
      match s with
      | [] => k s g
      | [x] => if Ascii.eqb x "010" then k s g else None
      | _ :: _ :: _ => None
      end
  end.

Definition accept : cont := fun s g => Some (s, g).

End Matcher.

(** [pattern.match(s)]: the text left after the match, and the groups. *)
Definition re_match (ic : bool) (r : regex) (s : text) : outcome :=
  m ic (length s) r s [] accept.

(** [pattern.sub('', s)]: every match found scanning from the left is
    removed.  [skip] counts the characters of the current match still
    ahead.  A match of the empty string removes nothing. *)
Fixpoint sub_from (ic : bool) (len0 : nat) (r : regex) (skip : nat) (s : text) : text :=
  match s with
  | [] => []
  | c :: t =>
      match skip with
      | S j => sub_from ic len0 r j t
      | O =>
          match m ic len0 r s [] accept with
          | Some (s', _) =>
              match length s - length s' with
              | S j => sub_from ic len0 r j t
              | O => c :: sub_from ic len0 r 0 t
              end
          | None => c :: sub_from ic len0 r 0 t
          end
      end
  end.

Definition re_sub_empty (ic : bool) (r : regex) (s : text) : text :=
  sub_from ic (length s) r 0 s.

(** The character classes of the patterns. *)
Definition ws : regex := Cls isspace.                         (* \s *)
Definition nonws : regex := Cls (fun c => negb (isspace c)).  (* \S *)
Definition digit : regex := Cls isdigit.                      (* \d *)
Definition dot : regex := Cls (fun c => negb (Ascii.eqb c "010")).  (* . *)

End Re.

(* ================================================================== *)
(** ** backend/llm_client.py *)

Module llm_client.
Import PyStr Re.

Fixpoint seqs (rs : list regex) : regex :=
  match rs with
  | [] => Eps
  | [r] => r
  | r :: rs' => Seq r (seqs rs')
  end.

(** [section_re = re.compile(r"^\s*(\d+)\.\s*(.+?)\s*$")] *)
Definition section_re : regex :=
  seqs [Bol; Star ws; Group 1 (Plus digit); Lit "."; Star ws;
        Group 2 (LazyPlus dot); Star ws; Eol].

(** [bullet_re = re.compile(r"^\s*-\s+(.*\S)\s*$")] *)
Definition bullet_re : regex :=
  seqs [Bol; Star ws; Lit "-"; Plus ws; Group 1 (Seq (Star dot) nonws);
        Star ws; Eol].

(** [strip_tag = re.compile(r"\s*\[(?:Bug|Feature|Other)\]\s*$", re.I)] *)
Definition strip_tag : regex :=
  seqs [Star ws; Lit "[";
        Alt (Word (str "Bug")) (Alt (Word (str "Feature")) (Word (str "Other")));
        Lit "]"; Star ws; Eol].

(** [r"^\s*\d+(?:\.\d+)+\.?\s+(.*\S)$"], the pattern of the fallback scan *)
Definition numbered_re : regex :=
  seqs [Bol; Star ws; Plus digit; Plus (Seq (Lit ".") (Plus digit));
        Opt (Lit "."); Plus ws; Group 1 (Seq (Star dot) nonws); Eol].

(** The class [[\d\.\-\)\(\s•*]]. *)
Definition marker_class (c : ascii) : bool :=
  isdigit c || Ascii.eqb c "." || Ascii.eqb c "-" || Ascii.eqb c ")"
  || Ascii.eqb c "(" || isspace c || Ascii.eqb c bullet_glyph || Ascii.eqb c "*".

(** [r"^[\d\.\-\)\(\s•*]+"], the leading list markers of a reply line *)
Definition marker_re : regex := seqs [Bol; Plus (Cls marker_class)].

Section Normalizer.

(** [unicodedata.normalize("NFKC", .)], a function of Python's library. *)
Variable NFKC : text -> text.

(** The first three statements of [extract_requirement_lines]. *)
Definition normalize_srs (srs_text : text) : text :=
  let s := remove [zero] srs_text in
  let s := NFKC s in
  remove (str "**") s.

(** [current_section and "functional requirements" in current_section] *)
Definition in_functional (current_section : option text) : bool :=
  match current_section with
  | None => false
  | Some sec => negb (is_empty sec) && contains (str "functional requirements") sec
  end.

(** The state of the primary scan: [current_section] and [reqs]. *)
Definition scan_state : Type := (option text * list text)%type.

(** [m = section_re.match(line)] and, when it matched,
    [m.group(2).strip().lower()]. *)
Definition heading_of (line : text) : option text :=
  match re_match false section_re line with
  | Some (_, g) => Some (lower (strip (group 2 g)))
  | None => None
  end.

(** [strip_tag.sub('', captured)] *)
Definition strip_tag_sub (captured : text) : text :=
  re_sub_empty true strip_tag captured.

(** [mb = bullet_re.match(line)] and, when it matched, the [item] made
    from [mb.group(1)]. *)
Definition bullet_item (line : text) : option text :=
  match re_match false bullet_re line with
  | Some (_, gb) =>
      let item := strip (strip_tag_sub (group 1 gb)) in
      Some (collapse item)
  | None => None
  end.

(** The body of the first [for raw in lines] loop. *)
Definition scan_line (st : scan_state) (raw : text) : scan_state :=
  let '(current_section, reqs) := st in
  let line := strip raw in
  if is_empty line then st
  else
    match heading_of line with
    | Some sec => (Some sec, reqs)
    | None =>
        if in_functional current_section then
          match bullet_item line with
          | Some item => if is_empty item then st else (current_section, reqs ++ [item])
          | None => st
          end
        else st
    end.

Definition primary_scan (lines : list text) : list text :=
  snd (fold_left scan_line lines (None, [])).

(** The body of the fallback loop: what one line adds to [numbered]. *)
Definition numbered_line (raw : text) : list text :=
  let line := strip raw in
  match re_match false numbered_re line with
  | Some (_, g) => [collapse (group 1 g)]
  | None => []
  end.

Definition fallback_scan (lines : list text) : list text :=
  flat_map numbered_line lines.

(** The de-duplication loop: [seen] and [out] are its two variables. *)
Fixpoint dedup_from (seen : list text) (out : list text) (reqs : list text) : list text :=
  match reqs with
  | [] => out
  | r :: rest =>
      let key := lower r in
      if mem key seen then dedup_from seen out rest
      else dedup_from (key :: seen) (out ++ [r]) rest
  end.

Definition dedup (reqs : list text) : list text := dedup_from [] [] reqs.

Definition extract_requirement_lines (srs_text : text) : list text :=
  let lines := splitlines (normalize_srs srs_text) in
  let reqs := primary_scan lines in
  let reqs :=
    match reqs with
    | [] =>
        let numbered := fallback_scan lines in
        match numbered with
        | [] => reqs
        | _ :: _ => numbered
        end
    | _ :: _ => reqs
    end in
  dedup reqs.

End Normalizer.

Definition nl : text := ["010"%char].

(** The prompt of [srs_to_user_stories]. *)
Definition stories_prompt (req_lines : list text) : text :=
  str "You are a requirements analyst." ++ nl ++
  str "Convert the following software requirements into concise user stories." ++ nl ++
  str "Each story must follow exactly: As a <type of user>, I want <goal> so that <reason>." ++ nl ++
  str "Do not invent features; do not merge or split items; one story per requirement." ++ nl ++
  str "Aim for 12" ++ [en_dash] ++ str "20 words per story." ++ nl ++ nl ++
  str "Requirements:" ++ nl ++
  join nl (map (fun req => str "- " ++ req) req_lines) ++
  nl ++ nl ++ str "Output as a numbered list:" ++ nl ++
  str "1. As a ..." ++ nl ++ str "2. As a ..." ++ nl.

(** [lines = [ln.strip() for ln in raw.splitlines() if ln.strip()]] *)
Definition reply_lines (raw : text) : list text :=
  filter (fun ln => negb (is_empty ln)) (map strip (splitlines raw)).

(** [re.sub(marker_re, '', ln)] *)
Definition marker_sub (ln : text) : text := re_sub_empty false marker_re ln.

(** The body of the parsing loop: what one reply line adds to [stories]. *)
Definition story_of_line (ln : text) : list text :=
  let ln := marker_sub ln in
  if startswith (str "as a ") (lower ln) && contains (str " i want ") (lower ln)
  then [firstn 280 (collapse ln)]
  else [].

Definition parse_stories (raw : text) : list text :=
  flat_map story_of_line (reply_lines raw).

(** The loop under [# de-dup and cap]; it leaves through [break] when
    [len(out) >= max_stories] after an iteration. *)
Fixpoint cap_from (max_stories : Z) (seen out : list text) (stories : list text) : list text :=
  match stories with
  | [] => out
  | s :: rest =>
      let k := lower s in
      let '(seen', out') :=
        if mem k seen then (seen, out) else (k :: seen, out ++ [s]) in
      if (Z.of_nat (length out') >=? max_stories)%Z then out'
      else cap_from max_stories seen' out' rest
  end.

Definition dedup_cap (max_stories : Z) (stories : list text) : list text :=
  cap_from max_stories [] [] stories.

Section Backend.

(** [unicodedata.normalize("NFKC", .)] *)
Variable NFKC : text -> text.

(** The model backend: the ["response"] field of the reply to a prompt,
    or [None] when the request raises. *)
Variable generate : text -> option text.

Definition _ask (prompt : text) : option text :=
  option_map strip (generate prompt).

(** [None]: the exception of [_ask] leaves the function. *)
Definition srs_to_user_stories (srs_text : text) (max_stories : Z) : option (list text) :=
  let req_lines := extract_requirement_lines NFKC srs_text in
  match req_lines with
  | [] => Some []
  | _ :: _ =>
      match _ask (stories_prompt req_lines) with
      | None => None
      | Some raw => Some (dedup_cap max_stories (parse_stories raw))
      end
  end.

End Backend.

(* ------------------------------------------------------------------ *)
(** *** The prompts and the classification helpers *)

(** The double quote, for the texts that hold one. *)
Definition dq : ascii := "034"%char.

(** [FEW_SHOT_EXAMPLES_FR]: the pairs of ["review"] and ["classification"]. *)
Definition FEW_SHOT_EXAMPLES_FR : list (text * text) :=
  [ (str "the current fb app is not good at all for tabs with big screen",
     str "Bug Report");
    (str "the problem is with the way items displaypics are smalllarge empty space etc the display generally not attractive",
     str "Bug Report");
    (str "not to mention it force closes often",
     str "Bug Report");
    (str "it should have multi tabs",
     str "Feature Request");
    (str "i use my phone almost exclusivly to log into fb and not being able to delete or edit comments is unacceptable",
     str "Feature Request");
    (str "cant turn off location tracking",
     str "Feature Request");
    (str "my biggest pet peeve is that i cant like",
     str "Feature Request");
    (str "But why does it take up 27 MB of RAM on my Galaxy Nexus",
     str "Other");
    (str "I often find myself accidentally deleting words",
     str "Other") ].

(** The loop that builds [formatted_few_shot_text_fr]. *)
Definition formatted_few_shot_text_fr : text :=
  fold_left
    (fun acc ex =>
       acc ++ str "App Review Segment: " ++ fst ex ++ nl
           ++ str "Classification: " ++ snd ex ++ nl ++ nl)
    FEW_SHOT_EXAMPLES_FR [].

(** [CLASSIFY_PROMPT.format(text=text)] *)
Definition CLASSIFY_PROMPT (text : PyStr.text) : PyStr.text :=
  nl ++
  str "You are an expert in software requirements analysis, specializing in user feedback. Your task is to precisely classify the provided app review segment into one of the following functional requirement categories: 'Feature Request', 'Bug Report', or 'Other'." ++ nl ++
  nl ++
  str "**DEFINITIONS:**" ++ nl ++
  str "* **Feature Request**: This category is for user feedback that clearly suggests a NEW functionality, an enhancement, or an improvement to existing features that are NOT currently broken or causing an error." ++ nl ++
  str "* **Bug Report**: This category is for user feedback that describes an ERROR, FAULT, FLAW, or UNINTENDED BEHAVIOR in the app. It highlights something that is BROKEN or not working as designed." ++ nl ++
  str "* **Other**: This category is for general feedback, compliments, complaints that are not specific enough to be a bug or feature, questions, or irrelevant comments." ++ nl ++
  nl ++
  str "**EXAMPLES:**" ++ nl ++
  formatted_few_shot_text_fr ++
  nl ++
  nl ++
  str "**INSTRUCTIONS:**" ++ nl ++
  str "1.  Read the " ++ [dq] ++ str "App Review Segment" ++ [dq] ++ str " carefully." ++ nl ++
  str "2.  Based on the definitions and examples, determine which of the three categories it most accurately fits." ++ nl ++
  str "3.  Your final output MUST be only the category name (e.g., 'Feature Request'), without any additional text, explanation, or punctuation." ++ nl ++
  nl ++
  str "**App Review Segment:** '''" ++ text ++ str "'''" ++ nl ++
  nl ++
  str "**Classification:**" ++ nl.

(** [NFR_COT_PROMPT.format(review_text=review_text)] *)
Definition NFR_COT_PROMPT (review_text : text) : text :=
  nl ++
  str "You are a highly skilled software requirements expert, specializing in non-functional requirements (NFRs). Your task is to accurately classify a given user review into one of the following NFR types." ++ nl ++
  nl ++
  str "**NFR Categories:**" ++ nl ++
  str "- Usability (US): How easy the system is to use, learn, and its user interface." ++ nl ++
  str "- Reliability (RL): The system's ability to perform consistently without failure, its uptime, and data recovery." ++ nl ++
  str "- Performance (PE): The system's speed, responsiveness, efficiency, throughput, and resource consumption." ++ nl ++
  str "- Portability (PO): How easily the system can be adapted or moved to different operating environments, platforms, or devices." ++ nl ++
  str "- Security (SE): Protection of data from unauthorized access, attacks, ensuring privacy and data integrity." ++ nl ++
  str "- Other (OT): Any review that does not fit clearly into the above specific NFR categories." ++ nl ++
  nl ++
  str "**Instructions:**" ++ nl ++
  str "1. Read the 'User Review' carefully." ++ nl ++
  str "2. In a brief, step-by-step reasoning, analyze the review. What core concern is the user expressing? Does it relate to ease of use, stability, speed, compatibility, or data protection? Explain your reasoning process." ++ nl ++
  str "3. Based on your reasoning, determine the single best NFR category from the 'NFR Categories' list." ++ nl ++
  str "4. State your final classification clearly, preceded by " ++ [dq] ++ str "FINAL CLASSIFICATION:" ++ [dq] ++ str "." ++ nl ++
  str "5. Your final output for classification MUST be only the two-letter abbreviation for the category, followed by a colon and the full category name (e.g., 'US: Usability', 'RL: Reliability', 'OT: Other'). Do NOT include any other text, explanation, or punctuation after " ++ [dq] ++ str "FINAL CLASSIFICATION:" ++ [dq] ++ str "." ++ nl ++
  nl ++
  str "**User Review:** '''" ++ review_text ++ str "'''" ++ nl ++
  nl ++
  str "**Thinking Process:**" ++ nl.

(** [SRS_PROMPT.format(bullet_list=bullet_list)] *)
Definition SRS_PROMPT (bullet_list : text) : text :=
  nl ++
  str "Based on the following classified user feedback, generate a comprehensive Software Requirements Specification (SRS) document." ++ nl ++
  nl ++
  str "Classified Feedback:" ++ nl ++
  bullet_list ++ nl ++
  nl ++
  str "Generate a well-structured SRS document that includes the following sections, using clear and concise language:" ++ nl ++
  str "1. Introduction and Purpose" ++ nl ++
  str "2. System Overview" ++ nl ++
  str "3. Functional Requirements" ++ nl ++
  str "4. Non-Functional Requirements" ++ nl ++
  str "5. System Features" ++ nl ++
  str "6. External Interfaces" ++ nl ++
  str "7. Performance Requirements" ++ nl ++
  str "8. Design Constraints" ++ nl ++
  nl ++
  str "Crucially, ensure the generated SRS is coherent, logically organized, and directly addresses the classified feedback provided. **STRICTLY avoid including any implementation details, specific design solutions, or technical jargon that is not directly inferable from the user feedback. Each requirement must be unique and non-redundant. Ensure all requirements are stated in a clear, testable, and unambiguous manner.**" ++ nl.

Section Driver.

Variable generate : text -> option text.

(** [classify_feedback(line)]: [(label, reason)], or [None] when [_ask]
    raises. *)
Definition classify_feedback (line : text) : option (text * text) :=
  match _ask generate (CLASSIFY_PROMPT line) with
  | None => None
  | Some out =>
      let low := strip (lower out) in
      let label :=
        if startswith (str "bug report") low || startswith (str "bug") low
        then str "Bug"
        else if startswith (str "feature request") low || startswith (str "feature") low
        then str "Feature"
        else str "Other" in
      let reason := line in
      Some (label, reason)
  end.

(** The loop of [classify_nfr_feedback] over the lines of the reply: the
    first line that starts with the marker decides and ends the loop. *)
Fixpoint final_classification (lines : list text) (nfr_type : text) : text :=
  match lines with
  | [] => nfr_type
  | line :: rest =>
      if startswith (str "FINAL CLASSIFICATION:") line
      then strip (remove (str "FINAL CLASSIFICATION:") line)
      else final_classification rest nfr_type
  end.

(** [classify_nfr_feedback(line)]: [(nfr_type, reasoning)] *)
Definition classify_nfr_feedback (line : text) : option (text * text) :=
  match _ask generate (NFR_COT_PROMPT line) with
  | None => None
  | Some out =>
      let lines := split_on "010" out in
      let reasoning := line in
      Some (final_classification lines (str "OT: Other"), reasoning)
  end.

(** The [bullets] of [generate_srs]; an item is [(review, label, reason)]. *)
Definition srs_bullets (items : list (text * text * text)) : text :=
  join nl (map (fun it =>
                  match it with
                  | (rev, lbl, _reason) => str "- [" ++ lbl ++ str "] " ++ rev
                  end) items).

Definition generate_srs (items : list (text * text * text)) : option text :=
  _ask generate (SRS_PROMPT (srs_bullets items)).

End Driver.

End llm_client.

(* ================================================================== *)
(** ** Exceptions and the issue tracker as explicit state *)

Module PyRun.
Import PyStr.

Inductive exn : Type :=
| RuntimeError (msg : text)
| TypeError (msg : text)
| RequestException (msg : text)
| JSONDecodeError (msg : text)
| AttributeError (msg : text).

(** [str(e)] *)
Definition exn_str (e : exn) : text :=
  match e with
  | RuntimeError msg => msg
  | TypeError msg => msg
  | RequestException msg => msg
  | JSONDecodeError msg => msg
  | AttributeError msg => msg
  end.

Inductive res (A : Type) : Type :=
| Ok (a : A)
| Raise (e : exn).
Arguments Ok {A} a.
Arguments Raise {A} e.

(** What [create_issue] posts to the tracker. *)
Record issue_request : Type := {
  rq_url : text;
  rq_project : text;
  rq_summary : text;
  rq_description : text;   (* the text wrapped by [_adf] *)
  rq_labels : list text
}.

(** What [requests.post] gives back: an exception, or a response with
    its status code, its text and what [r.json().get("key")] gives on it:
    the member, [None] when the object has no such member, or the
    exception raised when the text is not JSON ([JSONDecodeError]) or is
    not an object ([AttributeError]).  The tracker answers a request
    knowing the requests posted before it. *)
Inductive http_reply : Type :=
| Reply (status_code : Z) (body : text) (json_key : res (option text))
| Fails (e : exn).

(** A computation that may raise and that posts to the tracker: the state
    is the list of the requests posted so far, oldest first. *)
Definition M (A : Type) : Type := list issue_request -> res A * list issue_request.

Definition ret {A : Type} (a : A) : M A := fun log => (Ok a, log).
Definition raise {A : Type} (e : exn) : M A := fun log => (Raise e, log).
Definition bind {A B : Type} (c : M A) (k : A -> M B) : M B :=
  fun log =>
    match c log with
    | (Ok a, log') => k a log'
    | (Raise e, log') => (Raise e, log')
    end.

(** [try: c    except Exception as e: h e] *)
Definition try_except {A : Type} (c : M A) (h : exn -> M A) : M A :=
  fun log =>
    match c log with
    | (Ok a, log') => (Ok a, log')
    | (Raise e, log') => h e log'
    end.

Definition post (tracker : list issue_request -> issue_request -> http_reply)
    (rq : issue_request) : M http_reply :=
  fun log => (Ok (tracker log rq), log ++ [rq]).

End PyRun.

Declare Scope pyrun_scope.
Delimit Scope pyrun_scope with pyrun.
Notation "x <- c ;; k" := (PyRun.bind c (fun x => k))
  (at level 61, c at next level, right associativity) : pyrun_scope.

(* ================================================================== *)
(** ** backend/jira_client.py *)

Module jira_client.
Import PyStr PyRun.
Local Open Scope pyrun_scope.

(** The four settings read from the environment when the module loads. *)
Record jira_env : Type := {
  JIRA_URL : option text;
  JIRA_EMAIL : option text;
  JIRA_API_TOKEN : option text;
  JIRA_PROJECT_KEY : option text
}.

(** Truth value of an optional string: [None] and the empty string are
    false. *)
Definition truthy (v : option text) : bool :=
  match v with
  | None => false
  | Some s => negb (is_empty s)
  end.

(** [v or d] *)
Definition or_text (v : option text) (d : text) : text :=
  match v with
  | None => d
  | Some s => if is_empty s then d else s
  end.

Definition _check_env (env : jira_env) : M unit :=
  if truthy (JIRA_URL env) && truthy (JIRA_EMAIL env)
     && truthy (JIRA_API_TOKEN env) && truthy (JIRA_PROJECT_KEY env)
  then ret tt
  else raise (RuntimeError (str "Missing one or more Jira environment variables.")).

Definition _clean_text (t : text) : text :=
  if is_empty t then [] else strip (remove [zero] t).

(** A value passed as a keyword argument. *)
Inductive pyval : Type :=
| VStr (s : text)
| VList (l : list text)
| VNone.

Definition kwargs : Type := list (text * pyval).

Fixpoint kw_get (name : text) (kw : kwargs) : option pyval :=
  match kw with
  | [] => None
  | (n, v) :: kw' => if text_eqb name n then Some v else kw_get name kw'
  end.

(** The first keyword of a call that is not a parameter of the callee. *)
Fixpoint unexpected_keyword (params : list text) (kw : kwargs) : option text :=
  match kw with
  | [] => None
  | (n, _) :: kw' => if mem n params then unexpected_keyword params kw' else Some n
  end.

(** [def create_issue(summary, description='', labels=None)] *)
Definition create_issue_params : list text :=
  [str "summary"; str "description"; str "labels"].

Definition arg_text (v : option pyval) : text :=
  match v with
  | Some (VStr s) => s
  | _ => []
  end.

Definition arg_labels (v : option pyval) : list text :=
  match v with
  | Some (VList l) => l
  | _ => []
  end.

(** The dict [create_issue] returns: [{"key", "summary"}] or [{"error"}]. *)
Inductive issue_result : Type :=
| Created (key : option text) (summary : text)
| Error (msg : text).

(** ["key" in res] *)
Definition has_key (r : issue_result) : bool :=
  match r with
  | Created _ _ => true
  | Error _ => false
  end.

(** Decimal digits of a status code, for the f-string of the error. *)
Fixpoint digits_of (fuel n : nat) (acc : text) : text :=
  match fuel with
  | O => acc
  | S f =>
      let acc' := ascii_of_nat (48 + n mod 10) :: acc in
      if n / 10 =? 0 then acc' else digits_of f (n / 10) acc'
  end.

Definition str_of_Z (z : Z) : text :=
  let n := Z.to_nat (Z.abs z) in
  (if (z <? 0)%Z then str "-" else []) ++ digits_of (S n) n [].

Section Tracker.

Variable env : jira_env.
Variable tracker : list issue_request -> issue_request -> http_reply.

(** The body of [create_issue], its parameters bound. *)
Definition create_issue_body (summary description : text) (labels : list text)
  : M issue_result :=
  _ <- _check_env env ;;
  let url := rev (dropwhile (Ascii.eqb "/") (rev (or_text (JIRA_URL env) [])))
             ++ str "/rest/api/3/issue" in
  let summary := firstn 255 (_clean_text summary) in
  let description := _clean_text description in
  r <- post tracker {| rq_url := url;
                       rq_project := or_text (JIRA_PROJECT_KEY env) [];
                       rq_summary := summary;
                       rq_description := description;
                       rq_labels := labels |} ;;
  match r with
  | Fails e => raise e
  | Reply status_code body json_key =>
      if (status_code =? 200)%Z || (status_code =? 201)%Z
      then
        match json_key with
        | Ok key => ret (Created key summary)
        | Raise e => raise e
        end
      else ret (Error (str "Jira " ++ str_of_Z status_code ++ str ": " ++ body))
  end.

(** A call [create_issue(name=value, ...)]: a keyword that is not a
    parameter raises [TypeError] before the body runs. *)
Definition create_issue (kw : kwargs) : M issue_result :=
  match unexpected_keyword create_issue_params kw with
  | Some name =>
      raise (TypeError (str "create_issue() got an unexpected keyword argument '"
                        ++ name ++ str "'"))
  | None =>
      match kw_get (str "summary") kw with
      | None =>
          raise (TypeError
                   (str "create_issue() missing 1 required positional argument: 'summary'"))
      | Some summary =>
          create_issue_body (arg_text (Some summary))
                            (arg_text (kw_get (str "description") kw))
                            (arg_labels (kw_get (str "labels") kw))
      end
  end.

End Tracker.

End jira_client.

(* ================================================================== *)
(** ** backend/main.py *)

Module main.
Import PyStr PyRun jira_client.
Local Open Scope pyrun_scope.

(** The final cleanup of the uploaded text in [process_txt]:
    [content.replace(NUL, '').strip()]. *)
Definition final_cleanup (content : text) : text :=
  strip (remove [zero] content).

(** [labels_for_item(kind, subtype)] *)
Definition labels_for_item (kind : option text) (subtype : option text) : list text :=
  let k := lower (or_text kind []) in
  if text_eqb k (str "bug") then [str "bug"]
  else if mem k [str "feature"; str "fr"; str "functional requirement"]
  then [str "feature"]
  else if mem k [str "nfr"; str "non-functional requirement"]
  then [str "nfr"] ++
       (if truthy subtype
        then [str "nfr-" ++ map (fun c => if Ascii.eqb c " " then "-"%char else c)
                                (lower (or_text subtype []))]
        else [])
  else [str "other"].

(** [class JiraItem(BaseModel)] *)
Record JiraItem : Type := {
  review : text;
  classification : text;
  reasoning : option text
}.

(** An element of ["stories"]; [None] is a missing member or [null]. *)
Record story_item : Type := {
  s_user_story : option text;
  s_classification : option text
}.

(** An element of ["items"] *)
Record class_item : Type := {
  c_review : option text;
  c_classification : option text;
  c_fr_nfr : option text;
  c_subtype : option text;
  c_reasoning : option text
}.

(** An entry of a ["failed"] list: [{"title": ..., "error": ...}]
    ([jira_create] names the first member ["summary"]). *)
Record failed_entry : Type := {
  title : text;
  error : text
}.

(** What a batch endpoint returns: [{"error": ...}] or
    [{"created": ..., "failed": ...}]. *)
Inductive batch_response (C : Type) : Type :=
| ErrorObject (msg : text)
| Batch (created : list C) (failed : list failed_entry).
Arguments ErrorObject {C} msg.
Arguments Batch {C} created failed.

Section Handlers.

Variable env : jira_env.
Variable tracker : list issue_request -> issue_request -> http_reply.

(** The loop of [jira_create]; an entry of its ["created"] list is
    [{"key": key, "summary": it.review}]. *)
Fixpoint jira_create_loop (items : list JiraItem)
    (created : list (issue_result * text)) (failed : list failed_entry)
  : M (batch_response (issue_result * text)) :=
  match items with
  | [] => ret (Batch created failed)
  | it :: rest =>
      let itype :=
        if text_eqb (classification it) (str "Bug") then str "Bug"
        else if text_eqb (classification it) (str "Feature") then str "Story"
        else str "Task" in
      cf <- try_except
              (key <- create_issue env tracker
                        [(str "summary", VStr (review it));
                         (str "description", VStr (or_text (reasoning it) []));
                         (str "issuetype", VStr itype)] ;;
               ret (created ++ [(key, review it)], failed))
              (fun e => ret (created,
                             failed ++ [{| title := review it; error := exn_str e |}])) ;;
      jira_create_loop rest (fst cf) (snd cf)
  end.

Definition jira_create (items : list JiraItem) : M (batch_response (issue_result * text)) :=
  jira_create_loop items [] [].

(** The loop of [jira_send_selected]. *)
Fixpoint send_selected_loop (items : list story_item)
    (created : list issue_result) (failed : list failed_entry)
  : M (batch_response issue_result) :=
  match items with
  | [] => ret (Batch created failed)
  | it :: rest =>
      let story := strip (or_text (s_user_story it) []) in
      let classification := or_text (s_classification it) (str "Feature") in
      if is_empty story
      then send_selected_loop rest created
             (failed ++ [{| title := []; error := str "Empty story" |}])
      else
        res <- create_issue env tracker
                 [(str "summary", VStr story);
                  (str "description", VStr story);
                  (str "classification", VStr classification)] ;;
        match res with
        | Created _ _ => send_selected_loop rest (created ++ [res]) failed
        | Error msg =>
            send_selected_loop rest created
              (failed ++ [{| title := story; error := msg |}])
        end
  end.

(** [jira_send_selected(payload)]; [stories] is [payload.get("stories")]. *)
Definition jira_send_selected (stories : option (list story_item))
  : M (batch_response issue_result) :=
  let items := match stories with Some l => l | None => [] end in
  match items with
  | [] => ret (ErrorObject (str "No stories provided"))
  | _ :: _ =>
      if 10 <? length items
      then ret (ErrorObject (str "Cannot send more than 10 stories at once"))
      else send_selected_loop items [] []
  end.

(** The loop of [jira_send_selected_classifications]. *)
Fixpoint send_classifications_loop (items : list class_item)
    (created : list issue_result) (failed : list failed_entry)
  : M (batch_response issue_result) :=
  match items with
  | [] => ret (Batch created failed)
  | it :: rest =>
      let summary := strip (or_text (c_review it) []) in
      if is_empty summary
      then send_classifications_loop rest created
             (failed ++ [{| title := []; error := str "Empty review" |}])
      else
        let kind :=
          if truthy (c_classification it) then c_classification it
          else if truthy (c_fr_nfr it) then c_fr_nfr it
          else Some (str "Feature") in
        let labels := labels_for_item kind (c_subtype it) in
        let prefix :=
          if mem (str "bug") labels then str "[BUG]"
          else if mem (str "nfr") labels then str "[NFR]"
          else str "[FEATURE]" in
        res <- create_issue env tracker
                 [(str "summary", VStr (prefix ++ str " " ++ summary));
                  (str "description", VStr (or_text (c_reasoning it) summary));
                  (str "labels", VList labels)] ;;
        match res with
        | Created _ _ => send_classifications_loop rest (created ++ [res]) failed
        | Error msg =>
            send_classifications_loop rest created
              (failed ++ [{| title := summary; error := msg |}])
        end
  end.

(** [jira_send_selected_classifications(payload)]; [items] is
    [payload.get("items")]. *)
Definition jira_send_selected_classifications (items : option (list class_item))
  : M (batch_response issue_result) :=
  let items := match items with Some l => l | None => [] end in
  match items with
  | [] => ret (ErrorObject (str "No items provided"))
  | _ :: _ =>
      if 10 <? length items
      then ret (ErrorObject (str "Cannot send more than 10 items at once"))
      else send_classifications_loop items [] []
  end.

End Handlers.

(* ------------------------------------------------------------------ *)
(** *** The endpoints that talk to the model backend *)

(** How a request to these endpoints can fail: [HTTPException], the
    exception of a request to the backend, [KeyError]. *)
Inductive failure : Type :=
| HTTPException (status_code : Z) (detail : text)
| BackendError
| KeyError (key : text).

Inductive outcome (A : Type) : Type :=
| Done (a : A)
| Failed (f : failure).
Arguments Done {A} a.
Arguments Failed {A} f.

(** An entry of ["classifications"] in the answer of [process_txt]. *)
Record classification_entry : Type := {
  e_review : text;
  e_classification : text;
  e_reasoning : text
}.

(** The answer of [process_txt]. *)
Record process_response : Type := {
  total_reviews : nat;
  classification_summary : list (text * Z);
  classifications : list classification_entry;
  srs_document : text
}.

(** [summary[label] += 1]; [None] is the [KeyError] of a missing key. *)
Fixpoint bump (label : text) (summary : list (text * Z)) : option (list (text * Z)) :=
  match summary with
  | [] => None
  | (k, v) :: rest =>
      if text_eqb label k then Some ((k, (v + 1)%Z) :: rest)
      else option_map (cons (k, v)) (bump label rest)
  end.

(** [lines = [l.strip() for l in content.splitlines() if len(l.strip()) >= 3]]
    after the final cleanup of the content. *)
Definition review_lines (content : text) : list text :=
  filter (fun l => 3 <=? length l) (map strip (splitlines (final_cleanup content))).

Section Upload.

(** The model backend: its answer to a prompt, knowing the prompts sent
    before, or [None] when the request raises.  The state of a run is the
    list of the prompts sent so far, oldest first. *)
Variable backend : list text -> text -> option text.

(** The loop [for ln in lines] of [process_txt]. *)
Fixpoint classify_lines (lines : list text) (summary : list (text * Z))
    (entries : list classification_entry) (log : list text)
  : outcome (list (text * Z) * list classification_entry) * list text :=
  match lines with
  | [] => (Done (summary, entries), log)
  | ln :: rest =>
      let log' := log ++ [llm_client.CLASSIFY_PROMPT ln] in
      match llm_client.classify_feedback (backend log) ln with
      | None => (Failed BackendError, log')
      | Some (label, reason) =>
          match bump label summary with
          | None => (Failed (KeyError label), log')
          | Some summary' =>
              classify_lines rest summary'
                (entries ++ [{| e_review := ln; e_classification := label;
                                e_reasoning := reason |}]) log'
          end
      end
  end.

(** [process_txt(file)] from the decoded text on: [filename] is
    [file.filename] and [content] the text that the decoding of the upload
    gives. *)
Definition process_txt (filename content : text) (log : list text)
  : outcome process_response * list text :=
  if negb (endswith (str ".txt") filename)
  then (Failed (HTTPException 400 (str "Please upload a .txt file")), log)
  else
    let lines := review_lines content in
    match lines with
    | [] => (Failed (HTTPException 400 (str "No reviews found in file")), log)
    | _ :: _ =>
        match classify_lines lines
                [(str "Bug", 0%Z); (str "Feature", 0%Z); (str "Other", 0%Z)] [] log with
        | (Failed f, log') => (Failed f, log')
        | (Done (summary, entries), log') =>
            let items :=
              map (fun c => (e_review c, e_classification c, e_reasoning c)) entries in
            let log'' := log' ++ [llm_client.SRS_PROMPT (llm_client.srs_bullets items)] in
            match llm_client.generate_srs (backend log') items with
            | None => (Failed BackendError, log'')
            | Some srs_text =>
                (Done {| total_reviews := length lines;
                         classification_summary := summary;
                         classifications := entries;
                         srs_document := srs_text |}, log'')
            end
        end
    end.

End Upload.

(** The answer of [generate_stories]: [{"error": ...}] or
    [{"stories": ...}]. *)
Inductive stories_response : Type :=
| StoriesError (msg : text)
| Stories (stories : list text).

(** [generate_stories(payload)]; [srs_document] is
    [payload.get("srs_document")], [NFKC] the normalization that the
    extractor calls, and [None] as a result is the exception of the
    request to the backend. *)
Definition generate_stories (NFKC : text -> text) (generate : text -> option text)
    (srs_document : option text) : option stories_response :=
  let srs := or_text srs_document [] in
  if is_empty srs then Some (StoriesError (str "Missing srs_document"))
  else option_map Stories (llm_client.srs_to_user_stories NFKC generate srs 50).

End main.


(* ================================================================== *)
(** ** Vocabulary of the statements *)

Module Shapes.
Import PyStr Re llm_client PyRun jira_client main.

(** The last character of a text, if any. *)
Definition last_char (s : text) : option ascii :=
  match rev s with
  | [] => None
  | c :: _ => Some c
  end.

(** [strip_prefix_ci w s]: [s] without a leading copy of [w], compared
    up to case. *)
Fixpoint strip_prefix_ci (w s : text) : option text :=
  match w, s with
  | [], _ => Some s
  | a :: w', x :: s' =>
      if Ascii.eqb (lower_char a) (lower_char x) then strip_prefix_ci w' s' else None
  | _ :: _, [] => None
  end.

(** [s] is [w], up to case, then a closing bracket, then white space. *)
Definition closes_tag (w s : text) : bool :=
  match strip_prefix_ci w s with
  | Some (c :: rest) => Ascii.eqb c "]" && forallb isspace rest
  | _ => false
  end.

(** [s] is white space, one of the three bracketed tags, white space. *)
Definition tagged (s : text) : bool :=
  match lstrip s with
  | c :: s2 =>
      Ascii.eqb c "[" &&
      (closes_tag (str "Bug") s2 || closes_tag (str "Feature") s2
       || closes_tag (str "Other") s2)
  | [] => false
  end.

(** [s] cut where its first [tagged] suffix starts. *)
Fixpoint cut_tag (s : text) : text :=
  match s with
  | [] => []
  | c :: t => if tagged s then [] else c :: cut_tag t
  end.

(** The content of a tag that [strip_tag] names, in any case. *)
Definition is_tag (t : text) : bool :=
  mem (lower t) [str "bug"; str "feature"; str "other"].

(** A reply line, its list markers removed, has the form of a story. *)
Definition conforms (ln : text) : bool :=
  startswith (str "as a ") (lower ln) && contains (str " i want ") (lower ln).

(** The entries of [l] that no earlier entry equals up to case; [past]
    holds the entries already passed. *)
Fixpoint firsts (past : list text) (l : list text) : list text :=
  match l with
  | [] => []
  | r :: rest =>
      if mem (lower r) (map lower past) then firsts (past ++ [r]) rest
      else r :: firsts (past ++ [r]) rest
  end.

(** Sample inputs of the statements below. *)
Definition fr_heading : text := str "3. Functional Requirements".

Definition srs_one : text := fr_heading ++ nl ++ str "- Add login".

Definition story_login : text :=
  str "As a user, I want to log in so that my data is safe.".

Definition story_reports : text :=
  str "As a manager, I want reports so that I can plan.".

(** A backend that answers every prompt with one story. *)
Definition reply_one (prompt : text) : option text :=
  Some (str "1. " ++ story_login).

(** A backend that answers every prompt with two stories. *)
Definition reply_two (prompt : text) : option text :=
  Some (str "1. " ++ story_login ++ nl ++ str "2. " ++ story_reports).

(** A complete Jira configuration and a tracker that accepts every
    request. *)
Definition env_ok : jira_env :=
  {| JIRA_URL := Some (str "https://example.atlassian.net/");
     JIRA_EMAIL := Some (str "dev@example.com");
     JIRA_API_TOKEN := Some (str "token");
     JIRA_PROJECT_KEY := Some (str "REQ") |}.

Definition tracker_accepts (posted : list issue_request) (rq : issue_request)
  : http_reply :=
  Reply 201 (str "{" ++ [dq] ++ str "key" ++ [dq] ++ str ": " ++ [dq] ++ str "REQ-1"
             ++ [dq] ++ str "}")
        (Ok (Some (str "REQ-1"))).

(** A batch of one well-formed story and one story with an empty text. *)
Definition two_stories : list story_item :=
  [ {| s_user_story := Some story_login; s_classification := Some (str "Feature") |};
    {| s_user_story := Some []; s_classification := Some (str "Feature") |} ].

Definition two_jira_items : list JiraItem :=
  [ {| review := str "App crashes on start"; classification := str "Bug";
       reasoning := None |};
    {| review := []; classification := str "Bug"; reasoning := None |} ].

Definition two_class_items : list class_item :=
  [ {| c_review := Some (str "App crashes on start");
       c_classification := Some (str "Bug"); c_fr_nfr := None;
       c_subtype := None; c_reasoning := None |};
    {| c_review := Some []; c_classification := Some (str "Bug");
       c_fr_nfr := None; c_subtype := None; c_reasoning := None |} ].

(** NFKC on the text of the alphabet: the no-break space becomes a
    space, the Greek question mark a semicolon, and every other character
    stays as it is. *)
Definition nfkc_alphabet (s : text) : text :=
  map (fun c => if Ascii.eqb c nbsp then " "%char
                else if Ascii.eqb c greek_question then ";"%char
                else c) s.

(** The marker of [classify_nfr_feedback]. *)
Definition final_mark : text := str "FINAL CLASSIFICATION:".

(** A backend whose reply reasons, then classifies twice. *)
Definition reply_nfr (prompt : text) : option text :=
  Some (str "The user waits too long." ++ nl
        ++ str "FINAL CLASSIFICATION: PE: Performance" ++ nl
        ++ str "FINAL CLASSIFICATION: US: Usability").

(** A word: a non-empty text without white space. *)
Definition word (t : text) : Prop :=
  t <> [] /\ forallb (fun c => negb (isspace c)) t = true.

(** A requirement line in its final form: not empty, and unchanged by
    the collapsing of white space (words separated by single spaces). *)
Definition normal_line (r : text) : Prop := r <> [] /\ collapse r = r.

(** How many entries of the answer of [process_txt] carry a label. *)
Definition count_label (label : text) (entries : list classification_entry) : Z :=
  Z.of_nat (length (filter (fun e => text_eqb (e_classification e) label) entries)).

(** The summary that counts the entries of each of the three labels. *)
Definition tally (entries : list classification_entry) : list (text * Z) :=
  [ (str "Bug", count_label (str "Bug") entries);
    (str "Feature", count_label (str "Feature") entries);
    (str "Other", count_label (str "Other") entries) ].

(** An entry as [process_txt] builds it: one of the three labels, and the
    review again as its reasoning. *)
Definition sound_entry (e : classification_entry) : Prop :=
  e_reasoning e = e_review e /\
  (e_classification e = str "Bug" \/ e_classification e = str "Feature"
   \/ e_classification e = str "Other").

(** The bullet list that [process_txt] hands to [generate_srs]. *)
Definition srs_prompt_of (entries : list classification_entry) : text :=
  SRS_PROMPT
    (srs_bullets
       (map (fun c => (e_review c, e_classification c, e_reasoning c)) entries)).

(** The four settings of the Jira configuration are all present and not
    empty. *)
Definition configured (env : jira_env) : bool :=
  truthy (JIRA_URL env) && truthy (JIRA_EMAIL env)
  && truthy (JIRA_API_TOKEN env) && truthy (JIRA_PROJECT_KEY env).

(** A configuration with nothing set. *)
Definition env_unset : jira_env :=
  {| JIRA_URL := None; JIRA_EMAIL := None;
     JIRA_API_TOKEN := None; JIRA_PROJECT_KEY := None |}.

Definition missing_env : text :=
  str "Missing one or more Jira environment variables.".

(** An item whose review is missing, empty or white space. *)
Definition blank_review (it : class_item) : bool :=
  is_empty (strip (or_text (c_review it) [])).

(** A story that is missing, empty or white space. *)
Definition blank_story (it : story_item) : bool :=
  is_empty (strip (or_text (s_user_story it) [])).

(** The four labels that name the kind of an item. *)
Definition kind_labels : list text :=
  [str "bug"; str "feature"; str "nfr"; str "other"].

(** A request whose texts are clean: a summary of at most 255 characters
    without NUL, a trimmed description without NUL. *)
Definition clean_request (rq : issue_request) : Prop :=
  length (rq_summary rq) <= 255 /\ ~ In zero (rq_summary rq) /\
  ~ In zero (rq_description rq) /\ strip (rq_description rq) = rq_description rq.

(** A request whose summary opens with one of the three prefixes and
    whose first label names a kind. *)
Definition prefixed_request (rq : issue_request) : Prop :=
  (startswith (str "[BUG]") (rq_summary rq)
   || startswith (str "[NFR]") (rq_summary rq)
   || startswith (str "[FEATURE]") (rq_summary rq)) = true /\
  exists first rest, rq_labels rq = first :: rest /\ In first kind_labels.

(** *** Vocabulary of the statements about the fallback scan *)

(** The section in force after the lines [pre] of a document. *)
Definition section_after (pre : list text) : option text :=
  fst (fold_left scan_line pre (None, [])).

(** A line that, trimmed, starts with a dash and a white-space
    character. *)
Definition dash_bullet (raw : text) : bool :=
  match strip raw with
  | d :: c :: _ => Ascii.eqb d "-" && isspace c
  | _ => false
  end.

(** No line of the document is a bullet under a section whose name holds
    [functional requirements]. *)
Definition no_functional_bullet (lines : list text) : Prop :=
  forall pre l post,
    lines = pre ++ l :: post ->
    in_functional (section_after pre) = true -> dash_bullet l = false.

(** *** Vocabulary of the statements about the story parser *)

(** [squeeze s]: the text [s] with every run of white space inside it
    replaced by one space, and without the runs at its two ends.
    [inside] tells that a character was kept already, [gap] that white
    space was passed since. *)
Fixpoint squeeze_from (inside gap : bool) (s : text) : text :=
  match s with
  | [] => []
  | c :: t =>
      if isspace c then squeeze_from inside true t
      else (if inside && gap then [" "%char; c] else [c]) ++ squeeze_from true false t
  end.

Definition squeeze (s : text) : text := squeeze_from false false s.

(** A text without a line boundary. *)
Definition one_line (s : text) : Prop :=
  forallb (fun c => negb (is_linebreak c)) s = true.

(** *** Vocabulary of the statements about the clean-up *)

(** The text without its NUL characters. *)
Definition without_nul (s : text) : text :=
  filter (fun c => negb (Ascii.eqb c zero)) s.

(** A text that neither starts nor ends with white space. *)
Definition ends_clean (r : text) : Prop :=
  match r with [] => True | c :: _ => isspace c = false end /\
  match last_char r with None => True | Some c => isspace c = false end.

(** [r] is [s] without the white space at its two ends. *)
Definition trim_of (s r : text) : Prop :=
  exists l t,
    s = l ++ r ++ t /\ forallb isspace l = true /\ forallb isspace t = true /\
    ends_clean r.

(** A backend that answers every prompt with [Bug]. *)
Definition backend_bug (asked : list text) (prompt : text) : option text :=
  Some (str "Bug").

(** *** Vocabulary of the statements about the requests of a run *)

(** Each prompt of [sent], asked after [log] and the prompts before it,
    was answered by the backend. *)
Definition answered (backend : list text -> text -> option text)
    (log sent : list text) : Prop :=
  forall past prompt rest,
    sent = past ++ prompt :: rest -> backend (log ++ past) prompt <> None.

(** Each entry holds what [classify_feedback] gave for its review, asked
    after [log] and the prompts for the reviews before it. *)
Definition classified (backend : list text -> text -> option text)
    (log : list text) (entries : list classification_entry) : Prop :=
  forall past e rest,
    entries = past ++ e :: rest ->
    classify_feedback (backend (log ++ map CLASSIFY_PROMPT (map e_review past)))
                      (e_review e)
    = Some (e_classification e, e_reasoning e).

End Shapes.

(* ================================================================== *)
(** ** Facts about the string functions *)

Module PyStrFacts.
Import PyStr Shapes.

Ltac each_char c :=
  destruct c as [[|] [|] [|] [|] [|] [|] [|] [|]]; vm_compute;
  try reflexivity; try discriminate; try tauto.

Lemma digit_not_space c : isdigit c = true -> isspace c = false.
Proof. each_char c. Qed.

Lemma space_not_digit c : isspace c = true -> isdigit c = false.
Proof. each_char c. Qed.

Lemma newline_is_space c : Ascii.eqb c "010" = true -> isspace c = true.
Proof. each_char c. Qed.

Lemma lower_char_space c : isspace (lower_char c) = isspace c.
Proof. each_char c. Qed.

Lemma lower_char_idem c : lower_char (lower_char c) = lower_char c.
Proof. each_char c. Qed.

Lemma text_eqb_eq a b : text_eqb a b = true <-> a = b.
Proof.
  revert b; induction a as [|x a IH]; intros [|y b]; simpl; split; intro H;
    try reflexivity; try discriminate.
  - apply andb_true_iff in H as [H1 H2].
    apply Ascii.eqb_eq in H1. apply IH in H2. congruence.
  - injection H as -> ->. rewrite Ascii.eqb_refl. simpl. now apply IH.
Qed.

Lemma text_eqb_refl a : text_eqb a a = true.
Proof. now apply text_eqb_eq. Qed.

Lemma mem_In k seen : mem k seen = true <-> In k seen.
Proof.
  unfold mem. rewrite existsb_exists. split.
  - intros (x & Hx & E). apply text_eqb_eq in E. now subst.
  - intro H. exists k. split; [assumption | apply text_eqb_refl].
Qed.

Lemma mem_not_In k seen : mem k seen = false <-> ~ In k seen.
Proof.
  rewrite <- mem_In. destruct (mem k seen); split; intro H;
    try reflexivity; try discriminate; try (intro; discriminate).
  exfalso. now apply H.
Qed.

(** *** [dropwhile], [lstrip], [rstrip], [strip] *)

Lemma dropwhile_all p s : forallb p s = true -> dropwhile p s = [].
Proof.
  induction s as [|c s IH]; simpl; [reflexivity|].
  intro H. apply andb_true_iff in H as [-> H]. now apply IH.
Qed.

Lemma dropwhile_app_all p a b :
  forallb p a = true -> dropwhile p (a ++ b) = dropwhile p b.
Proof.
  induction a as [|c a IH]; simpl; [reflexivity|].
  intro H. apply andb_true_iff in H as [-> H]. now apply IH.
Qed.

Lemma dropwhile_split p s :
  exists a, s = a ++ dropwhile p s /\ forallb p a = true.
Proof.
  induction s as [|c s (a & E & Ha)]; simpl.
  - now exists [].
  - destruct (p c) eqn:Hc.
    + exists (c :: a). simpl. rewrite Hc, Ha. split; [congruence | reflexivity].
    + now exists [].
Qed.

Lemma dropwhile_head p s c t : dropwhile p s = c :: t -> p c = false.
Proof.
  induction s as [|x s IH]; simpl; [discriminate|].
  destruct (p x) eqn:Hx; [assumption|].
  intro E. injection E as -> _. assumption.
Qed.

Lemma dropwhile_idem p s : dropwhile p (dropwhile p s) = dropwhile p s.
Proof.
  destruct (dropwhile p s) as [|c t] eqn:E; [reflexivity|].
  simpl. now rewrite (dropwhile_head _ _ _ _ E).
Qed.

Lemma dropwhile_stop p c t : p c = false -> dropwhile p (c :: t) = c :: t.
Proof. simpl. now intros ->. Qed.

Lemma dropwhile_In p s c : In c (dropwhile p s) -> In c s.
Proof.
  induction s as [|x s IH]; simpl; [tauto|].
  destruct (p x); simpl; tauto.
Qed.

Lemma last_char_app s c : last_char (s ++ [c]) = Some c.
Proof. unfold last_char. now rewrite rev_app_distr. Qed.

Lemma last_char_cons x s c : last_char s = Some c -> last_char (x :: s) = Some c.
Proof.
  unfold last_char. simpl. destruct (rev s); [discriminate|]. simpl. tauto.
Qed.

Lemma last_char_app_r a b c : last_char b = Some c -> last_char (a ++ b) = Some c.
Proof.
  induction a; simpl; [tauto|]. intro H. apply last_char_cons. now apply IHa.
Qed.

Lemma last_char_snoc s c : last_char s = Some c -> exists s', s = s' ++ [c].
Proof.
  unfold last_char. destruct (rev s) as [|x r] eqn:E; [discriminate|].
  intro H. injection H as ->. exists (rev r).
  rewrite <- (rev_involutive s), E. reflexivity.
Qed.

Lemma rstrip_fix s c :
  last_char s = Some c -> isspace c = false -> rstrip s = s.
Proof.
  unfold last_char, rstrip. destruct (rev s) as [|x r] eqn:E; [discriminate|].
  intros H Hc. injection H as ->. simpl. rewrite Hc.
  rewrite <- E. apply rev_involutive.
Qed.

Lemma rstrip_nil : rstrip [] = [].
Proof. reflexivity. Qed.

Lemma rstrip_last s :
  rstrip s = [] \/ exists c, last_char (rstrip s) = Some c /\ isspace c = false.
Proof.
  unfold rstrip, last_char. rewrite rev_involutive.
  destruct (dropwhile isspace (rev s)) as [|c t] eqn:E; [now left|].
  right. exists c. split; [reflexivity|]. exact (dropwhile_head _ _ _ _ E).
Qed.

Lemma rstrip_split s :
  exists w, s = rstrip s ++ w /\ forallb isspace w = true.
Proof.
  unfold rstrip. destruct (dropwhile_split isspace (rev s)) as (a & E & Ha).
  exists (rev a). split.
  - rewrite <- rev_app_distr, <- E. symmetry. apply rev_involutive.
  - rewrite forallb_forall in *. intros x Hx. apply Ha. now apply in_rev.
Qed.

Lemma rstrip_app_space s w :
  forallb isspace w = true -> rstrip (s ++ w) = rstrip s.
Proof.
  intro H. unfold rstrip. rewrite rev_app_distr.
  rewrite dropwhile_app_all; [reflexivity|].
  rewrite forallb_forall in *. intros x Hx. apply H. now apply in_rev.
Qed.

Lemma rstrip_idem s : rstrip (rstrip s) = rstrip s.
Proof.
  destruct (rstrip_last s) as [-> | (c & H1 & H2)]; [reflexivity|].
  exact (rstrip_fix _ _ H1 H2).
Qed.

Lemma rstrip_cons_keep c s :
  isspace c = false -> rstrip (c :: s) = c :: rstrip s.
Proof.
  intro Hc. destruct (rstrip_split s) as (w & E & Hw).
  rewrite E at 1. change (c :: rstrip s ++ w) with ((c :: rstrip s) ++ w).
  rewrite rstrip_app_space by assumption.
  destruct (rstrip_last s) as [E0 | (x & H1 & H2)].
  - rewrite E0. unfold rstrip. simpl. now rewrite Hc.
  - apply rstrip_fix with (c := x); [now apply last_char_cons | assumption].
Qed.

Lemma lstrip_rstrip_comm_head s :
  lstrip (rstrip (lstrip s)) = rstrip (lstrip s).
Proof.
  unfold lstrip at 2 3. destruct (dropwhile isspace s) as [|c t] eqn:E.
  - reflexivity.
  - pose proof (dropwhile_head _ _ _ _ E) as Hc.
    rewrite rstrip_cons_keep by assumption.
    unfold lstrip. simpl. now rewrite Hc.
Qed.

Lemma strip_idem s : strip (strip s) = strip s.
Proof.
  unfold strip. rewrite lstrip_rstrip_comm_head. apply rstrip_idem.
Qed.

Lemma strip_lstrip s : strip (lstrip s) = strip s.
Proof. unfold strip, lstrip. now rewrite dropwhile_idem. Qed.

Lemma strip_In s c : In c (strip s) -> In c s.
Proof.
  unfold strip, rstrip, lstrip. intro H.
  apply in_rev in H. apply dropwhile_In in H. apply in_rev in H.
  now apply dropwhile_In in H.
Qed.

End PyStrFacts.

(* ================================================================== *)
(** ** Facts about the matcher *)

Module ReFacts.
Import PyStr Re llm_client Shapes PyStrFacts.

Section Engine.

Variable ic : bool.
Variable len0 : nat.

Lemma orelse_none a : orelse a (fun _ => None) = a.
Proof. now destruct a. Qed.

Lemma m_seq r1 r2 s g k :
  m ic len0 (Seq r1 r2) s g k = m ic len0 r1 s g (fun s' g' => m ic len0 r2 s' g' k).
Proof. reflexivity. Qed.

Lemma m_group i r s g k :
  m ic len0 (Group i r) s g k =
  m ic len0 r s g (fun s' g' => k s' ((i, firstn (length s - length s') s) :: g')).
Proof. reflexivity. Qed.

Lemma m_cls p s g k :
  m ic len0 (Cls p) s g k =
  match s with
  | x :: s' => if p x then k s' g else None
  | [] => None
  end.
Proof. reflexivity. Qed.

Lemma m_lit a s g k :
  m ic len0 (Lit a) s g k =
  match s with
  | x :: s' => if lit_matches ic a x then k s' g else None
  | [] => None
  end.
Proof. reflexivity. Qed.

Lemma m_eol s g k :
  m ic len0 Eol s g k =
  match s with
  | [] => k s g
  | [x] => if Ascii.eqb x "010" then k s g else None
  | _ :: _ :: _ => None
  end.
Proof. reflexivity. Qed.

(** One iteration of a greedy star over a character class. *)
Lemma m_star_cls p s g k :
  m ic len0 (Star (Cls p)) s g k =
  match s with
  | x :: t =>
      if p x then orelse (m ic len0 (Star (Cls p)) t g k) (fun _ => k s g) else k s g
  | [] => k s g
  end.
Proof.
  destruct s as [|x t]; [reflexivity|].
  cbn [Re.m length]. destruct (p x); [|reflexivity].
  replace (length t <? S (length t)) with true
    by (symmetry; apply Nat.ltb_lt; lia).
  reflexivity.
Qed.

(** One iteration of a non-greedy star over a character class. *)
Lemma m_lazystar_cls p s g k :
  m ic len0 (LazyStar (Cls p)) s g k =
  orelse (k s g)
    (fun _ =>
       match s with
       | x :: t => if p x then m ic len0 (LazyStar (Cls p)) t g k else None
       | [] => None
       end).
Proof.
  destruct s as [|x t]; [reflexivity|].
  cbn [Re.m length]. destruct (k (x :: t) g); [reflexivity|].
  cbn [orelse]. destruct (p x); [|reflexivity].
  replace (length t <? S (length t)) with true
    by (symmetry; apply Nat.ltb_lt; lia).
  reflexivity.
Qed.

(** A greedy star keeps all of a run [a] when giving back any of it
    fails: the continuation rejects every text that starts in the class. *)
Lemma m_star_cls_commit p a b g k :
  forallb p a = true ->
  (forall x t, p x = true -> k (x :: t) g = None) ->
  m ic len0 (Star (Cls p)) (a ++ b) g k = m ic len0 (Star (Cls p)) b g k.
Proof.
  intros Ha Hk. induction a as [|x a IH]; [reflexivity|].
  simpl in Ha. apply andb_true_iff in Ha as [Hx Ha].
  rewrite <- app_comm_cons, m_star_cls, Hx, (Hk x _ Hx), orelse_none.
  now apply IH.
Qed.

Lemma m_star_cls_stop p s g k :
  match s with [] => True | x :: _ => p x = false end ->
  m ic len0 (Star (Cls p)) s g k = k s g.
Proof.
  intro H. rewrite m_star_cls. destruct s as [|x t]; [reflexivity|].
  now rewrite H.
Qed.

(** The longest run is tried first. *)
Lemma m_star_cls_first p a b g k r :
  forallb p a = true ->
  m ic len0 (Star (Cls p)) b g k = Some r ->
  m ic len0 (Star (Cls p)) (a ++ b) g k = Some r.
Proof.
  intros Ha Hb. induction a as [|x a IH]; [assumption|].
  simpl in Ha. apply andb_true_iff in Ha as [Hx Ha].
  rewrite <- app_comm_cons, m_star_cls, Hx, (IH Ha). reflexivity.
Qed.

(** Whatever a star over a class matched is a run of the class. *)
Lemma m_star_cls_inv p s g k r :
  m ic len0 (Star (Cls p)) s g k = Some r ->
  exists a b, s = a ++ b /\ forallb p a = true /\ k b g = Some r.
Proof.
  induction s as [|x t IH]; rewrite m_star_cls.
  - intro H. now exists [], [].
  - destruct (p x) eqn:Hx.
    + destruct (m ic len0 (Star (Cls p)) t g k) as [r'|] eqn:E; cbn [orelse].
      * intro H. injection H as <-.
        destruct (IH eq_refl) as (a & b & -> & Ha & Hb).
        exists (x :: a), b. simpl. now rewrite Hx, Ha.
      * intro H. now exists [], (x :: t).
    + intro H. now exists [], (x :: t).
Qed.

Lemma m_lazystar_cls_inv p s g k r :
  m ic len0 (LazyStar (Cls p)) s g k = Some r ->
  exists a b, s = a ++ b /\ forallb p a = true /\ k b g = Some r.
Proof.
  induction s as [|x t IH]; rewrite m_lazystar_cls.
  - destruct (k [] g) eqn:E; cbn [orelse]; [|discriminate].
    intro H. injection H as <-. now exists [], [].
  - destruct (k (x :: t) g) eqn:E; cbn [orelse].
    + intro H. injection H as <-. now exists [], (x :: t).
    + destruct (p x) eqn:Hx; [|discriminate].
      intro H. destruct (IH H) as (a & b & -> & Ha & Hb).
      exists (x :: a), b. simpl. now rewrite Hx, Ha.
Qed.

(** A non-greedy star runs to the end of a text of the class when the
    continuation rejects every non-empty rest. *)
Lemma m_lazystar_cls_end p a g k :
  forallb p a = true ->
  (forall a1 x a2, a = a1 ++ x :: a2 -> k (x :: a2) g = None) ->
  m ic len0 (LazyStar (Cls p)) a g k = k [] g.
Proof.
  induction a as [|x a IH]; intros Ha Hk; rewrite m_lazystar_cls.
  - now destruct (k [] g).
  - simpl in Ha. apply andb_true_iff in Ha as [Hx Ha].
    rewrite (Hk [] x a eq_refl). cbn [orelse]. rewrite Hx.
    apply IH; [assumption|].
    intros a1 y a2 E. apply (Hk (x :: a1) y a2). now rewrite E.
Qed.

Lemma m_alt r1 r2 s g k :
  m ic len0 (Alt r1 r2) s g k = orelse (m ic len0 r1 s g k) (fun _ => m ic len0 r2 s g k).
Proof. reflexivity. Qed.

(** [\s*$] at the end of a pattern: it succeeds, consuming everything,
    exactly on white space. *)
Lemma m_spaces_eol_all s g :
  forallb isspace s = true ->
  m ic len0 (Star ws) s g (fun s' g' => m ic len0 Eol s' g' accept) = Some ([], g).
Proof.
  intro H. rewrite <- (app_nil_r s). apply m_star_cls_first; [assumption|].
  reflexivity.
Qed.

Lemma m_spaces_eol_none s g k :
  forallb isspace s = false ->
  m ic len0 (Star ws) s g (fun s' g' => m ic len0 Eol s' g' k) = None.
Proof.
  unfold ws. induction s as [|x t IH]; [discriminate|].
  cbn [forallb]. intro H. rewrite m_star_cls. destruct (isspace x) eqn:Hx.
  - cbn [andb] in H. rewrite (IH H). cbn [orelse]. rewrite m_eol.
    destruct t; [discriminate | reflexivity].
  - rewrite m_eol. destruct t; [|reflexivity].
    destruct (Ascii.eqb x "010") eqn:E; [|reflexivity].
    apply newline_is_space in E. congruence.
Qed.

Lemma m_spaces_eol s g :
  m ic len0 (Star ws) s g (fun s' g' => m ic len0 Eol s' g' accept) =
  if forallb isspace s then Some ([], g) else None.
Proof.
  destruct (forallb isspace s) eqn:E.
  - now apply m_spaces_eol_all.
  - now apply m_spaces_eol_none.
Qed.

(** A star straight before the end of the pattern takes its longest run. *)
Lemma m_star_cls_accept p s g :
  m ic len0 (Star (Cls p)) s g accept = Some (dropwhile p s, g).
Proof.
  induction s as [|x t IH]; rewrite m_star_cls; [reflexivity|].
  cbn [dropwhile]. destruct (p x); [|reflexivity]. now rewrite IH.
Qed.

End Engine.

(** *** [sub] *)

Lemma sub_from_skip_all (ic : bool) len0 r t n :
  length t <= n -> sub_from ic len0 r n t = [].
Proof.
  revert n. induction t as [|c t IH]; intros n H; [reflexivity|].
  simpl in H. destruct n as [|n]; [lia|]. simpl. apply IH. lia.
Qed.

Lemma sub_from_skip (ic : bool) len0 r a b :
  sub_from ic len0 r (length a) (a ++ b) = sub_from ic len0 r 0 b.
Proof.
  induction a as [|c a IH]; [reflexivity|]. simpl. exact IH.
Qed.

(** *** [strip_tag] *)

Lemma lit_open_bracket x : lit_matches true "[" x = Ascii.eqb x "[".
Proof. each_char x. Qed.

Lemma lit_close_bracket x : lit_matches true "]" x = Ascii.eqb x "]".
Proof. each_char x. Qed.

Lemma space_not_open_bracket x : isspace x = true -> Ascii.eqb x "[" = false.
Proof. each_char x. Qed.

Lemma m_word len0 w s g k :
  m true len0 (Word w) s g k =
  match strip_prefix_ci w s with
  | Some s' => k s' g
  | None => None
  end.
Proof.
  revert s. induction w as [|a w IH]; intro s; [reflexivity|].
  cbn [Word]. rewrite m_seq, m_lit. destruct s as [|x s]; [reflexivity|].
  cbn [strip_prefix_ci lit_matches].
  destruct (Ascii.eqb (lower_char a) (lower_char x)); [apply IH | reflexivity].
Qed.

Lemma word_closes len0 w s g :
  m true len0 (Word w) s g
    (fun s' g' => m true len0 (Seq (Lit "]") (Seq (Star ws) Eol)) s' g' accept) =
  if closes_tag w s then Some ([], g) else None.
Proof.
  rewrite m_word. unfold closes_tag.
  destruct (strip_prefix_ci w s) as [[|c rest]|]; try reflexivity.
  rewrite m_seq, m_lit, lit_close_bracket.
  destruct (Ascii.eqb c "]"); [|reflexivity].
  rewrite m_seq. apply m_spaces_eol.
Qed.

(** [strip_tag] matches at the front of [s] exactly when [s] is
    [tagged], and then it consumes all of [s]. *)
Lemma strip_tag_match len0 s g :
  m true len0 strip_tag s g accept = if tagged s then Some ([], g) else None.
Proof.
  unfold strip_tag, tagged. cbn [seqs]. rewrite m_seq.
  destruct (dropwhile_split isspace s) as (a & E & Ha).
  rewrite E at 1. unfold ws at 1. rewrite m_star_cls_commit; [|assumption|].
  2:{ intros x t Hx. rewrite m_seq, m_lit, lit_open_bracket.
      now rewrite (space_not_open_bracket _ Hx). }
  rewrite m_star_cls_stop.
  2:{ destruct (dropwhile isspace s) eqn:E'; [exact I|].
      exact (dropwhile_head _ _ _ _ E'). }
  unfold lstrip. destruct (dropwhile isspace s) as [|c s2]; [reflexivity|].
  rewrite m_seq, m_lit, lit_open_bracket.
  destruct (Ascii.eqb c "["); [|reflexivity]. cbn [andb].
  rewrite m_seq, m_alt, m_alt. rewrite !word_closes.
  destruct (closes_tag (str "Bug") s2); [reflexivity|].
  destruct (closes_tag (str "Feature") s2); [reflexivity|].
  destruct (closes_tag (str "Other") s2); reflexivity.
Qed.

Lemma tagged_nil : tagged [] = false.
Proof. reflexivity. Qed.

Lemma strip_tag_sub_from len0 s :
  sub_from true len0 strip_tag 0 s = cut_tag s.
Proof.
  induction s as [|c t IH]; [reflexivity|].
  cbn [sub_from cut_tag]. rewrite strip_tag_match.
  destruct (tagged (c :: t)).
  - cbn [length]. rewrite Nat.sub_0_r. apply sub_from_skip_all. lia.
  - now rewrite IH.
Qed.

Lemma strip_tag_sub_cut s : strip_tag_sub s = cut_tag s.
Proof. apply strip_tag_sub_from. Qed.

End ReFacts.

(* ================================================================== *)
(** ** Facts about [section_re] *)

Module HeadingFacts.
Import PyStr Re llm_client Shapes PyStrFacts ReFacts.

Lemma m_bol ic len0 s g k :
  m ic len0 Bol s g k = if length s =? len0 then k s g else None.
Proof. reflexivity. Qed.

Lemma digit_not_dot x : isdigit x = true -> lit_matches false "." x = false.
Proof. each_char x. Qed.

Lemma firstn_app_len (a b : text) :
  firstn (length (a ++ b) - length b) (a ++ b) = a.
Proof.
  rewrite length_app, Nat.add_sub. rewrite firstn_app, Nat.sub_diag.
  rewrite firstn_all. simpl. apply app_nil_r.
Qed.

Lemma last_char_app_nonempty a b :
  b <> [] -> last_char (a ++ b) = last_char b.
Proof.
  intro H. unfold last_char. rewrite rev_app_distr.
  destruct (rev b) eqn:E; [|reflexivity].
  exfalso. apply H. rewrite <- (rev_involutive b), E. reflexivity.
Qed.

Lemma last_char_not_all_space s c :
  last_char s = Some c -> isspace c = false -> forallb isspace s = false.
Proof.
  intros H Hc. apply last_char_snoc in H as (s' & ->).
  rewrite forallb_app. simpl. rewrite Hc. now rewrite andb_false_r.
Qed.

Lemma lstrip_keeps_last s c :
  last_char s = Some c -> isspace c = false ->
  lstrip s <> [] /\ last_char (lstrip s) = Some c.
Proof.
  intros H Hc. destruct (dropwhile_split isspace s) as (a & E & Ha).
  fold (lstrip s) in E.
  assert (N : lstrip s <> []).
  { intro E0. rewrite E0, app_nil_r in E. subst a.
    rewrite (last_char_not_all_space _ _ H Hc) in Ha. discriminate. }
  split; [assumption|].
  rewrite E in H. now rewrite last_char_app_nonempty in H.
Qed.

(** [section_re] on a digit run, a period and a rest that does not end in
    white space: group 1 is the digit run, group 2 the rest without its
    leading white space. *)
Lemma section_re_match ds rest c :
  ds <> [] -> forallb isdigit ds = true ->
  last_char rest = Some c -> isspace c = false ->
  ~ In "010"%char rest ->
  re_match false section_re (ds ++ "."%char :: rest)
  = Some ([], [(2, lstrip rest); (1, ds)]).
Proof.
  intros Hne Hds Hlast Hc Hnl.
  destruct ds as [|d ds']; [congruence|]. clear Hne.
  simpl in Hds. apply andb_true_iff in Hds as [Hd Hds].
  unfold re_match, section_re. cbn [seqs].
  set (line := (d :: ds') ++ "."%char :: rest).
  rewrite m_seq, m_bol, Nat.eqb_refl.
  rewrite m_seq. unfold ws at 1. rewrite m_star_cls_stop
    by (subst line; simpl; now apply digit_not_space).
  rewrite m_seq, m_group. unfold Plus, digit. rewrite m_seq.
  subst line. rewrite <- app_comm_cons. rewrite m_cls, Hd.
  rewrite m_star_cls_commit; [|assumption|].
  2:{ intros x t Hx. rewrite m_seq, m_lit. now rewrite (digit_not_dot _ Hx). }
  rewrite m_star_cls_stop by reflexivity.
  rewrite m_seq, m_lit. cbn [lit_matches Ascii.eqb Bool.eqb andb].
  change (d :: ds' ++ "."%char :: rest) with ((d :: ds') ++ "."%char :: rest).
  rewrite firstn_app_len.
  generalize (length ((d :: ds') ++ "."%char :: rest)). intro n.
  rewrite m_seq.
  destruct (lstrip_keeps_last _ _ Hlast Hc) as [Hu Hulast].
  destruct (dropwhile_split isspace rest) as (a & E & Ha).
  fold (lstrip rest) in E.
  assert (Hunl : ~ In "010"%char (lstrip rest))
    by (intro H; apply Hnl; now apply dropwhile_In in H).
  rewrite E at 1. unfold ws at 1. apply m_star_cls_first; [assumption|].
  destruct (lstrip rest) as [|x u'] eqn:Eu; [congruence|].
  rewrite m_star_cls_stop by (exact (dropwhile_head _ _ _ _ Eu)).
  rewrite m_seq, m_group. unfold LazyPlus, dot. rewrite m_seq, m_cls.
  assert (Hdot : forallb (fun c0 => negb (Ascii.eqb c0 "010")) (x :: u') = true).
  { apply forallb_forall. intros y Hy. apply negb_true_iff.
    destruct (Ascii.eqb y "010") eqn:Ey; [|reflexivity].
    apply Ascii.eqb_eq in Ey. subst y. contradiction. }
  cbn [forallb] in Hdot. apply andb_true_iff in Hdot as [-> Hdot].
  rewrite m_lazystar_cls_end; [| assumption |].
  - rewrite m_seq. rewrite m_spaces_eol_all by reflexivity.
    cbn [length]. rewrite Nat.sub_0_r.
    change (S (length u')) with (length (x :: u')). now rewrite firstn_all.
  - intros a1 y a2 Eq. rewrite m_seq. apply m_spaces_eol_none.
    apply last_char_not_all_space with (c := c); [|assumption].
    rewrite <- Hulast, Eq.
    change (x :: a1 ++ y :: a2) with ((x :: a1) ++ y :: a2).
    symmetry. apply last_char_app_nonempty. discriminate.
Qed.

(** What a successful match of [section_re] says about the line. *)
Lemma section_re_match_inv line r :
  re_match false section_re line = Some r ->
  exists w ds rest,
    line = w ++ ds ++ "."%char :: rest /\ forallb isspace w = true /\
    ds <> [] /\ forallb isdigit ds = true /\ rest <> [].
Proof.
  unfold re_match, section_re. cbn [seqs].
  rewrite m_seq, m_bol, Nat.eqb_refl, m_seq. unfold ws at 1.
  intro H. apply m_star_cls_inv in H as (w & s1 & -> & Hw & H).
  rewrite m_seq, m_group in H. unfold Plus, digit in H.
  rewrite m_seq, m_cls in H.
  destruct s1 as [|d s1]; [discriminate|].
  destruct (isdigit d) eqn:Hd; [|discriminate].
  apply m_star_cls_inv in H as (ds' & s2 & -> & Hds & H).
  rewrite m_seq, m_lit in H.
  destruct s2 as [|p s3]; [discriminate|].
  destruct (lit_matches false "." p) eqn:Hp; [|discriminate].
  cbn [lit_matches] in Hp. apply Ascii.eqb_eq in Hp. subst p.
  rewrite m_seq in H. unfold ws at 1 in H.
  apply m_star_cls_inv in H as (w3 & s4 & -> & Hw3 & H).
  rewrite m_seq, m_group in H. unfold LazyPlus, dot in H.
  rewrite m_seq, m_cls in H.
  destruct s4 as [|x s5]; [discriminate|].
  exists w, (d :: ds'), (w3 ++ x :: s5). repeat split.
  - assumption.
  - discriminate.
  - simpl. now rewrite Hd, Hds.
  - destruct w3; discriminate.
Qed.

End HeadingFacts.

(* ================================================================== *)
(** ** Facts about [strip_tag] *)

Module TagFacts.
Import PyStr Re llm_client Shapes PyStrFacts ReFacts HeadingFacts.

Lemma strip_prefix_ci_sound w s s' :
  strip_prefix_ci w s = Some s' ->
  exists pre, s = pre ++ s' /\ lower pre = lower w.
Proof.
  revert s. induction w as [|a w IH]; intros s H.
  - simpl in H. injection H as <-. now exists [].
  - destruct s as [|x s]; [discriminate|]. simpl in H.
    destruct (Ascii.eqb (lower_char a) (lower_char x)) eqn:E; [|discriminate].
    apply Ascii.eqb_eq in E. destruct (IH _ H) as (pre & -> & Hp).
    exists (x :: pre). simpl. now rewrite Hp, E.
Qed.

Lemma strip_prefix_ci_complete w pre s' :
  lower pre = lower w -> strip_prefix_ci w (pre ++ s') = Some s'.
Proof.
  revert pre. induction w as [|a w IH]; intros [|x pre] H; try discriminate.
  - reflexivity.
  - simpl in H. injection H as Hx Hp. simpl. rewrite Hx, Ascii.eqb_refl.
    now apply IH.
Qed.

Lemma closes_tag_sound w s :
  closes_tag w s = true ->
  exists t trail, s = t ++ "]"%char :: trail /\ lower t = lower w /\
                  forallb isspace trail = true.
Proof.
  unfold closes_tag. destruct (strip_prefix_ci w s) as [[|c rest]|] eqn:E;
    try discriminate.
  intro H. apply andb_true_iff in H as [Hc Hr]. apply Ascii.eqb_eq in Hc. subst c.
  destruct (strip_prefix_ci_sound _ _ _ E) as (pre & -> & Hp).
  now exists pre, rest.
Qed.

Lemma closes_tag_complete w t trail :
  lower t = lower w -> forallb isspace trail = true ->
  closes_tag w (t ++ "]"%char :: trail) = true.
Proof.
  intros Ht Hs. unfold closes_tag. rewrite (strip_prefix_ci_complete _ _ _ Ht).
  now rewrite Hs.
Qed.

Lemma is_tag_cases t :
  is_tag t = true <->
  lower t = lower (str "Bug") \/ lower t = lower (str "Feature")
  \/ lower t = lower (str "Other").
Proof.
  unfold is_tag. rewrite mem_In.
  change (lower (str "Bug")) with (str "bug").
  change (lower (str "Feature")) with (str "feature").
  change (lower (str "Other")) with (str "other").
  cbn [In]. split.
  - intros [H|[H|[H|[]]]]; auto.
  - intros [H|[H|H]]; auto.
Qed.

Lemma tagged_sound s :
  tagged s = true ->
  exists w t trail,
    s = w ++ "["%char :: t ++ "]"%char :: trail /\ forallb isspace w = true /\
    forallb isspace trail = true /\ is_tag t = true.
Proof.
  unfold tagged. destruct (dropwhile_split isspace s) as (w & E & Hw).
  unfold lstrip. destruct (dropwhile isspace s) as [|c s2]; [discriminate|].
  intro H. apply andb_true_iff in H as [Hc H]. apply Ascii.eqb_eq in Hc. subst c.
  assert (exists t trail, s2 = t ++ "]"%char :: trail /\ is_tag t = true /\
                          forallb isspace trail = true) as (t & trail & -> & Ht & Hs).
  { apply orb_true_iff in H as [H|H]; [apply orb_true_iff in H as [H|H]|];
      apply closes_tag_sound in H as (t & trail & -> & Ht & Hs);
      exists t, trail; rewrite is_tag_cases; tauto. }
  now exists w, t, trail.
Qed.

Lemma tagged_complete w t trail :
  forallb isspace w = true -> is_tag t = true -> forallb isspace trail = true ->
  tagged (w ++ "["%char :: t ++ "]"%char :: trail) = true.
Proof.
  intros Hw Ht Hs. unfold tagged, lstrip.
  rewrite dropwhile_app_all by assumption.
  rewrite dropwhile_stop by reflexivity. rewrite Ascii.eqb_refl. cbn [andb].
  apply is_tag_cases in Ht as [Ht|[Ht|Ht]];
    rewrite (closes_tag_complete _ _ _ Ht Hs); now rewrite ?orb_true_r.
Qed.

Lemma is_tag_no_bracket t : is_tag t = true -> ~ In "["%char t.
Proof.
  intros Ht Hin.
  assert (H : In "["%char (lower t)).
  { change "["%char with (lower_char "["). unfold lower. now apply in_map. }
  apply is_tag_cases in Ht as [Ht|[Ht|Ht]]; rewrite Ht in H; simpl in H;
    intuition discriminate.
Qed.

Lemma split_at_last (x : ascii) a b t t' :
  ~ In x t -> ~ In x t' -> a ++ x :: t = b ++ x :: t' -> a = b /\ t = t'.
Proof.
  intros Ht Ht'. revert b. induction a as [|y a IH]; intros [|z b] E; simpl in E.
  - injection E as E. now split.
  - injection E as -> E. exfalso. apply Ht. rewrite E. apply in_elt.
  - injection E as <- E. exfalso. apply Ht'. rewrite <- E. apply in_elt.
  - injection E as -> E. destruct (IH _ E) as [-> ->]. now split.
Qed.

(** No tag match can start inside a text that ends before the white
    space in front of the final tag. *)
Lemma tagged_inside u c w tag :
  last_char u = Some c -> isspace c = false ->
  forallb isspace w = true -> is_tag tag = true ->
  tagged (u ++ w ++ "["%char :: tag ++ ["]"%char]) = false.
Proof.
  intros Hu Hc Hw Htag.
  destruct (tagged (u ++ w ++ "["%char :: tag ++ ["]"%char])) eqn:T; [|reflexivity].
  exfalso. apply tagged_sound in T as (w1 & t & trail & E & Hw1 & Htrail & Ht).
  assert (trail = []) as ->.
  { destruct trail as [|y trail]; [reflexivity|]. exfalso.
    assert (L : last_char (u ++ w ++ "["%char :: tag ++ ["]"%char]) = Some "]"%char).
    { rewrite !app_assoc. rewrite app_comm_cons, app_assoc. apply last_char_app. }
    rewrite E in L.
    assert (L' : exists z, last_char (w1 ++ "["%char :: t ++ "]"%char :: y :: trail)
                           = Some z /\ isspace z = true).
    { destruct (last_char (y :: trail)) as [z|] eqn:Lz.
      - exists z. split.
        + rewrite app_comm_cons, app_assoc.
          replace ((w1 ++ "["%char :: t) ++ "]"%char :: y :: trail)
            with (((w1 ++ "["%char :: t) ++ ["]"%char]) ++ y :: trail)
            by (now rewrite <- app_assoc).
          rewrite last_char_app_nonempty by discriminate. exact Lz.
        + apply last_char_snoc in Lz as (s' & Es).
          rewrite Es in Htrail. rewrite forallb_app in Htrail.
          apply andb_true_iff in Htrail as [_ Hz]. simpl in Hz.
          now rewrite andb_true_r in Hz.
      - unfold last_char in Lz. simpl in Lz.
        destruct (rev trail); discriminate. }
    destruct L' as (z & Lz & Hz). rewrite Lz in L. injection L as ->.
    discriminate. }
  assert (E' : (u ++ w) ++ "["%char :: tag = w1 ++ "["%char :: t).
  { apply (app_inv_tail ["]"%char]). rewrite <- !app_assoc. simpl. exact E. }
  apply split_at_last in E' as [E1 _];
    [| now apply is_tag_no_bracket | now apply is_tag_no_bracket].
  apply last_char_snoc in Hu as (u' & ->).
  assert (In c w1) by (rewrite <- E1, <- !app_assoc; apply in_elt).
  rewrite forallb_forall in Hw1. rewrite (Hw1 c H) in Hc. discriminate.
Qed.

Lemma cut_tag_final b0 w tag :
  (b0 = [] \/ exists c, last_char b0 = Some c /\ isspace c = false) ->
  forallb isspace w = true -> is_tag tag = true ->
  cut_tag (b0 ++ w ++ "["%char :: tag ++ ["]"%char]) = b0.
Proof.
  intros Hb Hw Ht. induction b0 as [|x b0 IH].
  - simpl. destruct w as [|y w]; simpl.
    + change ("["%char :: tag ++ ["]"%char]) with ([] ++ "["%char :: tag ++ ["]"%char]).
      now rewrite tagged_complete.
    + change (y :: w ++ "["%char :: tag ++ ["]"%char])
        with ((y :: w) ++ "["%char :: tag ++ ["]"%char]).
      now rewrite tagged_complete.
  - destruct Hb as [Hb | (c & Hl & Hc)]; [discriminate|].
    pose proof (tagged_inside _ _ _ _ Hl Hc Hw Ht) as T.
    cbn [app cut_tag] in *. rewrite T. f_equal. apply IH.
    destruct b0 as [|y b0]; [now left|]. right. exists c. split; [|assumption].
    rewrite <- Hl. symmetry.
    change (x :: y :: b0) with ([x] ++ y :: b0).
    apply last_char_app_nonempty. discriminate.
Qed.

(** A trailing [[Bug]], [[Feature]] or [[Other]], in any case, is removed
    together with the white space in front of it. *)
Lemma strip_tag_sub_tag base tag :
  is_tag tag = true ->
  strip_tag_sub (base ++ "["%char :: tag ++ ["]"%char]) = rstrip base.
Proof.
  intro Ht. rewrite strip_tag_sub_cut.
  destruct (rstrip_split base) as (w & E & Hw).
  rewrite E at 1. rewrite <- app_assoc.
  apply cut_tag_final; [|assumption|assumption].
  destruct (rstrip_last base) as [H | H]; [now left | now right].
Qed.

(** Whatever [strip_tag.sub] removes is one of the three tags with the
    white space around it. *)
Lemma strip_tag_sub_only g :
  strip_tag_sub g = g \/
  exists base w t trail,
    g = base ++ w ++ "["%char :: t ++ "]"%char :: trail /\
    forallb isspace w = true /\ forallb isspace trail = true /\
    is_tag t = true /\ strip_tag_sub g = base.
Proof.
  rewrite strip_tag_sub_cut. induction g as [|c g IH]; [now left|].
  cbn [cut_tag]. destruct (tagged (c :: g)) eqn:T.
  - right. apply tagged_sound in T as (w & t & trail & E & Hw & Hs & Ht).
    exists [], w, t, trail. now rewrite E.
  - destruct IH as [IH | (base & w & t & trail & E & Hw & Hs & Ht & IH)].
    + left. now rewrite IH.
    + right. exists (c :: base), w, t, trail. rewrite IH, E. now repeat split.
Qed.

End TagFacts.

(* ================================================================== *)
(** ** Facts about the story parser, the de-duplication and the cap *)

Module StoryFacts.
Import PyStr Re llm_client Shapes PyStrFacts ReFacts HeadingFacts.

Lemma sub_from_bol_id len0 r d :
  length d < len0 -> sub_from false len0 (Seq Bol r) 0 d = d.
Proof.
  induction d as [|x d IH]; intro H; [reflexivity|].
  cbn [sub_from]. rewrite m_seq, m_bol.
  replace (length (x :: d) =? len0) with false
    by (symmetry; apply Nat.eqb_neq; lia).
  f_equal. apply IH. simpl in H. lia.
Qed.

Lemma dropwhile_length p s : length (dropwhile p s) <= length s.
Proof.
  induction s as [|x s IH]; simpl; [lia|]. destruct (p x); simpl; lia.
Qed.

(** [marker_sub] removes the leading run of list-marker characters, and
    nothing else. *)
Lemma marker_sub_dropwhile s : marker_sub s = dropwhile marker_class s.
Proof.
  unfold marker_sub, re_sub_empty. destruct s as [|c t]; [reflexivity|].
  cbn [sub_from]. unfold marker_re. cbn [seqs].
  rewrite m_seq, m_bol, Nat.eqb_refl. unfold Plus. rewrite m_seq, m_cls.
  cbn [dropwhile]. destruct (marker_class c).
  - rewrite m_star_cls_accept.
    destruct (dropwhile_split marker_class t) as (a & E & Ha).
    pose proof (dropwhile_length marker_class t) as L.
    cbn [length]. rewrite Nat.sub_succ_l by assumption.
    remember (dropwhile marker_class t) as d eqn:Ed. clear Ed. subst t.
    replace (length (a ++ d) - length d) with (length a)
      by (rewrite length_app; lia).
    rewrite sub_from_skip. apply sub_from_bol_id. rewrite length_app. lia.
  - f_equal. apply sub_from_bol_id. simpl. lia.
Qed.

Lemma flat_map_story lines :
  flat_map story_of_line lines =
  map (fun ln => firstn 280 (collapse (dropwhile marker_class ln)))
      (filter (fun ln => conforms (dropwhile marker_class ln)) lines).
Proof.
  induction lines as [|ln lines IH]; [reflexivity|].
  cbn [flat_map filter]. unfold story_of_line at 1.
  rewrite marker_sub_dropwhile. fold (conforms (dropwhile marker_class ln)).
  destruct (conforms (dropwhile marker_class ln)); simpl; now rewrite IH.
Qed.

(** *** De-duplication *)

Lemma dedup_from_firsts l : forall seen out past,
  (forall k, In k seen <-> In k (map lower past)) ->
  dedup_from seen out l = out ++ firsts past l.
Proof.
  induction l as [|r rest IH]; intros seen out past Inv.
  - simpl. now rewrite app_nil_r.
  - cbn [dedup_from firsts].
    assert (E : mem (lower r) seen = mem (lower r) (map lower past)).
    { destruct (mem (lower r) (map lower past)) eqn:M.
      - apply mem_In. apply Inv. now apply mem_In.
      - apply mem_not_In. intro H. apply Inv in H. apply mem_In in H. congruence. }
    rewrite E. destruct (mem (lower r) (map lower past)) eqn:M.
    + apply IH. intro k. rewrite map_app, in_app_iff, Inv. simpl.
      apply mem_In in M. intuition (subst; assumption).
    + rewrite (IH (lower r :: seen) (out ++ [r]) (past ++ [r])).
      * now rewrite <- app_assoc.
      * intro k. rewrite map_app, in_app_iff. simpl. rewrite Inv. tauto.
Qed.

Lemma dedup_firsts l : dedup l = firsts [] l.
Proof. unfold dedup. now rewrite (dedup_from_firsts l [] [] []). Qed.

Lemma firsts_keys_fresh l : forall past r,
  In r (firsts past l) -> ~ In (lower r) (map lower past).
Proof.
  induction l as [|x rest IH]; intros past r; [contradiction|].
  cbn [firsts]. destruct (mem (lower x) (map lower past)) eqn:M.
  - intro H. apply IH in H. rewrite map_app, in_app_iff in H. tauto.
  - intros [<- | H].
    + now apply mem_not_In.
    + apply IH in H. rewrite map_app, in_app_iff in H. tauto.
Qed.

Lemma firsts_nodup l : forall past, NoDup (map lower (firsts past l)).
Proof.
  induction l as [|x rest IH]; intro past; [constructor|].
  cbn [firsts]. destruct (mem (lower x) (map lower past)); [apply IH|].
  cbn [map]. constructor; [|apply IH].
  intro H. apply in_map_iff in H as (r & E & H).
  apply firsts_keys_fresh in H. apply H. rewrite E, map_app, in_app_iff.
  right. now left.
Qed.

Lemma dedup_nodup l : NoDup (map lower (dedup l)).
Proof. rewrite dedup_firsts. apply firsts_nodup. Qed.

(** *** The cap *)

Lemma dedup_from_prefix l : forall seen out,
  exists more, dedup_from seen out l = out ++ more.
Proof.
  induction l as [|r rest IH]; intros seen out.
  - exists []. simpl. now rewrite app_nil_r.
  - cbn [dedup_from]. destruct (mem (lower r) seen); [apply IH|].
    destruct (IH (lower r :: seen) (out ++ [r])) as (more & ->).
    exists (r :: more). now rewrite <- app_assoc.
Qed.

Lemma cap_from_firstn cap l : forall seen out,
  (Z.of_nat (length out) < cap)%Z ->
  cap_from cap seen out l = firstn (Z.to_nat cap) (dedup_from seen out l).
Proof.
  induction l as [|s rest IH]; intros seen out H.
  - simpl. rewrite firstn_all2; [reflexivity | lia].
  - cbn [cap_from dedup_from]. destruct (mem (lower s) seen).
    + replace (Z.of_nat (length out) >=? cap)%Z with false
        by (symmetry; rewrite Z.geb_leb; apply Z.leb_gt; lia).
      now apply IH.
    + destruct (Z.of_nat (length (out ++ [s])) >=? cap)%Z eqn:G.
      * rewrite Z.geb_leb in G. apply Z.leb_le in G.
        rewrite length_app in G. simpl in G.
        destruct (dedup_from_prefix rest (lower s :: seen) (out ++ [s]))
          as (more & ->).
        replace (Z.to_nat cap) with (length (out ++ [s]) + 0)
          by (rewrite length_app; simpl; lia).
        rewrite firstn_app_2. simpl. now rewrite app_nil_r.
      * apply IH. rewrite Z.geb_leb in G. apply Z.leb_gt in G. exact G.
Qed.

(** With a cap of at least one, the loop returns the first [max_stories]
    entries of the de-duplicated list. *)
Lemma dedup_cap_firstn cap stories :
  (1 <= cap)%Z ->
  dedup_cap cap stories = firstn (Z.to_nat cap) (dedup stories).
Proof.
  intro H. unfold dedup_cap, dedup. apply cap_from_firstn. simpl. lia.
Qed.

Lemma dedup_cap_length cap stories :
  (1 <= cap)%Z -> (Z.of_nat (length (dedup_cap cap stories)) <= cap)%Z.
Proof.
  intro H. rewrite dedup_cap_firstn by assumption.
  pose proof (firstn_le_length (Z.to_nat cap) (dedup stories)).
  rewrite length_firstn. lia.
Qed.

Lemma firsts_distinct l : forall past,
  NoDup (map lower (past ++ l)) -> firsts past l = l.
Proof.
  induction l as [|x rest IH]; intros past H; [reflexivity|].
  cbn [firsts].
  assert (M : mem (lower x) (map lower past) = false).
  { apply mem_not_In. rewrite map_app in H. simpl in H.
    apply NoDup_remove_2 in H. intro Hin. apply H. apply in_app_iff. now left. }
  rewrite M. f_equal. apply IH. now rewrite <- app_assoc.
Qed.

(** With a cap of zero or less, the loop returns the first story. *)
Lemma dedup_cap_nonpositive cap s rest :
  (cap <= 0)%Z -> dedup_cap cap (s :: rest) = [s].
Proof.
  intro H. unfold dedup_cap. cbn [cap_from mem existsb app length].
  replace (Z.of_nat 1 >=? cap)%Z with true; [reflexivity|].
  symmetry. rewrite Z.geb_leb. apply Z.leb_le. lia.
Qed.

(** Sixty lines, distinct up to case, and a cap of fifty: the first
    fifty come back, in order. *)
Lemma dedup_cap_sixty stories :
  length stories = 60 -> NoDup (map lower stories) ->
  dedup_cap 50 stories = firstn 50 stories.
Proof.
  intros L D. rewrite dedup_cap_firstn by lia.
  rewrite dedup_firsts, firsts_distinct by assumption. reflexivity.
Qed.

End StoryFacts.

(* ================================================================== *)
(** ** Facts about lines, bullets and white space *)

Module LineFacts.
Import PyStr Re llm_client Shapes PyStrFacts ReFacts HeadingFacts TagFacts StoryFacts.

Lemma linebreak_newline c : Ascii.eqb c "010" = true -> is_linebreak c = true.
Proof. each_char c. Qed.

Lemma cr_not_newline c : Ascii.eqb c "013" = true -> Ascii.eqb c "010" = false.
Proof. each_char c. Qed.

Lemma splitlines_from_no_newline n : forall s cur raw,
  length s <= n -> ~ In "010"%char cur ->
  In raw (splitlines_from cur s) -> ~ In "010"%char raw.
Proof.
  induction n as [|n IH]; intros s cur raw L Hcur H.
  - destruct s; [|simpl in L; lia]. simpl in H.
    destruct cur; [contradiction|]. destruct H as [<- | []].
    intro Hin. apply Hcur. now apply in_rev.
  - destruct s as [|c t].
    + simpl in H. destruct cur; [contradiction|]. destruct H as [<- | []].
      intro Hin. apply Hcur. now apply in_rev.
    + simpl in L. cbn [splitlines_from] in H.
      assert (Hrev : ~ In "010"%char (rev cur))
        by (intro Hin; apply Hcur; now apply in_rev).
      destruct (Ascii.eqb c "013") eqn:Ecr.
      * destruct t as [|c' t'].
        -- destruct H as [<- | H]; [assumption|]. simpl in H. contradiction.
        -- destruct (Ascii.eqb c' "010").
           ++ destruct H as [<- | H]; [assumption|].
              apply (IH t' [] raw); [simpl in L; lia | tauto | assumption].
           ++ destruct H as [<- | H]; [assumption|].
              apply (IH (c' :: t') [] raw); [lia | tauto | assumption].
      * destruct (is_linebreak c) eqn:Elb.
        -- destruct H as [<- | H]; [assumption|].
           apply (IH t [] raw); [lia | tauto | assumption].
        -- apply (IH t (c :: cur) raw); [lia | | assumption].
           intros [-> | Hin]; [|now apply Hcur].
           discriminate Elb.
Qed.

(** No line of [splitlines] holds a line feed. *)
Lemma splitlines_no_newline s raw :
  In raw (splitlines s) -> ~ In "010"%char raw.
Proof.
  apply (splitlines_from_no_newline (length s) s []); [lia | tauto].
Qed.

(** *** The ends of a trimmed text *)

Lemma strip_head s c t : strip s = c :: t -> isspace c = false.
Proof.
  unfold strip, lstrip. destruct (dropwhile isspace s) as [|d u] eqn:E.
  - discriminate.
  - pose proof (dropwhile_head _ _ _ _ E) as Hd.
    rewrite rstrip_cons_keep by assumption. intro H. now injection H as <- _.
Qed.

Lemma strip_last s :
  strip s = [] \/ exists c, last_char (strip s) = Some c /\ isspace c = false.
Proof. unfold strip. apply rstrip_last. Qed.

Lemma last_char_tail a x b c :
  last_char (a ++ x :: b) = Some c -> b <> [] -> last_char b = Some c.
Proof.
  intros H Hb. change (a ++ x :: b) with (a ++ [x] ++ b) in H.
  rewrite app_assoc in H. now rewrite last_char_app_nonempty in H.
Qed.

(** *** [split] ignores the white space at the ends *)

Lemma split_from_spaces w cur :
  forallb isspace w = true ->
  split_from cur w = match cur with [] => [] | _ :: _ => [rev cur] end.
Proof.
  revert cur. induction w as [|c w IH]; intros cur H; [reflexivity|].
  simpl in H. apply andb_true_iff in H as [Hc Hw].
  cbn [split_from]. rewrite Hc. destruct cur as [|x cur]; rewrite (IH [] Hw);
    reflexivity.
Qed.

Lemma split_from_app_spaces s w : forall cur,
  forallb isspace w = true -> split_from cur (s ++ w) = split_from cur s.
Proof.
  induction s as [|c s IH]; intros cur H.
  - simpl. now apply split_from_spaces.
  - cbn [app split_from]. destruct (isspace c).
    + destruct cur; now rewrite IH.
    + now apply IH.
Qed.

Lemma split_lstrip s : split (lstrip s) = split s.
Proof.
  unfold split, lstrip. induction s as [|c s IH]; [reflexivity|].
  destruct (isspace c) eqn:Hc.
  - cbn [dropwhile split_from]. rewrite Hc. exact IH.
  - cbn [dropwhile]. now rewrite Hc.
Qed.

Lemma split_rstrip s : split (rstrip s) = split s.
Proof.
  destruct (rstrip_split s) as (w & E & Hw). rewrite E at 2.
  unfold split. now rewrite split_from_app_spaces.
Qed.

Lemma collapse_strip s : collapse (strip s) = collapse s.
Proof. unfold collapse, strip. now rewrite split_rstrip, split_lstrip. Qed.

Lemma collapse_rstrip s : collapse (rstrip s) = collapse s.
Proof. unfold collapse. now rewrite split_rstrip. Qed.

(** *** [bullet_re] *)

Lemma m_star_cls_back_one ic len0 p a y g k r :
  forallb p a = true -> p y = true ->
  k [] g = None -> k [y] g = Some r ->
  m ic len0 (Star (Cls p)) (a ++ [y]) g k = Some r.
Proof.
  intros Ha Hy K0 K1. induction a as [|x a IH].
  - cbn [app]. rewrite m_star_cls, Hy, m_star_cls, K0. exact K1.
  - simpl in Ha. apply andb_true_iff in Ha as [Hx Ha].
    rewrite <- app_comm_cons, m_star_cls, Hx, (IH Ha). reflexivity.
Qed.

Lemma dash_not_space : isspace "-" = false.
Proof. reflexivity. Qed.

(** [bullet_re] on a dash, white space and a text that starts and ends
    with a character that is not white space: group 1 is the text. *)
Lemma bullet_re_match w u c :
  w <> [] -> forallb isspace w = true ->
  lstrip u = u -> last_char u = Some c -> isspace c = false ->
  ~ In "010"%char u ->
  re_match false bullet_re ("-"%char :: w ++ u) = Some ([], [(1, u)]).
Proof.
  intros Hw Hws Hu Hl Hc Hnl.
  destruct w as [|x w]; [congruence|]. clear Hw.
  simpl in Hws. apply andb_true_iff in Hws as [Hx Hws].
  unfold re_match, bullet_re. cbn [seqs].
  rewrite m_seq, m_bol, Nat.eqb_refl.
  generalize (length ("-"%char :: (x :: w) ++ u)). intro n.
  rewrite m_seq. unfold ws at 1. rewrite m_star_cls_stop by reflexivity.
  rewrite m_seq, m_lit. cbn [lit_matches Ascii.eqb Bool.eqb andb].
  rewrite m_seq. unfold Plus, ws at 1. rewrite m_seq.
  rewrite <- app_comm_cons, m_cls, Hx.
  unfold ws at 1. apply m_star_cls_first; [assumption|].
  apply last_char_snoc in Hl as Hs. destruct Hs as (u' & ->).
  assert (Hhead : match u' ++ [c] with [] => True | y :: _ => isspace y = false end).
  { unfold lstrip in Hu. destruct (u' ++ [c]) as [|y t] eqn:E; [exact I|].
    destruct (isspace y) eqn:Hy; [|reflexivity]. exfalso.
    cbn [dropwhile] in Hu. rewrite Hy in Hu.
    pose proof (dropwhile_length isspace t) as L. rewrite Hu in L.
    simpl in L. lia. }
  rewrite m_star_cls_stop by exact Hhead.
  rewrite m_seq, m_group, m_seq. unfold dot.
  assert (Hdot : forallb (fun c0 => negb (Ascii.eqb c0 "010")) (u' ++ [c]) = true).
  { apply forallb_forall. intros y Hy. apply negb_true_iff.
    destruct (Ascii.eqb y "010") eqn:Ey; [|reflexivity].
    apply Ascii.eqb_eq in Ey. subst y. contradiction. }
  rewrite forallb_app in Hdot. apply andb_true_iff in Hdot as [Hd1 Hd2].
  simpl in Hd2. rewrite andb_true_r in Hd2.
  apply m_star_cls_back_one; [assumption | assumption | reflexivity |].
  unfold nonws. rewrite m_cls, Hc. cbn [negb].
  rewrite m_seq. rewrite m_spaces_eol_all by reflexivity.
  cbn [length]. rewrite Nat.sub_0_r. now rewrite firstn_all.
Qed.

Lemma dash_line_no_heading t : heading_of ("-"%char :: t) = None.
Proof.
  unfold heading_of.
  destruct (re_match false section_re ("-"%char :: t)) as [[s' g]|] eqn:E;
    [|reflexivity].
  exfalso. apply section_re_match_inv in E
    as (w & ds & rest & E & Hw & Hne & Hds & _).
  destruct w as [|x w].
  - destruct ds as [|d ds]; [congruence|]. simpl in E. injection E as <- _.
    discriminate.
  - simpl in E. injection E as <- _. discriminate.
Qed.

Lemma is_tag_no_newline t : is_tag t = true -> ~ In "010"%char t.
Proof.
  intros Ht Hin.
  assert (H : In "010"%char (lower t)).
  { change "010"%char with (lower_char "010"). unfold lower. now apply in_map. }
  apply is_tag_cases in Ht as [Ht|[Ht|Ht]]; rewrite Ht in H; simpl in H;
    intuition discriminate.
Qed.

End LineFacts.

(* ================================================================== *)
(** ** The requirement extractor *)

Module ExtractorSpec.
Import PyStr Re llm_client Shapes PyStrFacts ReFacts HeadingFacts TagFacts StoryFacts LineFacts.

Lemma strip_fix d s c :
  isspace d = false -> last_char (d :: s) = Some c -> isspace c = false ->
  strip (d :: s) = d :: s.
Proof.
  intros Hd Hl Hc. unfold strip, lstrip. rewrite dropwhile_stop by assumption.
  exact (rstrip_fix _ _ Hl Hc).
Qed.

Lemma lstrip_fix_head s :
  lstrip s = s -> match s with [] => True | y :: _ => isspace y = false end.
Proof.
  unfold lstrip. destruct s as [|y t]; [trivial|]. intro H.
  destruct (isspace y) eqn:Hy; [|reflexivity]. exfalso.
  cbn [dropwhile] in H. rewrite Hy in H.
  pose proof (dropwhile_length isspace t) as L. rewrite H in L. simpl in L. lia.
Qed.

(** What the scan does with a line whose trimmed form is a run of
    digits, a period and a non-empty rest. *)
Lemma scan_line_heading current_section reqs raw ds rest :
  ~ In "010"%char raw ->
  strip raw = ds ++ "."%char :: rest ->
  ds <> [] -> forallb isdigit ds = true -> rest <> [] ->
  scan_line (current_section, reqs) raw = (Some (lower (strip rest)), reqs).
Proof.
  intros Hnl E Hne Hds Hrest.
  assert (Hl : exists c, last_char rest = Some c /\ isspace c = false).
  { destruct (strip_last raw) as [E0 | (c & Hl & Hc)].
    - rewrite E in E0. destruct ds; discriminate.
    - exists c. split; [|assumption]. rewrite E in Hl.
      exact (last_char_tail _ _ _ _ Hl Hrest). }
  destruct Hl as (c & Hl & Hc).
  assert (Hnl' : ~ In "010"%char rest).
  { intro H. apply Hnl. apply strip_In. rewrite E. apply in_or_app. right.
    now right. }
  unfold scan_line. rewrite E.
  replace (is_empty (ds ++ "."%char :: rest)) with false
    by (destruct ds; [congruence | reflexivity]).
  unfold heading_of. rewrite (section_re_match _ _ _ Hne Hds Hl Hc Hnl').
  cbn [group Nat.eqb]. now rewrite strip_lstrip.
Qed.

(** Only such a line moves the current section. *)
Lemma scan_line_section_moves current_section reqs raw :
  fst (scan_line (current_section, reqs) raw) <> current_section ->
  exists ds rest,
    strip raw = ds ++ "."%char :: rest /\ ds <> [] /\
    forallb isdigit ds = true /\ rest <> [].
Proof.
  unfold scan_line. destruct (is_empty (strip raw)); [simpl; congruence|].
  unfold heading_of.
  destruct (re_match false section_re (strip raw)) as [[s' g]|] eqn:E.
  - intros _. apply section_re_match_inv in E
      as (w & ds & rest & E & Hw & Hne & Hds & Hrest).
    destruct w as [|x w]; [now exists ds, rest|]. exfalso.
    simpl in Hw. apply andb_true_iff in Hw as [Hx _].
    rewrite (strip_head _ _ _ E) in Hx. discriminate.
  - destruct (in_functional current_section); [|simpl; congruence].
    destruct (bullet_item (strip raw)) as [item|]; [|simpl; congruence].
    destruct (is_empty item); simpl; congruence.
Qed.

(** C1 (amended).  The primary scan moves the current section only at a
    line whose trimmed form is a run of digits, a period and at least one
    more character.  It does so at every such line of the document,
    whatever follows the period: the current section becomes the text
    after the period, trimmed and in lower case, and no requirement is
    added.  A multi-level line such as [1.1 Foo] has this form and moves
    the current section to [1 foo]. *)
Theorem heading_shape :
  (forall current_section reqs raw,
      fst (scan_line (current_section, reqs) raw) <> current_section ->
      exists ds rest,
        strip raw = ds ++ "."%char :: rest /\ ds <> [] /\
        forallb isdigit ds = true /\ rest <> []) /\
  (forall current_section reqs raw ds rest,
      ~ In "010"%char raw ->
      strip raw = ds ++ "."%char :: rest ->
      ds <> [] -> forallb isdigit ds = true -> rest <> [] ->
      scan_line (current_section, reqs) raw = (Some (lower (strip rest)), reqs)) /\
  (forall NFKC srs_text raw,
      In raw (splitlines (normalize_srs NFKC srs_text)) -> ~ In "010"%char raw).
Proof.
  split; [exact scan_line_section_moves|].
  split; [exact scan_line_heading|].
  intros NFKC srs_text raw. apply splitlines_no_newline.
Qed.

Lemma heading_shape_witness :
  (exists ds rest,
      strip (str " 1.1 Foo") = ds ++ "."%char :: rest /\ ds <> [] /\
      forallb isdigit ds = true /\ rest <> []) /\
  scan_line (Some (str "functional requirements"), []) (str " 1.1 Foo")
  = (Some (lower (strip (str "1 Foo"))), []).
Proof.
  split.
  - apply (proj1 heading_shape (Some (str "functional requirements")) []).
    vm_compute. discriminate.
  - apply (proj1 (proj2 heading_shape)) with (ds := str "1").
    + simpl. intuition discriminate.
    + reflexivity.
    + discriminate.
    + reflexivity.
    + discriminate.
Defined.

(** C1, as stated, fails: inside the Functional Requirements section the
    line [1.1 Foo] is taken for a heading and moves the current section to
    [1 foo], so the bullet after it is not captured and the fallback scan
    answers instead. *)
Lemma multilevel_line_sets_section :
  scan_line (Some (str "functional requirements"), []) (str "1.1 Foo")
  = (Some (str "1 foo"), []) /\
  extract_requirement_lines nfkc_alphabet
    (fr_heading ++ nl ++ str "1.1 Foo" ++ nl ++ str "- Add login")
  = [str "Foo"].
Proof. split; vm_compute; reflexivity. Qed.

(** What the scan does, inside a section whose name holds [functional
    requirements], with a bullet that ends in one of the three tags. *)
Lemma scan_line_tagged_bullet sec reqs w base tag :
  in_functional (Some sec) = true ->
  w <> [] -> forallb isspace w = true ->
  lstrip base = base -> ~ In "010"%char base ->
  is_tag tag = true ->
  scan_line (Some sec, reqs) ("-"%char :: w ++ base ++ "["%char :: tag ++ ["]"%char])
  = (Some sec, if is_empty (collapse base) then reqs else reqs ++ [collapse base]).
Proof.
  intros Hsec Hw Hws Hbase Hnl Htag.
  set (u := base ++ "["%char :: tag ++ ["]"%char]).
  assert (Hul : last_char u = Some "]"%char).
  { unfold u. rewrite app_comm_cons, app_assoc. apply last_char_app. }
  assert (Hline : strip ("-"%char :: w ++ u) = "-"%char :: w ++ u).
  { apply strip_fix with (c := "]"%char); [reflexivity | | reflexivity].
    apply last_char_cons. now apply last_char_app_r. }
  assert (Hu : lstrip u = u).
  { unfold u, lstrip. apply lstrip_fix_head in Hbase.
    destruct base as [|y base]; [reflexivity|].
    cbn [app dropwhile]. now rewrite Hbase. }
  assert (Hunl : ~ In "010"%char u).
  { unfold u. intro H. apply in_app_or in H as [H | [H | H]].
    - contradiction.
    - discriminate.
    - apply in_app_or in H as [H | [H | []]].
      + exact (is_tag_no_newline _ Htag H).
      + discriminate. }
  unfold scan_line. rewrite Hline. cbn [is_empty].
  rewrite dash_line_no_heading, Hsec.
  unfold bullet_item.
  rewrite (bullet_re_match w u "]" Hw Hws Hu Hul eq_refl Hunl).
  cbn [group Nat.eqb]. unfold u at 1 2.
  rewrite (strip_tag_sub_tag base tag Htag).
  rewrite collapse_strip, collapse_rstrip.
  now destruct (is_empty (collapse base)).
Qed.

(** C2 (amended).  From a bullet captured inside a Functional
    Requirements section the extractor removes a trailing bracketed tag,
    with the white space in front of it, exactly when the tag is [Bug],
    [Feature] or [Other], in any case; what is left is collapsed and
    appended when it is not empty.  [strip_tag.sub] removes nothing else:
    any other bracketed tag stays.  So [- Add login [FEATURE]] gives
    [Add login], and [- Add login [NFR]] keeps its tag. *)
Theorem strip_tag_fixed_set :
  (forall sec reqs w base tag,
      in_functional (Some sec) = true ->
      w <> [] -> forallb isspace w = true ->
      lstrip base = base -> ~ In "010"%char base ->
      is_tag tag = true ->
      scan_line (Some sec, reqs)
        ("-"%char :: w ++ base ++ "["%char :: tag ++ ["]"%char])
      = (Some sec, if is_empty (collapse base) then reqs else reqs ++ [collapse base])) /\
  (forall base tag,
      is_tag tag = true ->
      strip_tag_sub (base ++ "["%char :: tag ++ ["]"%char]) = rstrip base) /\
  (forall captured,
      strip_tag_sub captured = captured \/
      exists base w tag trail,
        captured = base ++ w ++ "["%char :: tag ++ "]"%char :: trail /\
        forallb isspace w = true /\ forallb isspace trail = true /\
        is_tag tag = true /\ strip_tag_sub captured = base) /\
  bullet_item (str "- Add login [FEATURE]") = Some (str "Add login") /\
  bullet_item (str "- Add login [NFR]") = Some (str "Add login [NFR]").
Proof.
  split; [exact scan_line_tagged_bullet|].
  split; [exact strip_tag_sub_tag|].
  split; [exact strip_tag_sub_only|].
  split; vm_compute; reflexivity.
Qed.

Lemma strip_tag_fixed_set_witness :
  scan_line (Some (str "functional requirements"), [str "Export data"])
    ("-"%char :: str " " ++ str "Add   login  " ++ "["%char :: str "bUG" ++ ["]"%char])
  = (Some (str "functional requirements"),
     if is_empty (collapse (str "Add   login  ")) then [str "Export data"]
     else [str "Export data"] ++ [collapse (str "Add   login  ")]) /\
  strip_tag_sub (str "Add login  " ++ "["%char :: str "bUG" ++ ["]"%char])
  = rstrip (str "Add login  ").
Proof.
  split.
  - apply (proj1 strip_tag_fixed_set).
    + reflexivity.
    + discriminate.
    + reflexivity.
    + reflexivity.
    + simpl. intuition discriminate.
    + reflexivity.
  - apply (proj1 (proj2 strip_tag_fixed_set)). reflexivity.
Defined.

(** C2, as stated, fails: the alphabetic tag [NFR] at the end of a bullet
    under Functional Requirements is not removed. *)
Lemma unlisted_tag_is_kept :
  extract_requirement_lines nfkc_alphabet (fr_heading ++ nl ++ str "- Add login [NFR]")
  = [str "Add login [NFR]"].
Proof. vm_compute. reflexivity. Qed.

Lemma fallback_scan_app a b :
  fallback_scan (a ++ b) = fallback_scan a ++ fallback_scan b.
Proof. unfold fallback_scan. apply flat_map_app. Qed.

(** [bullet_re] matches no line that does not start with a dash and a
    white-space character. *)
Lemma bullet_re_no_match line :
  match line with [] => True | c :: _ => isspace c = false end ->
  match line with d :: c :: _ => Ascii.eqb d "-" && isspace c | _ => false end = false ->
  re_match false bullet_re line = None.
Proof.
  intros Hh Hd. unfold re_match, bullet_re. cbn [seqs].
  rewrite m_seq, m_bol, Nat.eqb_refl.
  generalize (length line). intro n.
  rewrite m_seq. unfold ws at 1. rewrite m_star_cls_stop by exact Hh.
  rewrite m_seq, m_lit. destruct line as [|d rest]; [reflexivity|].
  unfold lit_matches. destruct (Ascii.eqb "-" d) eqn:Ed; [|reflexivity].
  rewrite m_seq. unfold Plus, ws at 1. rewrite m_seq, m_cls.
  destruct rest as [|c rest]; [reflexivity|].
  rewrite Ascii.eqb_sym in Ed. rewrite Ed in Hd. cbn [andb] in Hd. now rewrite Hd.
Qed.

(** Outside a section of functional requirements, and at a line that is
    no bullet, the scan adds no requirement. *)
Lemma scan_line_keeps_reqs current_section reqs raw :
  in_functional current_section = false \/ dash_bullet raw = false ->
  snd (scan_line (current_section, reqs) raw) = reqs.
Proof.
  intro H. unfold scan_line.
  destruct (is_empty (strip raw)) eqn:Ee; [reflexivity|].
  destruct (heading_of (strip raw)); [reflexivity|].
  destruct (in_functional current_section) eqn:Ef; [|reflexivity].
  destruct H as [H|H]; [discriminate|].
  unfold bullet_item. rewrite bullet_re_no_match; [reflexivity | | exact H].
  destruct (strip raw) as [|c t] eqn:E; [exact I|]. exact (strip_head _ _ _ E).
Qed.

Lemma primary_scan_no_bullet lines :
  no_functional_bullet lines -> primary_scan lines = [].
Proof.
  unfold primary_scan.
  induction lines as [|l lines IH] using rev_ind; intro H; [reflexivity|].
  rewrite fold_left_app. cbn [fold_left].
  assert (H' : no_functional_bullet lines).
  { intros pre x post E. apply (H pre x (post ++ [l])).
    rewrite E. now rewrite <- app_assoc. }
  specialize (IH H').
  destruct (fold_left scan_line lines (None, [])) as [cs reqs] eqn:F.
  cbn [snd] in IH. subst reqs. apply scan_line_keeps_reqs.
  destruct (in_functional cs) eqn:Ef; [right | now left].
  apply (H lines l []); [reflexivity|]. unfold section_after. now rewrite F.
Qed.

Lemma extract_by_scan NFKC srs_text :
  extract_requirement_lines NFKC srs_text =
  dedup (match primary_scan (splitlines (normalize_srs NFKC srs_text)) with
         | [] => fallback_scan (splitlines (normalize_srs NFKC srs_text))
         | _ :: _ => primary_scan (splitlines (normalize_srs NFKC srs_text))
         end).
Proof.
  unfold extract_requirement_lines. cbv zeta.
  destruct (primary_scan (splitlines (normalize_srs NFKC srs_text))); [|reflexivity].
  now destruct (fallback_scan (splitlines (normalize_srs NFKC srs_text))).
Qed.

(** C3 (amended).  The candidates of the fallback scan are used exactly
    when the primary scan found none.  In a document without a bullet
    under a section of functional requirements the primary scan finds
    none; if such a document has the line [2.3. Support offline mode],
    the result is the de-duplicated list of the texts captured from the
    lines above it that match the fallback pattern, then
    [Support offline mode], then the texts captured from the lines below.
    It is exactly [Support offline mode] when no other line matches the
    fallback pattern. *)
Theorem fallback_iff_primary_empty :
  forall NFKC srs_text,
    (primary_scan (splitlines (normalize_srs NFKC srs_text)) <> [] ->
     extract_requirement_lines NFKC srs_text
     = dedup (primary_scan (splitlines (normalize_srs NFKC srs_text)))) /\
    (primary_scan (splitlines (normalize_srs NFKC srs_text)) = [] ->
     extract_requirement_lines NFKC srs_text
     = dedup (fallback_scan (splitlines (normalize_srs NFKC srs_text)))) /\
    (no_functional_bullet (splitlines (normalize_srs NFKC srs_text)) ->
     primary_scan (splitlines (normalize_srs NFKC srs_text)) = []) /\
    (forall above below,
        no_functional_bullet (splitlines (normalize_srs NFKC srs_text)) ->
        splitlines (normalize_srs NFKC srs_text)
        = above ++ str "2.3. Support offline mode" :: below ->
        extract_requirement_lines NFKC srs_text
        = dedup (fallback_scan above ++ [str "Support offline mode"]
                 ++ fallback_scan below) /\
        (fallback_scan above = [] -> fallback_scan below = [] ->
         extract_requirement_lines NFKC srs_text = [str "Support offline mode"])).
Proof.
  intros NFKC srs_text. rewrite extract_by_scan.
  split; [|split; [|split]].
  - intro H. now destruct (primary_scan (splitlines (normalize_srs NFKC srs_text))).
  - now intros ->.
  - apply primary_scan_no_bullet.
  - intros above below Hno Hlines.
    rewrite (primary_scan_no_bullet _ Hno), Hlines.
    change (above ++ str "2.3. Support offline mode" :: below)
      with (above ++ [str "2.3. Support offline mode"] ++ below).
    rewrite !fallback_scan_app.
    assert (E : fallback_scan [str "2.3. Support offline mode"]
                = [str "Support offline mode"]) by (vm_compute; reflexivity).
    rewrite E. split; [reflexivity|].
    intros -> ->. vm_compute. reflexivity.
Qed.

Lemma fallback_iff_primary_empty_witness :
  extract_requirement_lines nfkc_alphabet
    (str "4. Scope" ++ nl ++ str "- not a requirement" ++ nl
     ++ str "2.3. Support offline mode" ++ nl ++ str "Thanks")
  = [str "Support offline mode"].
Proof.
  refine (proj2 (proj2 (proj2 (proj2
            (fallback_iff_primary_empty nfkc_alphabet
               (str "4. Scope" ++ nl ++ str "- not a requirement" ++ nl
                ++ str "2.3. Support offline mode" ++ nl ++ str "Thanks"))))
            [str "4. Scope"; str "- not a requirement"] [str "Thanks"] _ _) _ _);
    try (vm_compute; reflexivity).
  assert (L : splitlines
                (normalize_srs nfkc_alphabet
                   (str "4. Scope" ++ nl ++ str "- not a requirement" ++ nl
                    ++ str "2.3. Support offline mode" ++ nl ++ str "Thanks"))
              = [str "4. Scope"; str "- not a requirement";
                 str "2.3. Support offline mode"; str "Thanks"])
    by (vm_compute; reflexivity).
  rewrite L. intros pre l post E Hf.
  repeat (destruct pre as [|? pre];
          [ injection E as <- <-;
            first [ vm_compute; reflexivity | vm_compute in Hf; discriminate ]
          | injection E as <- E ]).
  destruct pre; discriminate.
Defined.

(** C3, as stated, fails: the document has no bullet at all and has the
    line [2.3. Support offline mode], and the result holds the text of
    the other line that the fallback pattern matches as well. *)
Lemma other_numbered_line_is_returned :
  primary_scan
    (splitlines
       (normalize_srs nfkc_alphabet
          (str "1.1 Foo" ++ nl ++ str "2.3. Support offline mode"))) = [] /\
  splitlines
    (normalize_srs nfkc_alphabet
       (str "1.1 Foo" ++ nl ++ str "2.3. Support offline mode"))
  = [str "1.1 Foo"; str "2.3. Support offline mode"] /\
  extract_requirement_lines nfkc_alphabet
    (str "1.1 Foo" ++ nl ++ str "2.3. Support offline mode")
  = [str "Foo"; str "Support offline mode"].
Proof. repeat split; vm_compute; reflexivity. Qed.

(** C4.  De-duplication compares entries in lower case: an entry stays
    exactly when no earlier candidate equals it up to case, so the first
    occurrence is kept and the order is that of the candidates; no two
    entries of the result are equal up to case.  The bullets [- Add login]
    and [- add LOGIN] under Functional Requirements give [Add login]. *)
Theorem dedup_keeps_first_occurrence :
  extract_requirement_lines nfkc_alphabet
    (fr_heading ++ nl ++ str "- Add login" ++ nl ++ str "- add LOGIN")
  = [str "Add login"] /\
  (forall NFKC srs_text, NoDup (map lower (extract_requirement_lines NFKC srs_text))) /\
  (forall reqs, dedup reqs = firsts [] reqs).
Proof.
  split; [vm_compute; reflexivity|]. split.
  - intros NFKC srs_text. unfold extract_requirement_lines. apply dedup_nodup.
  - exact dedup_firsts.
Qed.

End ExtractorSpec.

(* ================================================================== *)
(** ** Collapsing white space, and the lines of a reply *)

Module ReplyFacts.
Import PyStr Re llm_client Shapes PyStrFacts StoryFacts LineFacts.

Lemma split_from_cur_nonempty s : forall cur, cur <> [] -> split_from cur s <> [].
Proof.
  induction s as [|c s IH]; intros cur H; cbn [split_from].
  - destruct cur; [congruence | discriminate].
  - destruct (isspace c).
    + destruct cur; [congruence | discriminate].
    + apply IH. discriminate.
Qed.

Lemma join_cons_nonempty sep w rest :
  rest <> [] -> join sep (w :: rest) = w ++ sep ++ join sep rest.
Proof. destruct rest; [congruence | reflexivity]. Qed.

Lemma join_split_squeeze s :
  (forall cur, cur <> [] ->
               join (str " ") (split_from cur s) = rev cur ++ squeeze_from true false s) /\
  (forall w, join (str " ") (w :: split_from [] s) = w ++ squeeze_from true true s).
Proof.
  induction s as [|c t [IHa IHb]].
  - split.
    + intros cur H. cbn [split_from]. destruct cur; [congruence|].
      cbn [join squeeze_from]. now rewrite app_nil_r.
    + intro w. cbn [split_from join squeeze_from]. now rewrite app_nil_r.
  - split.
    + intros cur H. cbn [split_from squeeze_from]. destruct (isspace c).
      * destruct cur as [|x cur]; [congruence|]. apply IHb.
      * rewrite IHa by discriminate. cbn [rev andb app]. now rewrite <- app_assoc.
    + intro w. cbn [split_from squeeze_from]. destruct (isspace c).
      * apply IHb.
      * rewrite join_cons_nonempty by (apply split_from_cur_nonempty; discriminate).
        rewrite IHa by discriminate. reflexivity.
Qed.

(** [" ".join(s.split())] replaces every run of white space inside the
    text by one space and removes the runs at its ends. *)
Lemma collapse_squeeze s : collapse s = squeeze s.
Proof.
  unfold collapse, split, squeeze.
  assert (G : forall g, join (str " ") (split_from [] s) = squeeze_from false g s).
  { induction s as [|c t IH]; intro g; [reflexivity|].
    cbn [split_from squeeze_from]. destruct (isspace c); [apply IH|].
    destruct (join_split_squeeze t) as [A _]. rewrite A by discriminate.
    reflexivity. }
  apply G.
Qed.

Lemma not_break_not_cr c : is_linebreak c = false -> Ascii.eqb c "013" = false.
Proof. each_char c. Qed.

Lemma splitlines_from_one_line a : forall cur rest,
  one_line a ->
  splitlines_from cur (a ++ rest) = splitlines_from (rev a ++ cur) rest.
Proof.
  unfold one_line. induction a as [|c a IH]; intros cur rest H; [reflexivity|].
  cbn [forallb] in H. apply andb_true_iff in H as [Hc H].
  apply negb_true_iff in Hc.
  cbn [app splitlines_from]. rewrite (not_break_not_cr _ Hc), Hc.
  rewrite IH by assumption. cbn [rev]. now rewrite <- app_assoc.
Qed.

Lemma reply_lines_one_line a :
  one_line a -> reply_lines a = if is_empty (strip a) then [] else [strip a].
Proof.
  intro H. unfold reply_lines, splitlines.
  rewrite <- (app_nil_r a) at 1. rewrite splitlines_from_one_line by assumption.
  rewrite app_nil_r. cbn [splitlines_from].
  destruct (rev a) as [|x r] eqn:E.
  - apply (f_equal (@rev ascii)) in E. rewrite rev_involutive in E. subst a.
    reflexivity.
  - rewrite <- E, rev_involutive. cbn [map filter].
    now destruct (is_empty (strip a)).
Qed.

Lemma reply_lines_break a c b :
  one_line a -> is_linebreak c = true ->
  reply_lines (a ++ c :: b) = reply_lines a ++ reply_lines b.
Proof.
  intros Ha Hc. rewrite (reply_lines_one_line a Ha).
  unfold reply_lines, splitlines. rewrite splitlines_from_one_line by assumption.
  rewrite app_nil_r.
  assert (E : filter (fun ln => negb (is_empty ln))
                (map strip (splitlines_from (rev a) (c :: b)))
              = filter (fun ln => negb (is_empty ln))
                  (map strip (a :: splitlines_from [] b))).
  { cbn [splitlines_from]. rewrite rev_involutive, Hc.
    destruct (Ascii.eqb c "013"); [|reflexivity].
    destruct b as [|d b']; [reflexivity|].
    destruct (Ascii.eqb d "010") eqn:Ed; [|reflexivity].
    apply Ascii.eqb_eq in Ed. subst d. reflexivity. }
  rewrite E. cbn [map filter]. now destruct (is_empty (strip a)).
Qed.

Lemma story_of_line_squeeze ln :
  story_of_line ln =
  if conforms (dropwhile marker_class ln)
  then [firstn 280 (squeeze (dropwhile marker_class ln))]
  else [].
Proof.
  unfold story_of_line. cbv zeta. rewrite marker_sub_dropwhile, collapse_squeeze.
  reflexivity.
Qed.

End ReplyFacts.

(* ================================================================== *)
(** ** The story synthesizer *)

Module SynthesizerSpec.
Import PyStr Re llm_client Shapes PyStrFacts ReFacts HeadingFacts TagFacts StoryFacts.
Import ReplyFacts.

(** C5.  The parser takes the reply line by line, a line ending at each
    line boundary, in order.  It trims the line and removes its leading
    run of list-marker characters (digits, [.], [-], [)], [(], [*], the
    bullet glyph and white space); it keeps the line exactly when, in
    lower case, the line then starts with [as a ] and contains
    [ i want ]; of a kept line every run of white space becomes one
    space and the first 280 characters stay.  The line
    [3) As a user, I want dark mode ...] is kept without its marker, and
    [I want dark mode] is dropped. *)
Theorem parse_stories_spec :
  (forall a c b,
      one_line a -> is_linebreak c = true ->
      parse_stories (a ++ c :: b) = parse_stories a ++ parse_stories b) /\
  (forall ln,
      one_line ln ->
      parse_stories ln =
      if conforms (dropwhile marker_class (strip ln))
      then [firstn 280 (squeeze (dropwhile marker_class (strip ln)))]
      else []) /\
  (forall raw,
      parse_stories raw =
      map (fun ln => firstn 280 (collapse (dropwhile marker_class ln)))
          (filter (fun ln => conforms (dropwhile marker_class ln)) (reply_lines raw))) /\
  (forall ln, marker_sub ln = dropwhile marker_class ln) /\
  (forall raw, Forall (fun story => length story <= 280) (parse_stories raw)) /\
  parse_stories
    (str "3) As a user, I want dark mode so that my eyes hurt less at night.")
  = [str "As a user, I want dark mode so that my eyes hurt less at night."] /\
  parse_stories (str "I want dark mode") = [] /\
  parse_stories
    (str "Here are the stories:" ++ nl ++ nl
     ++ str "3)  As a user,   I want dark mode so that my eyes hurt less at night. "
     ++ ["013"%char; "010"%char]
     ++ str "I want dark mode" ++ nl
     ++ [bullet_glyph] ++ str " as A tester,  I WANT logs so" ++ ["009"%char]
     ++ str "that I can debug.")
  = [str "As a user, I want dark mode so that my eyes hurt less at night.";
     str "as A tester, I WANT logs so that I can debug."].
Proof.
  assert (E : forall raw,
      parse_stories raw =
      map (fun ln => firstn 280 (collapse (dropwhile marker_class ln)))
          (filter (fun ln => conforms (dropwhile marker_class ln)) (reply_lines raw)))
    by (intro raw; apply flat_map_story).
  split; [|split; [|split; [exact E|split; [exact marker_sub_dropwhile|split]]]].
  - intros a c b Ha Hc. unfold parse_stories.
    rewrite (reply_lines_break a c b Ha Hc). apply flat_map_app.
  - intros ln H. unfold parse_stories. rewrite (reply_lines_one_line ln H).
    destruct (strip ln) as [|x t] eqn:Es; [reflexivity|].
    cbn [is_empty flat_map]. rewrite app_nil_r. apply story_of_line_squeeze.
  - intro raw. rewrite E. apply Forall_forall. intros story H.
    apply in_map_iff in H as (ln & <- & _). rewrite length_firstn. lia.
  - repeat split; vm_compute; reflexivity.
Qed.

Lemma parse_stories_spec_witness :
  parse_stories ((str "1. " ++ story_login) ++ "010"%char :: (str "2)  " ++ story_reports))
  = parse_stories (str "1. " ++ story_login) ++ parse_stories (str "2)  " ++ story_reports) /\
  parse_stories (str " - As a   user, I want x ")
  = if conforms (dropwhile marker_class (strip (str " - As a   user, I want x ")))
    then [firstn 280
            (squeeze (dropwhile marker_class (strip (str " - As a   user, I want x "))))]
    else [].
Proof.
  split.
  - apply (proj1 parse_stories_spec (str "1. " ++ story_login) "010"%char
             (str "2)  " ++ story_reports)); reflexivity.
  - apply (proj1 (proj2 parse_stories_spec)). reflexivity.
Defined.

(** C6 (code at the failing input).  With [max_stories = 0] the loop adds
    the first story before it compares the length of [out] with the cap:
    one story comes back although the cap is zero. *)
Theorem cap_zero_returns_one_story :
  srs_to_user_stories nfkc_alphabet reply_one srs_one 0 = Some [story_login].
Proof. vm_compute. reflexivity. Qed.

(** C7 (amended).  When the extractor finds no requirement the run
    returns no story, whatever the backend would answer.  Otherwise the
    run either fails with the request to the backend or returns at most
    [max_stories] stories, for [max_stories] at least one.  The number of
    requirement lines is no bound. *)
Theorem stories_bounded_by_cap :
  forall (NFKC : text -> text) (generate : text -> option text) srs_text max_stories,
    (1 <= max_stories)%Z ->
    (extract_requirement_lines NFKC srs_text = [] ->
     srs_to_user_stories NFKC generate srs_text max_stories = Some []) /\
    match srs_to_user_stories NFKC generate srs_text max_stories with
    | Some stories => (Z.of_nat (length stories) <= max_stories)%Z
    | None =>
        generate (stories_prompt (extract_requirement_lines NFKC srs_text)) = None
    end.
Proof.
  intros NFKC generate srs_text max_stories H. unfold srs_to_user_stories.
  destruct (extract_requirement_lines NFKC srs_text) as [|r reqs] eqn:E.
  - split; [reflexivity | simpl; lia].
  - split; [discriminate|].
    unfold _ask. destruct (generate (stories_prompt (r :: reqs))) as [raw|];
      [|reflexivity].
    cbn [option_map]. now apply dedup_cap_length.
Qed.

Lemma stories_bounded_by_cap_witness :
  (extract_requirement_lines nfkc_alphabet srs_one = [] ->
   srs_to_user_stories nfkc_alphabet reply_two srs_one 1 = Some []) /\
  match srs_to_user_stories nfkc_alphabet reply_two srs_one 1 with
  | Some stories => (Z.of_nat (length stories) <= 1)%Z
  | None =>
      reply_two (stories_prompt (extract_requirement_lines nfkc_alphabet srs_one)) = None
  end.
Proof. apply (stories_bounded_by_cap nfkc_alphabet reply_two srs_one 1). lia. Defined.

(** C7, as stated, fails: one requirement line goes in, and the two
    conforming lines of the reply come back as two stories. *)
Lemma more_stories_than_requirements :
  extract_requirement_lines nfkc_alphabet srs_one = [str "Add login"] /\
  srs_to_user_stories nfkc_alphabet reply_two srs_one 50
  = Some [story_login; story_reports].
Proof. split; vm_compute; reflexivity. Qed.

End SynthesizerSpec.

(* ================================================================== *)
(** ** The text clean-up *)

Module NormalizerSpec.
Import PyStr Re llm_client jira_client main Shapes PyStrFacts LineFacts.

Lemma remove_from_In old c s : forall skip,
  In c (remove_from old skip s) -> In c s.
Proof.
  induction s as [|x s IH]; intros skip H; [assumption|].
  cbn [remove_from] in H. destruct skip as [|j].
  - destruct (startswith old (x :: s)).
    + destruct (length old) as [|j].
      * destruct H as [<- | H]; [now left | right; exact (IH _ H)].
      * right. exact (IH _ H).
    + destruct H as [<- | H]; [now left | right; exact (IH _ H)].
  - right. exact (IH _ H).
Qed.

Lemma remove_nul s : ~ In zero (remove [zero] s).
Proof.
  unfold remove. induction s as [|x s IH]; [tauto|].
  cbn [remove_from startswith]. destruct (Ascii.eqb zero x) eqn:E.
  - cbn [andb length]. exact IH.
  - cbn [andb]. intros [H | H]; [|now apply IH].
    subst x. now rewrite Ascii.eqb_refl in E.
Qed.

Lemma remove_bold_head d t :
  Ascii.eqb d "*" = false ->
  remove_from (str "**") 0 (d :: t) = d :: remove_from (str "**") 0 t.
Proof.
  intro H. cbn [remove_from startswith str list_ascii_of_string].
  rewrite Ascii.eqb_sym in H. now rewrite H.
Qed.

Lemma remove_bold_pairs s :
  contains (str "**") (remove_from (str "**") 0 s) = false /\
  contains (str "**") (remove_from (str "**") 1 s) = false.
Proof.
  induction s as [|c t [IH0 IH1]]; [split; reflexivity|].
  split; [|exact IH0].
  destruct (startswith (str "**") (c :: t)) eqn:E.
  - cbn [remove_from]. rewrite E. cbn [length str list_ascii_of_string]. exact IH1.
  - cbn [remove_from]. rewrite E. cbn [contains]. rewrite IH0, orb_false_r.
    cbn [startswith str list_ascii_of_string] in *.
    destruct (Ascii.eqb "*" c) eqn:Ec; [|reflexivity]. cbn [andb] in *.
    destruct t as [|d t']; [reflexivity|].
    destruct (Ascii.eqb "*" d) eqn:Ed; [discriminate|].
    rewrite Ascii.eqb_sym in Ed.
    change (remove_from ["*"%char; "*"%char] 0 (d :: t'))
      with (remove_from (str "**") 0 (d :: t')).
    rewrite (remove_bold_head d t' Ed). cbn [startswith].
    rewrite Ascii.eqb_sym, Ed. reflexivity.
Qed.

Lemma remove_nul_filter s : remove [zero] s = without_nul s.
Proof.
  unfold remove, without_nul. induction s as [|x s IH]; [reflexivity|].
  cbn [remove_from startswith filter]. rewrite (Ascii.eqb_sym x zero).
  destruct (Ascii.eqb zero x).
  - cbn [andb length negb]. exact IH.
  - cbn [andb negb]. now rewrite IH.
Qed.

Lemma last_char_some (d : ascii) t : exists c, last_char (d :: t) = Some c.
Proof.
  unfold last_char. destruct (rev (d :: t)) as [|c r] eqn:E; [|now exists c].
  apply (f_equal (@length ascii)) in E. rewrite length_rev in E. discriminate.
Qed.

Lemma ends_clean_strip s : ends_clean (strip s).
Proof.
  split.
  - destruct (strip s) as [|c t] eqn:E; [exact I|]. exact (strip_head _ _ _ E).
  - destruct (strip_last s) as [-> | (c & -> & Hc)]; [exact I | exact Hc].
Qed.

Lemma strip_trim_of s : trim_of s (strip s).
Proof.
  destruct (dropwhile_split isspace s) as (l & El & Hl).
  destruct (rstrip_split (lstrip s)) as (t & Et & Ht).
  exists l, t. split; [|split; [exact Hl|split; [exact Ht|apply ends_clean_strip]]].
  unfold strip. rewrite <- Et. exact El.
Qed.

Lemma ends_clean_fixed s : ends_clean s -> strip s = s.
Proof.
  intros [Hh Hl]. destruct s as [|d t]; [reflexivity|].
  destruct (last_char_some d t) as (c & Ec). rewrite Ec in Hl.
  unfold strip, lstrip. rewrite dropwhile_stop by exact Hh.
  exact (rstrip_fix _ _ Ec Hl).
Qed.

Lemma trim_of_strip s r : trim_of s r -> r = strip s.
Proof.
  intros (l & t & -> & Hl & Ht & Hr).
  unfold strip, lstrip. rewrite dropwhile_app_all by exact Hl.
  destruct r as [|d r'].
  - cbn [app]. now rewrite (dropwhile_all _ _ Ht).
  - destruct Hr as [Hh Hlast].
    cbn [app]. rewrite dropwhile_stop by exact Hh.
    change (d :: r' ++ t) with ((d :: r') ++ t). rewrite rstrip_app_space by exact Ht.
    destruct (last_char_some d r') as (c & Ec). rewrite Ec in Hlast.
    symmetry. exact (rstrip_fix _ _ Ec Hlast).
Qed.

(** C8 (amended).  The code has no one normalizer that does the three
    steps.  The statements at the head of the extractor remove the NUL
    characters, apply [NFKC] and remove the [**] pairs, and do not trim.
    The clean-up of an upload in [process_txt], and [_clean_text] of the
    Jira client, return the text without its NUL characters and without
    the white space at its two ends, and that is all they do: a text
    without NUL that neither starts nor ends with white space is returned
    as it is, normalized or not.  A heading written with a no-break space
    shows the normalization of the extractor at work. *)
Theorem cleanup_steps :
  (forall NFKC s,
      normalize_srs NFKC s = remove (str "**") (NFKC (without_nul s)) /\
      contains (str "**") (normalize_srs NFKC s) = false) /\
  (forall s,
      final_cleanup s = strip (without_nul s) /\
      _clean_text s = final_cleanup s /\
      trim_of (without_nul s) (final_cleanup s) /\
      (forall r, trim_of (without_nul s) r -> r = final_cleanup s)) /\
  (forall s,
      ~ In zero s -> ends_clean s -> final_cleanup s = s /\ _clean_text s = s) /\
  extract_requirement_lines nfkc_alphabet
    (str "3. Functional" ++ [nbsp] ++ str "Requirements" ++ nl ++ str "- Add login")
  = [str "Add login"] /\
  extract_requirement_lines (fun s => s)
    (str "3. Functional" ++ [nbsp] ++ str "Requirements" ++ nl ++ str "- Add login")
  = [].
Proof.
  assert (C : forall s, _clean_text s = final_cleanup s).
  { intro s. unfold _clean_text, final_cleanup. now destruct s. }
  assert (F : forall s, final_cleanup s = strip (without_nul s)).
  { intro s. unfold final_cleanup. now rewrite remove_nul_filter. }
  split; [|split; [|split]].
  - intros NFKC s. unfold normalize_srs. cbv zeta. rewrite remove_nul_filter.
    split; [reflexivity|]. unfold remove. apply remove_bold_pairs.
  - intro s. split; [apply F|]. split; [apply C|]. rewrite F.
    split; [apply strip_trim_of | apply trim_of_strip].
  - intros s Hz He. rewrite C, F.
    assert (W : without_nul s = s).
    { unfold without_nul. apply forallb_filter_id. apply forallb_forall.
      intros c Hc. apply negb_true_iff. destruct (Ascii.eqb c zero) eqn:E; [|reflexivity].
      apply Ascii.eqb_eq in E. subst c. contradiction. }
    rewrite W, (ends_clean_fixed s He). now split.
  - split; vm_compute; reflexivity.
Qed.

Lemma cleanup_steps_witness :
  final_cleanup (str "Done" ++ [greek_question] ++ str " ok")
  = str "Done" ++ [greek_question] ++ str " ok" /\
  _clean_text (str "Done" ++ [greek_question] ++ str " ok")
  = str "Done" ++ [greek_question] ++ str " ok".
Proof.
  apply (proj1 (proj2 (proj2 cleanup_steps))).
  - vm_compute. intuition discriminate.
  - vm_compute. split; reflexivity.
Defined.

(** C8, as stated, fails: [process_txt] returns a review with the Greek
    question mark that it was uploaded with, a character that the
    normalization to a composed form replaces by a semicolon. *)
Lemma upload_is_not_normalized :
  fst (process_txt backend_bug (str "reviews.txt")
         (str "  Done" ++ [greek_question] ++ str " ok" ++ [zero] ++ nl) [])
  = Done {| total_reviews := 1;
            classification_summary :=
              [(str "Bug", 1%Z); (str "Feature", 0%Z); (str "Other", 0%Z)];
            classifications :=
              [ {| e_review := str "Done" ++ [greek_question] ++ str " ok";
                   e_classification := str "Bug";
                   e_reasoning := str "Done" ++ [greek_question] ++ str " ok" |} ];
            srs_document := str "Bug" |} /\
  nfkc_alphabet (str "Done" ++ [greek_question] ++ str " ok") = str "Done; ok".
Proof. split; vm_compute; reflexivity. Qed.

End NormalizerSpec.

(* ================================================================== *)
(** ** The batch endpoints *)

Module BatchSpec.
Import PyStr PyRun jira_client main Shapes.

Lemma create_issue_unexpected env tracker kw name log :
  unexpected_keyword create_issue_params kw = Some name ->
  create_issue env tracker kw log
  = (Raise (TypeError (str "create_issue() got an unexpected keyword argument '"
                       ++ name ++ str "'")), log).
Proof. intro H. unfold create_issue. now rewrite H. Qed.

(** [jira_create] never creates an issue and never reaches the tracker:
    every item ends in [failed] with the message of the [TypeError]. *)
Lemma jira_create_loop_all_failed env tracker items : forall created failed log,
  jira_create_loop env tracker items created failed log
  = (Ok (Batch created
           (failed ++
            map (fun it =>
                   {| title := review it;
                      error := str "create_issue() got an unexpected keyword argument 'issuetype'" |})
                items)),
     log).
Proof.
  induction items as [|it items IH]; intros created failed log.
  - simpl. now rewrite app_nil_r.
  - cbn [jira_create_loop map]. unfold bind at 1, try_except, bind at 1.
    rewrite (create_issue_unexpected env tracker _ (str "issuetype")) by reflexivity.
    unfold ret at 1. cbn [fst snd exn_str]. rewrite IH.
    now rewrite <- app_assoc.
Qed.

(** [jira_send_selected] never reaches the tracker either. *)
Lemma send_selected_loop_no_post env tracker items : forall created failed log,
  snd (send_selected_loop env tracker items created failed log) = log.
Proof.
  induction items as [|it items IH]; intros created failed log; [reflexivity|].
  cbn [send_selected_loop].
  destruct (is_empty (strip (or_text (s_user_story it) []))); [apply IH|].
  unfold bind.
  now rewrite (create_issue_unexpected env tracker _ (str "classification"))
    by reflexivity.
Qed.

Lemma jira_send_selected_no_post env tracker stories log :
  snd (jira_send_selected env tracker stories log) = log.
Proof.
  unfold jira_send_selected.
  destruct (match stories with Some l => l | None => [] end) as [|it items];
    [reflexivity|].
  destruct (10 <? length (it :: items)); [reflexivity|].
  apply send_selected_loop_no_post.
Qed.

(** C9 (code at the failing input).  [create_issue] has the parameters
    [summary], [description] and [labels].  [jira_send_selected] calls it
    with the keyword [classification]: the call raises [TypeError] at the
    first story that is not empty, nothing catches it, and the request ends
    without a result.  [jira_create] calls it with the keyword
    [issuetype] inside [try]: every item ends in [failed] and [created]
    stays empty.  Neither reaches the tracker. *)
Theorem batch_of_two_creates_nothing :
  forall env tracker log,
    jira_send_selected env tracker (Some two_stories) log
    = (Raise (TypeError
                (str "create_issue() got an unexpected keyword argument 'classification'")),
       log) /\
    jira_create env tracker two_jira_items log
    = (Ok (Batch []
             [ {| title := str "App crashes on start";
                  error := str "create_issue() got an unexpected keyword argument 'issuetype'" |};
               {| title := [];
                  error := str "create_issue() got an unexpected keyword argument 'issuetype'" |} ]),
       log).
Proof. intros env tracker log. split; reflexivity. Qed.

(** The endpoint that names the parameters of [create_issue] as they are
    does what C9 says: one entry created, one failed with a message. *)
Example classifications_batch_of_two :
  jira_send_selected_classifications env_ok tracker_accepts (Some two_class_items) []
  = (Ok (Batch [Created (Some (str "REQ-1")) (str "[BUG] App crashes on start")]
               [ {| title := []; error := str "Empty review" |} ]),
     [ {| rq_url := str "https://example.atlassian.net/rest/api/3/issue";
          rq_project := str "REQ";
          rq_summary := str "[BUG] App crashes on start";
          rq_description := str "App crashes on start";
          rq_labels := [str "bug"] |} ]).
Proof. vm_compute. reflexivity. Qed.

(** C10 (amended).  Both endpoints answer a list of more than ten items
    with an error object and post nothing to the tracker; they answer an
    empty list with an error object of its own, again posting nothing; a
    list of one to ten items goes to the loop over the items. *)
Theorem batch_limit :
  forall env tracker log,
    (forall items,
        10 < length items ->
        jira_send_selected env tracker (Some items) log
        = (Ok (ErrorObject (str "Cannot send more than 10 stories at once")), log)) /\
    (forall items,
        10 < length items ->
        jira_send_selected_classifications env tracker (Some items) log
        = (Ok (ErrorObject (str "Cannot send more than 10 items at once")), log)) /\
    (forall items,
        1 <= length items <= 10 ->
        jira_send_selected env tracker (Some items) log
        = send_selected_loop env tracker items [] [] log) /\
    (forall items,
        1 <= length items <= 10 ->
        jira_send_selected_classifications env tracker (Some items) log
        = send_classifications_loop env tracker items [] [] log) /\
    jira_send_selected env tracker (Some []) log
    = (Ok (ErrorObject (str "No stories provided")), log) /\
    jira_send_selected_classifications env tracker (Some []) log
    = (Ok (ErrorObject (str "No items provided")), log).
Proof.
  intros env tracker log.
  repeat split; try (intros [|it items] H; cbn [length] in H; try lia).
  - unfold jira_send_selected.
    replace (10 <? length (it :: items)) with true
      by (symmetry; apply Nat.ltb_lt; exact H).
    reflexivity.
  - unfold jira_send_selected_classifications.
    replace (10 <? length (it :: items)) with true
      by (symmetry; apply Nat.ltb_lt; exact H).
    reflexivity.
  - unfold jira_send_selected.
    replace (10 <? length (it :: items)) with false
      by (symmetry; apply Nat.ltb_ge; cbn [length]; lia).
    reflexivity.
  - unfold jira_send_selected_classifications.
    replace (10 <? length (it :: items)) with false
      by (symmetry; apply Nat.ltb_ge; cbn [length]; lia).
    reflexivity.
Qed.

Lemma batch_limit_witness :
  jira_send_selected env_ok tracker_accepts
    (Some (two_stories ++ two_stories ++ two_stories ++ two_stories
           ++ two_stories ++ two_stories)) []
  = (Ok (ErrorObject (str "Cannot send more than 10 stories at once")), []) /\
  jira_send_selected_classifications env_ok tracker_accepts (Some two_class_items) []
  = send_classifications_loop env_ok tracker_accepts two_class_items [] [] [].
Proof.
  split.
  - apply (proj1 (batch_limit env_ok tracker_accepts [])). simpl. lia.
  - apply (proj1 (proj2 (proj2 (proj2 (batch_limit env_ok tracker_accepts []))))).
    simpl. lia.
Defined.

(** C10, as stated, fails for the empty list: it has at most ten items,
    and the endpoint answers with an error object instead of the result of
    the loop over its items. *)
Lemma empty_batch_is_rejected :
  length (@nil class_item) <= 10 /\
  jira_send_selected_classifications env_ok tracker_accepts (Some []) []
  <> send_classifications_loop env_ok tracker_accepts [] [] [] [].
Proof. split; [simpl; lia | discriminate]. Qed.

End BatchSpec.

(* ================================================================== *)
(** ** The classification helpers *)

Module DriverSpec.
Import PyStr Re llm_client Shapes PyStrFacts.

Lemma startswith_app p q s :
  startswith (p ++ q) s = true -> startswith p s = true.
Proof.
  revert s. induction p as [|x p IH]; intros s H; [reflexivity|].
  destruct s as [|y s]; [discriminate|]. simpl in *.
  apply andb_true_iff in H as [-> H]. now apply IH.
Qed.

Lemma dropwhile_lower s :
  dropwhile isspace (lower s) = lower (dropwhile isspace s).
Proof.
  unfold lower. induction s as [|c s IH]; [reflexivity|].
  cbn [map dropwhile]. rewrite lower_char_space.
  destruct (isspace c); [exact IH | reflexivity].
Qed.

Lemma strip_lower s : strip (lower s) = lower (strip s).
Proof.
  unfold strip, rstrip, lstrip. rewrite dropwhile_lower.
  unfold lower at 1. rewrite <- map_rev. fold (lower (rev (dropwhile isspace s))).
  rewrite dropwhile_lower. unfold lower. now rewrite map_rev.
Qed.

(** X1.  The label of [classify_feedback] depends on the reply of the backend,
    trimmed and in lower case, alone: [Bug] when it starts with [bug],
    [Feature] when it starts with [feature], [Other] in every other case;
    the reason is the line that was classified.  The only failure is the
    failure of the request. *)
Theorem classify_feedback_label :
  forall (generate : text -> option text) line,
    match classify_feedback generate line with
    | None => generate (CLASSIFY_PROMPT line) = None
    | Some (label, reason) =>
        reason = line /\
        exists raw,
          generate (CLASSIFY_PROMPT line) = Some raw /\
          label =
          if startswith (str "bug") (lower (strip raw)) then str "Bug"
          else if startswith (str "feature") (lower (strip raw)) then str "Feature"
          else str "Other"
    end.
Proof.
  intros generate line. unfold classify_feedback, _ask.
  destruct (generate (CLASSIFY_PROMPT line)) as [raw|]; [|reflexivity].
  cbn [option_map]. split; [reflexivity|]. exists raw. split; [reflexivity|].
  rewrite strip_lower, strip_idem.
  destruct (startswith (str "bug report") (lower (strip raw))) eqn:B.
  - change (str "bug report") with (str "bug" ++ str " report") in B.
    now rewrite (startswith_app _ _ _ B).
  - cbn [orb]. destruct (startswith (str "bug") (lower (strip raw))); [reflexivity|].
    destruct (startswith (str "feature request") (lower (strip raw))) eqn:F;
      [|reflexivity].
    change (str "feature request") with (str "feature" ++ str " request") in F.
    now rewrite (startswith_app _ _ _ F).
Qed.

Lemma final_classification_first pre l post d :
  Forall (fun x => startswith final_mark x = false) pre ->
  startswith final_mark l = true ->
  final_classification (pre ++ l :: post) d = strip (remove final_mark l).
Proof.
  intros Hpre Hl. induction Hpre as [|x pre Hx _ IH].
  - cbn [app final_classification]. fold final_mark. now rewrite Hl.
  - cbn [app final_classification]. fold final_mark. now rewrite Hx.
Qed.

Lemma final_classification_default lines d :
  Forall (fun x => startswith final_mark x = false) lines ->
  final_classification lines d = d.
Proof.
  intro H. induction H as [|x lines Hx _ IH]; [reflexivity|].
  cbn [final_classification]. fold final_mark. now rewrite Hx.
Qed.

(** X2.  In [classify_nfr_feedback] the first line of the trimmed reply that
    starts with the marker, at its first column and in upper case, gives
    the type: the line without the marker, trimmed; the lines after it do
    not count.  A reply without such a line gives [OT: Other].  The
    reasoning returned is the review itself. *)
Theorem nfr_first_marker_line_decides :
  forall (generate : text -> option text) line raw,
    generate (NFR_COT_PROMPT line) = Some raw ->
    (forall pre l post,
        split_on "010" (strip raw) = pre ++ l :: post ->
        Forall (fun x => startswith final_mark x = false) pre ->
        startswith final_mark l = true ->
        classify_nfr_feedback generate line
        = Some (strip (remove final_mark l), line)) /\
    (Forall (fun x => startswith final_mark x = false) (split_on "010" (strip raw)) ->
     classify_nfr_feedback generate line = Some (str "OT: Other", line)).
Proof.
  intros generate line raw G. unfold classify_nfr_feedback, _ask. rewrite G.
  cbn [option_map]. split.
  - intros pre l post E Hpre Hl. rewrite E.
    now rewrite (final_classification_first pre l post _ Hpre Hl).
  - intro H. now rewrite (final_classification_default _ _ H).
Qed.

Lemma nfr_first_marker_line_decides_witness :
  classify_nfr_feedback reply_nfr (str "slow app")
  = Some (strip (remove final_mark (str "FINAL CLASSIFICATION: PE: Performance")),
          str "slow app").
Proof.
  apply (proj1 (nfr_first_marker_line_decides reply_nfr (str "slow app") _ eq_refl))
    with (pre := [str "The user waits too long."])
         (post := [str "FINAL CLASSIFICATION: US: Usability"]).
  - reflexivity.
  - repeat constructor.
  - reflexivity.
Defined.

End DriverSpec.

(* ================================================================== *)
(** ** More about the requirement extractor *)

Module ExtractorMore.
Import PyStr Re llm_client jira_client main Shapes PyStrFacts ReFacts HeadingFacts
       TagFacts StoryFacts LineFacts ExtractorSpec NormalizerSpec.

(** *** [split] and [join] *)

Lemma split_from_word_app t : forall rest cur,
  forallb (fun c => negb (isspace c)) t = true ->
  split_from cur (t ++ rest) = split_from (rev t ++ cur) rest.
Proof.
  induction t as [|c t IH]; intros rest cur H; [reflexivity|].
  simpl in H. apply andb_true_iff in H as [Hc Ht].
  apply negb_true_iff in Hc. cbn [app split_from]. rewrite Hc.
  rewrite (IH rest (c :: cur) Ht). cbn [rev]. now rewrite <- app_assoc.
Qed.

Lemma split_from_word_end t :
  word t -> split_from [] t = [t].
Proof.
  intros [Hne Ht]. rewrite <- (app_nil_r t) at 1.
  rewrite (split_from_word_app t [] [] Ht), app_nil_r. cbn [split_from].
  destruct (rev t) as [|x r] eqn:E.
  - exfalso. apply Hne. rewrite <- (rev_involutive t), E. reflexivity.
  - rewrite <- E. now rewrite rev_involutive.
Qed.

Lemma split_join toks :
  Forall word toks -> split (join (str " ") toks) = toks.
Proof.
  unfold split. intro H. induction H as [|t toks Ht _ IH]; [reflexivity|].
  destruct toks as [|t2 more].
  - cbn [join]. now apply split_from_word_end.
  - change (join (str " ") (t :: t2 :: more))
      with (t ++ " "%char :: join (str " ") (t2 :: more)).
    destruct Ht as [Hne Ht].
    rewrite (split_from_word_app t _ [] Ht), app_nil_r.
    cbn [split_from isspace]. change (isspace " ") with true. cbv iota.
    destruct (rev t) as [|x r] eqn:E.
    + exfalso. apply Hne. rewrite <- (rev_involutive t), E. reflexivity.
    + rewrite <- E, rev_involutive. now rewrite IH.
Qed.

Lemma split_from_words s : forall cur,
  forallb (fun c => negb (isspace c)) cur = true ->
  Forall word (split_from cur s).
Proof.
  assert (W : forall cur, cur <> [] ->
              forallb (fun c => negb (isspace c)) cur = true -> word (rev cur)).
  { intros cur Hne H. split.
    - intro E. apply Hne. rewrite <- (rev_involutive cur), E. reflexivity.
    - rewrite forallb_forall in *. intros x Hx. apply H. now apply in_rev. }
  induction s as [|c s IH]; intros cur H.
  - cbn [split_from]. destruct cur as [|x cur]; constructor; [|constructor].
    now apply W.
  - cbn [split_from]. destruct (isspace c) eqn:Hc.
    + destruct cur as [|x cur]; [now apply IH|].
      constructor; [now apply W | now apply IH].
    + apply IH. cbn [forallb]. now rewrite Hc, H.
Qed.

Lemma split_words s : Forall word (split s).
Proof. now apply split_from_words. Qed.

(** Collapsing twice is collapsing once. *)
Lemma collapse_idem s : collapse (collapse s) = collapse s.
Proof. unfold collapse. now rewrite (split_join _ (split_words s)). Qed.

Lemma split_from_nonempty s : forall cur,
  cur <> [] \/ forallb isspace s = false -> split_from cur s <> [].
Proof.
  induction s as [|c s IH]; intros cur H.
  - cbn [split_from]. destruct cur; [|discriminate].
    destruct H as [H|H]; [congruence | discriminate].
  - cbn [split_from]. destruct (isspace c) eqn:Hc.
    + destruct cur; [|discriminate]. apply IH.
      destruct H as [H|H]; [congruence|]. simpl in H. rewrite Hc in H. now right.
    + apply IH. left. discriminate.
Qed.

Lemma collapse_nonempty s : forallb isspace s = false -> collapse s <> [].
Proof.
  intro H. unfold collapse.
  pose proof (split_words s) as W.
  pose proof (split_from_nonempty s [] (or_intror H)) as N. fold (split s) in N.
  destruct (split s) as [|t toks]; [congruence|].
  inversion W as [|? ? [Hne _] _]; subst.
  destruct t; [congruence|]. destruct toks; discriminate.
Qed.

(** *** Success of the matcher comes from its continuation *)

Lemma m_reaches ic len0 r : forall s g k x,
  m ic len0 r s g k = Some x -> exists s' g', k s' g' = Some x.
Proof.
  induction r as [| a | p | r1 IH1 r2 IH2 | r1 IH1 r2 IH2 | r IH | r IH | i r IH | |];
    intros s g k x H.
  - now exists s, g.
  - cbn [m] in H. destruct s as [|y s]; [discriminate|].
    destruct (lit_matches ic a y); [|discriminate]. now exists s, g.
  - cbn [m] in H. destruct s as [|y s]; [discriminate|].
    destruct (p y); [|discriminate]. now exists s, g.
  - rewrite m_seq in H. apply IH1 in H as (s1 & g1 & H). now apply IH2 in H.
  - rewrite m_alt in H. destruct (m ic len0 r1 s g k) eqn:E; cbn [orelse] in H.
    + rewrite <- H in *. now apply IH1 in E.
    + now apply IH2 in H.
  - cbn [m] in H. set (n := length s) in H. clearbody n. revert s g H.
    induction n as [|n IHn]; intros s g H.
    + now exists s, g.
    + match type of H with orelse ?a _ = _ => destruct a eqn:E end;
        cbn [orelse] in H.
      * rewrite <- H in *. apply IH in E as (s1 & g1 & E).
        destruct (length s1 <? length s); [|discriminate]. now apply IHn in E.
      * now exists s, g.
  - cbn [m] in H. set (n := length s) in H. clearbody n. revert s g H.
    induction n as [|n IHn]; intros s g H.
    + destruct (k s g) eqn:E; cbn [orelse] in H; [|discriminate].
      rewrite <- H in *. now exists s, g.
    + destruct (k s g) eqn:E; cbn [orelse] in H.
      * rewrite <- H in *. now exists s, g.
      * apply IH in H as (s1 & g1 & H).
        destruct (length s1 <? length s); [|discriminate]. now apply IHn in H.
  - rewrite m_group in H. apply IH in H as (s1 & g1 & H). eauto.
  - rewrite m_bol in H. destruct (length s =? len0); [|discriminate].
    now exists s, g.
  - rewrite m_eol in H. destruct s as [|y [|z s]]; try discriminate.
    + now exists [], g.
    + destruct (Ascii.eqb y "010"); [|discriminate]. now exists [y], g.
Qed.

(** What group 1 of [numbered_re] holds ends in a character that is not
    white space. *)
Lemma numbered_re_group line s' g :
  re_match false numbered_re line = Some (s', g) ->
  forallb isspace (group 1 g) = false.
Proof.
  unfold re_match, numbered_re. cbn [seqs]. intro H.
  rewrite m_seq in H. apply m_reaches in H as (s0 & g0 & H).
  rewrite m_seq in H. apply m_reaches in H as (s1 & g1 & H).
  rewrite m_seq in H. apply m_reaches in H as (s2 & g2 & H).
  rewrite m_seq in H. apply m_reaches in H as (s3 & g3 & H).
  rewrite m_seq in H. apply m_reaches in H as (s4 & g4 & H).
  rewrite m_seq in H. apply m_reaches in H as (s5 & g5 & H).
  rewrite m_seq, m_group, m_seq in H. unfold dot in H.
  apply m_star_cls_inv in H as (a & b & -> & Ha & H).
  unfold nonws in H. rewrite m_cls in H.
  destruct b as [|y b]; [discriminate|].
  destruct (negb (isspace y)) eqn:Hy; [|discriminate].
  assert (G : forall t, group 1 ((1, a ++ [y]) :: t) = a ++ [y]) by reflexivity.
  assert (F : forallb isspace (a ++ [y]) = false).
  { rewrite forallb_app. simpl. apply negb_true_iff in Hy. rewrite Hy.
    now rewrite andb_false_r. }
  rewrite m_eol in H. unfold accept in H.
  destruct b as [|z [|z' b]]; try discriminate.
  - injection H as _ <-. cbn [length] in *.
    replace (length (a ++ [y]) - 0) with (length (a ++ [y])) by lia.
    rewrite firstn_all. now rewrite G.
  - destruct (Ascii.eqb z "010"); [|discriminate]. injection H as _ <-.
    replace (a ++ [y; z]) with ((a ++ [y]) ++ [z]) by (now rewrite <- app_assoc).
    rewrite firstn_app_len. now rewrite G.
Qed.

(** *** The form of the requirement lines *)

Lemma bullet_item_collapsed line item :
  bullet_item line = Some item -> collapse item = item.
Proof.
  unfold bullet_item. destruct (re_match false bullet_re line) as [[s' gb]|];
    [|discriminate].
  intro H. injection H as <-. apply collapse_idem.
Qed.

Lemma scan_line_normal st raw :
  Forall normal_line (snd st) -> Forall normal_line (snd (scan_line st raw)).
Proof.
  destruct st as [cur reqs]. cbn [snd]. intro H. unfold scan_line.
  destruct (is_empty (strip raw)); [exact H|].
  destruct (heading_of (strip raw)); [exact H|].
  destruct (in_functional cur); [|exact H].
  destruct (bullet_item (strip raw)) as [item|] eqn:B; [|exact H].
  destruct (is_empty item) eqn:E; [exact H|]. cbn [snd].
  apply Forall_app. split; [exact H|]. constructor; [|constructor].
  split; [now destruct item | exact (bullet_item_collapsed _ _ B)].
Qed.

Lemma primary_scan_normal lines : Forall normal_line (primary_scan lines).
Proof.
  unfold primary_scan.
  assert (G : forall st, Forall normal_line (snd st) ->
                         Forall normal_line (snd (fold_left scan_line lines st))).
  { induction lines as [|raw lines IH]; intros st H; [exact H|].
    cbn [fold_left]. apply IH. now apply scan_line_normal. }
  apply G. constructor.
Qed.

Lemma fallback_scan_normal lines : Forall normal_line (fallback_scan lines).
Proof.
  unfold fallback_scan. induction lines as [|raw lines IH]; [constructor|].
  cbn [flat_map]. apply Forall_app. split; [|exact IH].
  unfold numbered_line.
  destruct (re_match false numbered_re (strip raw)) as [[s' g]|] eqn:E;
    constructor; [|constructor].
  pose proof (numbered_re_group _ _ _ E) as N.
  split; [now apply collapse_nonempty | apply collapse_idem].
Qed.

Lemma firsts_subset l : forall past r, In r (firsts past l) -> In r l.
Proof.
  induction l as [|x l IH]; intros past r H; [contradiction|].
  cbn [firsts] in H. destruct (mem (lower x) (map lower past)).
  - right. exact (IH _ _ H).
  - destruct H as [<- | H]; [now left | right; exact (IH _ _ H)].
Qed.

Lemma dedup_subset l r : In r (dedup l) -> In r l.
Proof. rewrite dedup_firsts. apply firsts_subset. Qed.

(** X3.  Every requirement line that the extractor returns is in its final
    form: it is not empty and its words are separated by single spaces,
    with no white space at either end. *)
Theorem requirement_lines_normal :
  forall NFKC srs_text, Forall normal_line (extract_requirement_lines NFKC srs_text).
Proof.
  intros NFKC srs_text. unfold extract_requirement_lines. cbv zeta.
  apply Forall_forall. intros r H. apply dedup_subset in H.
  pose proof (primary_scan_normal (splitlines (normalize_srs NFKC srs_text))) as P.
  pose proof (fallback_scan_normal (splitlines (normalize_srs NFKC srs_text))) as F.
  rewrite Forall_forall in P, F.
  destruct (primary_scan (splitlines (normalize_srs NFKC srs_text))) as [|p ps];
    [|now apply P].
  destruct (fallback_scan (splitlines (normalize_srs NFKC srs_text))) as [|q qs];
    [contradiction | now apply F].
Qed.

(** *** Sections are found by a substring of their name *)

Lemma startswith_self_app p q : startswith p (p ++ q) = true.
Proof.
  induction p as [|x p IH]; [reflexivity|]. simpl. now rewrite Ascii.eqb_refl.
Qed.

Lemma contains_middle sub pre post : contains sub (pre ++ sub ++ post) = true.
Proof.
  induction pre as [|x pre IH].
  - cbn [app]. destruct (sub ++ post) eqn:E; cbn [contains]; rewrite <- E;
      now rewrite startswith_self_app.
  - cbn [app contains]. rewrite IH. now rewrite orb_true_r.
Qed.

Lemma strip_tag_sub_plain u c :
  last_char u = Some c -> isspace c = false -> c <> "]"%char ->
  strip_tag_sub u = u.
Proof.
  intros Hl Hc Hb.
  destruct (strip_tag_sub_only u)
    as [E | (base & w & t & trail & E & _ & Htrail & _ & _)]; [exact E|].
  exfalso. rewrite E in Hl.
  destruct trail as [|z trail].
  - rewrite app_assoc, app_comm_cons, app_assoc in Hl.
    rewrite last_char_app in Hl. injection Hl as <-. now apply Hb.
  - assert (L : last_char (z :: trail) = Some c).
    { rewrite <- Hl. symmetry.
      replace (base ++ w ++ "["%char :: t ++ "]"%char :: z :: trail)
        with ((base ++ w ++ "["%char :: t ++ ["]"%char]) ++ z :: trail)
        by (rewrite <- !app_assoc; cbn [app]; now rewrite <- !app_assoc).
      apply last_char_app_nonempty. discriminate. }
    rewrite (last_char_not_all_space _ _ L Hc) in Htrail. discriminate.
Qed.

(** What the scan does, inside a capturing section, with a bullet whose
    text does not end in a closing bracket. *)
Lemma scan_line_plain_bullet sec reqs w u c :
  in_functional (Some sec) = true ->
  w <> [] -> forallb isspace w = true ->
  lstrip u = u -> last_char u = Some c -> isspace c = false ->
  c <> "]"%char -> ~ In "010"%char u ->
  scan_line (Some sec, reqs) ("-"%char :: w ++ u) = (Some sec, reqs ++ [collapse u]).
Proof.
  intros Hsec Hw Hws Hu Hl Hc Hb Hnl.
  assert (Hline : strip ("-"%char :: w ++ u) = "-"%char :: w ++ u).
  { apply strip_fix with (c := c); [reflexivity | | assumption].
    apply last_char_cons. now apply last_char_app_r. }
  unfold scan_line. rewrite Hline. cbn [is_empty].
  rewrite dash_line_no_heading, Hsec. unfold bullet_item.
  rewrite (bullet_re_match w u c Hw Hws Hu Hl Hc Hnl). cbn [group Nat.eqb].
  rewrite (strip_tag_sub_plain u c Hl Hc Hb), collapse_strip.
  pose proof (collapse_nonempty u (last_char_not_all_space _ _ Hl Hc)) as N.
  destruct (collapse u); [congruence | reflexivity].
Qed.

Lemma scan_line_bullet_outside current_section reqs t :
  in_functional current_section = false ->
  scan_line (current_section, reqs) ("-"%char :: t) = (current_section, reqs).
Proof.
  intro H. unfold scan_line, strip, lstrip.
  rewrite dropwhile_stop by reflexivity. rewrite rstrip_cons_keep by reflexivity.
  cbn [is_empty]. now rewrite dash_line_no_heading, H.
Qed.

(** X4.  The section that captures bullets is found by a substring: after a
    heading whose text, trimmed and in lower case, holds
    [functional requirements] anywhere (so also after
    [Non-Functional Requirements]) a bullet is captured with its text
    collapsed; a bullet is ignored whenever the current section does not
    hold that phrase. *)
Theorem section_by_substring :
  forall current_section reqs heading ds rest pre post w u c,
    ~ In "010"%char heading ->
    strip heading = ds ++ "."%char :: rest ->
    ds <> [] -> forallb isdigit ds = true -> rest <> [] ->
    lower (strip rest) = pre ++ str "functional requirements" ++ post ->
    w <> [] -> forallb isspace w = true ->
    lstrip u = u -> last_char u = Some c -> isspace c = false ->
    c <> "]"%char -> ~ In "010"%char u ->
    scan_line (scan_line (current_section, reqs) heading) ("-"%char :: w ++ u)
    = (Some (lower (strip rest)), reqs ++ [collapse u]) /\
    (forall other t,
        in_functional other = false ->
        scan_line (other, reqs) ("-"%char :: t) = (other, reqs)).
Proof.
  intros cur reqs heading ds rest pre post w u c Hnl Hh Hne Hds Hrest Hsec
         Hw Hws Hu Hl Hc Hb Hunl.
  split.
  - rewrite (scan_line_heading cur reqs heading ds rest Hnl Hh Hne Hds Hrest).
    apply scan_line_plain_bullet with (c := c); try assumption.
    unfold in_functional. rewrite Hsec, contains_middle.
    destruct pre; reflexivity.
  - intros other t H. now apply scan_line_bullet_outside.
Qed.

Lemma section_by_substring_witness :
  scan_line (scan_line (Some (str "functional requirements"), [str "Add login"])
                       (str "4. Non-Functional Requirements"))
            ("-"%char :: str " " ++ str "fast  start")
  = (Some (lower (strip (str " Non-Functional Requirements"))),
     [str "Add login"] ++ [collapse (str "fast  start")]).
Proof.
  refine (proj1 (section_by_substring
                   (Some (str "functional requirements")) [str "Add login"]
                   (str "4. Non-Functional Requirements")
                   (str "4") (str " Non-Functional Requirements")
                   (str "non-") [] (str " ") (str "fast  start") "t"%char
                   _ _ _ _ _ _ _ _ _ _ _ _ _));
    try reflexivity; try discriminate; simpl; intuition discriminate.
Defined.

(** *** Cleaning twice *)




End ExtractorMore.

(* ================================================================== *)
(** ** More about the story synthesizer *)

Module SynthesizerMore.
Import PyStr Re llm_client jira_client main Shapes PyStrFacts ReFacts StoryFacts
       LineFacts ExtractorMore.

Lemma firstn_In (l : list text) : forall n x, In x (firstn n l) -> In x l.
Proof.
  induction l as [|y l IH]; intros [|n] x H; simpl in H; try contradiction.
  destruct H as [<- | H]; [now left | right; exact (IH _ _ H)].
Qed.

Lemma NoDup_firstn_map (l : list text) n :
  NoDup (map lower l) -> NoDup (map lower (firstn n l)).
Proof.
  revert n. induction l as [|x l IH]; intros [|n] H; simpl; try constructor.
  - inversion H as [|? ? Hx Hl]; subst. intro Hin. apply Hx.
    apply in_map_iff in Hin as (y & E & Hy). apply in_map_iff. exists y.
    split; [exact E|]. exact (firstn_In _ n _ Hy).
  - inversion H; subst. now apply IH.
Qed.

Lemma dedup_cap_prefix cap stories :
  dedup_cap cap stories = firstn (Z.to_nat (Z.max 1 cap)) (dedup stories).
Proof.
  destruct (Z_le_gt_dec 1 cap) as [H|H].
  - rewrite Z.max_r by lia. now apply dedup_cap_firstn.
  - rewrite Z.max_l by lia. destruct stories as [|s rest]; [reflexivity|].
    rewrite dedup_cap_nonpositive by lia.
    rewrite dedup_firsts. reflexivity.
Qed.

Lemma dedup_cap_nodup cap stories : NoDup (map lower (dedup_cap cap stories)).
Proof. rewrite dedup_cap_prefix. apply NoDup_firstn_map, dedup_nodup. Qed.

Lemma dedup_cap_incl cap stories : incl (dedup_cap cap stories) stories.
Proof.
  rewrite dedup_cap_prefix. intros s H. apply firstn_In in H.
  now apply dedup_subset.
Qed.

(** X6.  For every cap the loop under [# de-dup and cap] returns the first
    [max(1, max_stories)] entries of the list de-duplicated up to case:
    its result has no two entries equal up to case and holds stories of
    the input only. *)
Theorem cap_loop_prefix :
  forall max_stories stories,
    dedup_cap max_stories stories
    = firstn (Z.to_nat (Z.max 1 max_stories)) (dedup stories) /\
    NoDup (map lower (dedup_cap max_stories stories)) /\
    incl (dedup_cap max_stories stories) stories.
Proof.
  intros cap stories. split; [apply dedup_cap_prefix|].
  split; [apply dedup_cap_nodup | apply dedup_cap_incl].
Qed.

(** *** The head of a story *)

Lemma lower_a_not_space c : Ascii.eqb "a" (lower_char c) = true -> isspace c = false.
Proof. each_char c. Qed.

Lemma lower_s_not_space c : Ascii.eqb "s" (lower_char c) = true -> isspace c = false.
Proof. each_char c. Qed.

Lemma lower_i_not_space c : Ascii.eqb "i" (lower_char c) = true -> isspace c = false.
Proof. each_char c. Qed.

Lemma lower_space c : Ascii.eqb " " (lower_char c) = true -> c = " "%char.
Proof. each_char c. Qed.

Lemma lower_a_not_lower_space c :
  Ascii.eqb "a" (lower_char c) = true -> Ascii.eqb " " (lower_char c) = false.
Proof. each_char c. Qed.

Lemma lower_s_not_lower_space c :
  Ascii.eqb "s" (lower_char c) = true -> Ascii.eqb " " (lower_char c) = false.
Proof. each_char c. Qed.

Lemma lower_a_not_lower_i c :
  Ascii.eqb "a" (lower_char c) = true -> Ascii.eqb "i" (lower_char c) = false.
Proof. each_char c. Qed.

Lemma want_not_all_space r :
  contains (str " i want ") (lower r) = true -> forallb isspace r = false.
Proof.
  induction r as [|c r IH]; [intro H; vm_compute in H; discriminate|].
  cbn [lower map contains]. fold (lower r). intro H.
  apply orb_true_iff in H as [H | H].
  - cbn [lower map startswith str list_ascii_of_string] in H.
    destruct r as [|y r];
      [cbn [map startswith] in H; rewrite andb_false_r in H; discriminate|].
    cbn [lower map startswith str list_ascii_of_string] in H.
    apply andb_true_iff in H as [_ H]. apply andb_true_iff in H as [H _].
    cbn [forallb]. rewrite (lower_i_not_space _ H). cbn [andb].
    now rewrite andb_false_r.
  - cbn [forallb]. rewrite (IH H). now rewrite andb_false_r.
Qed.

(** A line that has the form of a story still starts with [as a ], up to
    case, when its white space is collapsed and it is cut to 280
    characters. *)
Lemma story_head x :
  conforms x = true ->
  startswith (str "as a ") (lower (firstn 280 (collapse x))) = true.
Proof.
  unfold conforms. intro H. apply andb_true_iff in H as [Hs Hc].
  destruct x as [|c1 [|c2 [|c3 [|c4 [|c5 rest]]]]];
    cbn [lower map startswith str list_ascii_of_string] in Hs;
    rewrite ?andb_false_r in Hs; try discriminate.
  apply andb_true_iff in Hs as [H1 Hs]. apply andb_true_iff in Hs as [H2 Hs].
  apply andb_true_iff in Hs as [H3 Hs]. apply andb_true_iff in Hs as [H4 Hs].
  rewrite ?andb_true_r in Hs. pose proof Hs as H5.
  pose proof (lower_space _ H3) as E3. pose proof (lower_space _ H5) as E5.
  subst c3 c5.
  assert (R : forallb isspace rest = false).
  { cbn [lower map contains startswith str list_ascii_of_string] in Hc.
    fold (lower rest) in Hc.
    rewrite (lower_a_not_lower_space _ H1), (lower_s_not_lower_space _ H2) in Hc.
    rewrite (lower_a_not_lower_space _ H4), (lower_a_not_lower_i _ H4) in Hc.
    cbn [andb orb] in Hc. change (lower_char " ") with " "%char in Hc.
    cbn [Ascii.eqb Bool.eqb andb orb] in Hc.
    apply orb_true_iff in Hc as [Hc | Hc].
    - destruct rest as [|y rest];
        [cbn [lower map startswith] in Hc; discriminate|].
      cbn [lower map startswith] in Hc. apply andb_true_iff in Hc as [Hc _].
      cbn [forallb]. now rewrite (lower_i_not_space _ Hc).
    - now apply want_not_all_space. }
  unfold collapse, split. cbn [split_from].
  rewrite (lower_a_not_space _ H1), (lower_s_not_space _ H2), (lower_a_not_space _ H4).
  change (isspace " ") with true. cbv iota. cbn [rev app].
  pose proof (split_from_nonempty rest [] (or_intror R)) as N.
  destruct (split_from [] rest) as [|t toks]; [congruence|].
  change (join (str " ") ([c1; c2] :: [c4] :: t :: toks))
    with (c1 :: c2 :: " "%char :: c4 :: " "%char :: join (str " ") (t :: toks)).
  cbn [firstn lower map startswith str list_ascii_of_string].
  rewrite H1, H2, H4. reflexivity.
Qed.

Lemma parse_stories_heads raw :
  Forall (fun story => length story <= 280 /\
                       startswith (str "as a ") (lower story) = true)
         (parse_stories raw).
Proof.
  unfold parse_stories. induction (reply_lines raw) as [|ln lines IH];
    [constructor|].
  cbn [flat_map]. apply Forall_app. split; [|exact IH].
  unfold story_of_line. fold (conforms (marker_sub ln)).
  destruct (conforms (marker_sub ln)) eqn:C; constructor; [|constructor].
  split; [rewrite length_firstn; lia | now apply story_head].
Qed.

(** X7.  [generate_stories] answers a missing or empty document with an error
    object, whatever the backend would do, and only then.  When it answers
    with stories there are at most 50 of them, no two equal up to case,
    each of at most 280 characters and each starting, up to case, with
    [as a ].  It gives no answer only when the request to the backend
    fails. *)
Theorem generate_stories_answer :
  forall (NFKC : text -> text) (generate : text -> option text) srs_document,
    (or_text srs_document [] = [] ->
     generate_stories NFKC generate srs_document
     = Some (StoriesError (str "Missing srs_document"))) /\
    match generate_stories NFKC generate srs_document with
    | Some (Stories stories) =>
        length stories <= 50 /\ NoDup (map lower stories) /\
        Forall (fun story => length story <= 280 /\
                             startswith (str "as a ") (lower story) = true) stories
    | Some (StoriesError msg) => or_text srs_document [] = []
    | None =>
        generate (stories_prompt
                    (extract_requirement_lines NFKC (or_text srs_document []))) = None
    end.
Proof.
  intros NFKC generate srs_document. unfold generate_stories.
  destruct (or_text srs_document []) as [|c srs] eqn:E; [split; reflexivity|].
  split; [discriminate|]. cbn [is_empty]. unfold srs_to_user_stories.
  destruct (extract_requirement_lines NFKC (c :: srs)) as [|r reqs].
  - cbn [option_map]. repeat split; [simpl; lia | constructor | constructor].
  - unfold _ask. destruct (generate (stories_prompt (r :: reqs))) as [raw|];
      [|reflexivity].
    cbn [option_map].
    split; [|split].
    + rewrite dedup_cap_prefix, length_firstn.
      change (Z.to_nat (Z.max 1 50)) with 50. lia.
    + apply dedup_cap_nodup.
    + apply Forall_forall. intros story H. apply dedup_cap_incl in H.
      pose proof (parse_stories_heads (strip raw)) as F.
      rewrite Forall_forall in F. now apply F.
Qed.

End SynthesizerMore.

(* ================================================================== *)
(** ** The upload endpoint *)

Module UploadSpec.
Import PyStr llm_client jira_client main Shapes PyStrFacts LineFacts NormalizerSpec.

Lemma classify_feedback_cases generate ln label reason :
  classify_feedback generate ln = Some (label, reason) ->
  reason = ln /\
  (label = str "Bug" \/ label = str "Feature" \/ label = str "Other").
Proof.
  unfold classify_feedback. destruct (_ask generate (CLASSIFY_PROMPT ln)) as [out|];
    [|discriminate].
  cbv zeta.
  destruct (startswith (str "bug report") (strip (lower out))
            || startswith (str "bug") (strip (lower out)));
    [intro H; inversion H; tauto|].
  destruct (startswith (str "feature request") (strip (lower out))
            || startswith (str "feature") (strip (lower out)));
    intro H; inversion H; tauto.
Qed.

Lemma classify_feedback_none generate ln :
  classify_feedback generate ln = None -> generate (CLASSIFY_PROMPT ln) = None.
Proof.
  unfold classify_feedback, _ask.
  destruct (generate (CLASSIFY_PROMPT ln)); [discriminate | reflexivity].
Qed.

Lemma classify_feedback_some generate ln r :
  classify_feedback generate ln = Some r -> generate (CLASSIFY_PROMPT ln) <> None.
Proof.
  unfold classify_feedback, _ask.
  destruct (generate (CLASSIFY_PROMPT ln)); [discriminate | discriminate].
Qed.

Lemma count_label_app label a b :
  count_label label (a ++ b) = (count_label label a + count_label label b)%Z.
Proof. unfold count_label. rewrite filter_app, length_app. lia. Qed.

Lemma bump_label e b f o :
  e_classification e = str "Bug" \/ e_classification e = str "Feature"
  \/ e_classification e = str "Other" ->
  bump (e_classification e) [(str "Bug", b); (str "Feature", f); (str "Other", o)]
  = Some [ (str "Bug", (b + count_label (str "Bug") [e])%Z);
           (str "Feature", (f + count_label (str "Feature") [e])%Z);
           (str "Other", (o + count_label (str "Other") [e])%Z) ].
Proof.
  unfold count_label. cbn [filter].
  intros [-> | [-> | ->]]; cbn; rewrite ?Z.add_0_r; reflexivity.
Qed.

Section Loop.

Variable backend : list text -> text -> option text.

Lemma answered_nil log : answered backend log [].
Proof. intros past prompt rest E. destruct past; discriminate. Qed.

Lemma answered_cons log x sent :
  backend log x <> None -> answered backend (log ++ [x]) sent ->
  answered backend log (x :: sent).
Proof.
  intros Hx H past prompt rest E. destruct past as [|y past].
  - injection E as <- _. now rewrite app_nil_r.
  - injection E as <- E. specialize (H past prompt rest E).
    now rewrite <- app_assoc in H.
Qed.

Lemma answered_snoc sent : forall log x,
  answered backend log sent -> backend (log ++ sent) x <> None ->
  answered backend log (sent ++ [x]).
Proof.
  induction sent as [|y sent IH]; intros log x H Hx.
  - rewrite app_nil_r in Hx. apply answered_cons; [exact Hx | apply answered_nil].
  - cbn [app]. apply answered_cons.
    + specialize (H [] y sent eq_refl). now rewrite app_nil_r in H.
    + apply IH.
      * intros past prompt rest E. specialize (H (y :: past) prompt rest).
        rewrite <- app_assoc. apply H. now rewrite E.
      * now rewrite <- app_assoc.
Qed.

Lemma classified_nil log : classified backend log [].
Proof. intros past e rest E. destruct past; discriminate. Qed.

Lemma classified_cons log e entries :
  classify_feedback (backend log) (e_review e) = Some (e_classification e, e_reasoning e) ->
  classified backend (log ++ [CLASSIFY_PROMPT (e_review e)]) entries ->
  classified backend log (e :: entries).
Proof.
  intros He H past x rest E. destruct past as [|y past].
  - injection E as <- _. cbn [map]. now rewrite app_nil_r.
  - injection E as <- E. specialize (H past x rest E).
    cbn [map]. now rewrite <- app_assoc in H.
Qed.

Lemma classify_lines_spec lines : forall b f o entries log,
  match classify_lines backend lines
          [(str "Bug", b); (str "Feature", f); (str "Other", o)] entries log with
  | (Done (summary, entries'), log') =>
      exists new,
        entries' = entries ++ new /\ map e_review new = lines /\
        Forall sound_entry new /\ classified backend log new /\
        summary = [ (str "Bug", (b + count_label (str "Bug") new)%Z);
                    (str "Feature", (f + count_label (str "Feature") new)%Z);
                    (str "Other", (o + count_label (str "Other") new)%Z) ] /\
        log' = log ++ map CLASSIFY_PROMPT lines /\
        answered backend log (map CLASSIFY_PROMPT lines)
  | (Failed BackendError, log') =>
      exists past line rest,
        lines = past ++ line :: rest /\
        log' = log ++ map CLASSIFY_PROMPT past ++ [CLASSIFY_PROMPT line] /\
        answered backend log (map CLASSIFY_PROMPT past) /\
        backend (log ++ map CLASSIFY_PROMPT past) (CLASSIFY_PROMPT line) = None
  | (Failed _, _) => False
  end.
Proof.
  induction lines as [|ln rest IH]; intros b f o entries log.
  - cbn [classify_lines]. exists []. rewrite !app_nil_r.
    unfold count_label. cbn. rewrite !Z.add_0_r.
    repeat split; [constructor | apply classified_nil | apply answered_nil].
  - cbn [classify_lines].
    destruct (classify_feedback (backend log) ln) as [[label reason]|] eqn:C.
    2:{ exists [], ln, rest. cbn [map app]. rewrite app_nil_r.
        repeat split; [apply answered_nil | now apply classify_feedback_none]. }
    destruct (classify_feedback_cases _ _ _ _ C) as (-> & L).
    set (e := {| e_review := ln; e_classification := label; e_reasoning := ln |}).
    assert (Se : sound_entry e) by (split; [reflexivity | exact L]).
    change label with (e_classification e) at 1.
    rewrite (bump_label e b f o L).
    specialize (IH (b + count_label (str "Bug") [e])%Z
                   (f + count_label (str "Feature") [e])%Z
                   (o + count_label (str "Other") [e])%Z
                   (entries ++ [e]) (log ++ [CLASSIFY_PROMPT ln])).
    destruct (classify_lines backend rest
                [(str "Bug", (b + count_label (str "Bug") [e])%Z);
                 (str "Feature", (f + count_label (str "Feature") [e])%Z);
                 (str "Other", (o + count_label (str "Other") [e])%Z)]
                (entries ++ [e]) (log ++ [CLASSIFY_PROMPT ln]))
      as [[[summary entries']|[code detail| |key]] log'].
    + destruct IH as (new & -> & Hm & Hs & Hcl & -> & -> & Ha).
      exists (e :: new). rewrite <- !app_assoc. cbn [app map e_review e].
      rewrite Hm. split; [reflexivity|]. split; [reflexivity|].
      split; [now constructor|]. split; [|split; [|split]].
      * apply classified_cons; [exact C | exact Hcl].
      * change (e :: new) with ([e] ++ new). rewrite !count_label_app.
        now rewrite !Z.add_assoc.
      * reflexivity.
      * apply answered_cons; [exact (classify_feedback_some _ _ _ C) | exact Ha].
    + exact IH.
    + destruct IH as (past & line & rest' & -> & -> & Ha & Hn).
      exists (ln :: past), line, rest'. cbn [map app].
      split; [reflexivity|]. split; [now rewrite <- !app_assoc|]. split.
      * apply answered_cons; [exact (classify_feedback_some _ _ _ C) | exact Ha].
      * now rewrite <- app_assoc in Hn.
    + exact IH.
Qed.

End Loop.

Lemma tally_total entries :
  Forall sound_entry entries ->
  (count_label (str "Bug") entries + count_label (str "Feature") entries
   + count_label (str "Other") entries)%Z = Z.of_nat (length entries).
Proof.
  intro H. induction H as [|e entries [_ L] _ IH].
  - reflexivity.
  - change (e :: entries) with ([e] ++ entries). rewrite !count_label_app.
    rewrite length_app. cbn [length].
    assert (count_label (str "Bug") [e] + count_label (str "Feature") [e]
            + count_label (str "Other") [e] = 1)%Z.
    { unfold count_label. cbn [filter].
      destruct L as [-> | [-> | ->]]; reflexivity. }
    lia.
Qed.

(** X8.  The account of a run of [process_txt], from the decoded text of
    the upload on.  A file whose name does not end in [.txt], and a text
    without a review line, are refused with the status 400 and nothing is
    asked of the backend.  Otherwise the backend is asked once for each
    review, in order, and then once for the document, until a request
    fails: the run ends with the failure of the first request that the
    backend did not answer, the requests before it having been answered.
    When every request is answered the answer has one entry for each
    review, in order, each with what [classify_feedback] gave for it;
    [total_reviews] is their number; the summary holds the number of
    entries of each label, which add up to [total_reviews]; the document
    is what [generate_srs] gave for the entries.  No run ends in a
    [KeyError]. *)
Theorem process_txt_account :
  forall (backend : list text -> text -> option text) filename content log,
    (endswith (str ".txt") filename = false ->
     process_txt backend filename content log
     = (Failed (HTTPException 400 (str "Please upload a .txt file")), log)) /\
    (endswith (str ".txt") filename = true -> review_lines content = [] ->
     process_txt backend filename content log
     = (Failed (HTTPException 400 (str "No reviews found in file")), log)) /\
    (endswith (str ".txt") filename = true -> review_lines content <> [] ->
     match process_txt backend filename content log with
     | (Done r, log') =>
         map e_review (classifications r) = review_lines content /\
         total_reviews r = length (review_lines content) /\
         classified backend log (classifications r) /\
         Forall sound_entry (classifications r) /\
         classification_summary r = tally (classifications r) /\
         (count_label (str "Bug") (classifications r)
          + count_label (str "Feature") (classifications r)
          + count_label (str "Other") (classifications r))%Z
         = Z.of_nat (total_reviews r) /\
         log' = log ++ map CLASSIFY_PROMPT (review_lines content)
                    ++ [srs_prompt_of (classifications r)] /\
         answered backend log
           (map CLASSIFY_PROMPT (review_lines content)
            ++ [srs_prompt_of (classifications r)]) /\
         generate_srs (backend (log ++ map CLASSIFY_PROMPT (review_lines content)))
           (map (fun c => (e_review c, e_classification c, e_reasoning c))
                (classifications r))
         = Some (srs_document r)
     | (Failed BackendError, log') =>
         exists sent prompt,
           log' = log ++ sent ++ [prompt] /\
           answered backend log sent /\
           backend (log ++ sent) prompt = None /\
           ((exists past line rest,
                review_lines content = past ++ line :: rest /\
                sent = map CLASSIFY_PROMPT past /\ prompt = CLASSIFY_PROMPT line) \/
            (exists entries,
                map e_review entries = review_lines content /\
                classified backend log entries /\
                sent = map CLASSIFY_PROMPT (review_lines content) /\
                prompt = srs_prompt_of entries))
     | (Failed _, _) => False
     end).
Proof.
  intros backend filename content log. unfold process_txt.
  split; [|split].
  - now intros ->.
  - now intros -> ->.
  - intros -> Hne. cbn [negb].
    destruct (review_lines content) as [|l lines] eqn:R; [congruence|]. clear Hne.
    pose proof (classify_lines_spec backend (l :: lines) 0 0 0 [] log) as S.
    destruct (classify_lines backend (l :: lines)
                [(str "Bug", 0%Z); (str "Feature", 0%Z); (str "Other", 0%Z)] [] log)
      as [[[summary entries]|[code detail| |key]] log'];
      [| contradiction | | contradiction].
    + destruct S as (new & E & Hm & Hs & Hcl & -> & -> & Ha).
      cbn [app] in E. subst entries. unfold generate_srs.
      fold (srs_prompt_of new).
      destruct (_ask (backend (log ++ map CLASSIFY_PROMPT (l :: lines)))
                  (srs_prompt_of new)) as [srs_text|] eqn:A.
      * cbn [total_reviews classifications classification_summary srs_document].
        assert (Len : length (l :: lines) = length new)
          by (rewrite <- Hm; now rewrite length_map).
        split; [exact Hm|]. split; [reflexivity|]. split; [exact Hcl|].
        split; [exact Hs|]. split; [reflexivity|].
        split; [rewrite (tally_total new Hs); now rewrite Len|].
        split; [now rewrite <- app_assoc|]. split; [|exact A].
        apply answered_snoc; [exact Ha|]. unfold _ask in A.
        destruct (backend (log ++ map CLASSIFY_PROMPT (l :: lines)) (srs_prompt_of new));
          discriminate.
      * exists (map CLASSIFY_PROMPT (l :: lines)), (srs_prompt_of new).
        split; [now rewrite <- app_assoc|]. split; [exact Ha|]. split.
        -- unfold _ask in A.
           destruct (backend (log ++ map CLASSIFY_PROMPT (l :: lines)) (srs_prompt_of new));
             [discriminate | reflexivity].
        -- right. exists new. repeat split; assumption.
    + destruct S as (past & line & rest & E & -> & Ha & Hn).
      exists (map CLASSIFY_PROMPT past), (CLASSIFY_PROMPT line).
      split; [reflexivity|]. split; [exact Ha|]. split; [exact Hn|].
      left. now exists past, line, rest.
Qed.

Lemma process_txt_account_witness :
  process_txt backend_bug (str "notes.md") (str "App crashes on start") []
  = (Failed (HTTPException 400 (str "Please upload a .txt file")), []) /\
  process_txt backend_bug (str "reviews.txt") (str " a" ++ nl ++ str "  ") []
  = (Failed (HTTPException 400 (str "No reviews found in file")), []) /\
  match process_txt backend_bug (str "reviews.txt")
          (str "App crashes on start" ++ nl ++ str "ok" ++ nl ++ str "Add dark mode") []
  with
  | (Done r, log') =>
      map e_review (classifications r) = [str "App crashes on start"; str "Add dark mode"] /\
      total_reviews r = 2
  | (Failed _, _) => False
  end.
Proof.
  split; [|split].
  - apply (proj1 (process_txt_account backend_bug (str "notes.md")
                    (str "App crashes on start") [])). reflexivity.
  - apply (proj1 (proj2 (process_txt_account backend_bug (str "reviews.txt")
                           (str " a" ++ nl ++ str "  ") []))); reflexivity.
  - pose proof (proj2 (proj2 (process_txt_account backend_bug (str "reviews.txt")
                  (str "App crashes on start" ++ nl ++ str "ok" ++ nl
                   ++ str "Add dark mode") []))
                  eq_refl ltac:(vm_compute; discriminate)) as H.
    destruct (process_txt backend_bug (str "reviews.txt")
                (str "App crashes on start" ++ nl ++ str "ok" ++ nl
                 ++ str "Add dark mode") [])
      as [[r|[code detail| |key]] log'].
    + destruct H as (H1 & H2 & _). split.
      * rewrite H1. vm_compute. reflexivity.
      * rewrite H2. vm_compute. reflexivity.
    + exact H.
    + destruct H as (sent & prompt & _ & _ & Hn & _). discriminate.
    + exact H.
Defined.

(** *** The reviews *)

Lemma splitlines_from_no_break n : forall s cur raw,
  length s <= n -> forallb (fun c => negb (is_linebreak c)) cur = true ->
  In raw (splitlines_from cur s) ->
  forallb (fun c => negb (is_linebreak c)) raw = true.
Proof.
  assert (Rev : forall cur, forallb (fun c => negb (is_linebreak c)) cur = true ->
                            forallb (fun c => negb (is_linebreak c)) (rev cur) = true).
  { intros cur H. rewrite forallb_forall in *. intros x Hx. apply H.
    now apply in_rev. }
  induction n as [|n IH]; intros s cur raw L Hcur H.
  - destruct s; [|simpl in L; lia]. simpl in H.
    destruct cur; [contradiction|]. destruct H as [<- | []]. now apply Rev.
  - destruct s as [|c t].
    + simpl in H. destruct cur; [contradiction|]. destruct H as [<- | []].
      now apply Rev.
    + simpl in L. cbn [splitlines_from] in H.
      destruct (Ascii.eqb c "013").
      * destruct t as [|c' t'].
        -- destruct H as [<- | H]; [now apply Rev|]. simpl in H. contradiction.
        -- destruct (Ascii.eqb c' "010").
           ++ destruct H as [<- | H]; [now apply Rev|].
              apply (IH t' [] raw); [simpl in L; lia | reflexivity | assumption].
           ++ destruct H as [<- | H]; [now apply Rev|].
              apply (IH (c' :: t') [] raw); [lia | reflexivity | assumption].
      * destruct (is_linebreak c) eqn:Elb.
        -- destruct H as [<- | H]; [now apply Rev|].
           apply (IH t [] raw); [lia | reflexivity | assumption].
        -- apply (IH t (c :: cur) raw); [lia | | assumption].
           cbn [forallb]. now rewrite Elb, Hcur.
Qed.

(** X9.  Every review that [process_txt] classifies has at least three
    characters, no white space at either end, no NUL character and no
    line boundary inside. *)
Theorem review_lines_shape :
  forall content,
    Forall (fun l => 3 <= length l /\ strip l = l /\ ~ In zero l /\
                     forallb (fun c => negb (is_linebreak c)) l = true)
           (review_lines content).
Proof.
  intro content. unfold review_lines. apply Forall_forall. intros l H.
  apply filter_In in H as [H L]. apply Nat.leb_le in L.
  apply in_map_iff in H as (raw & <- & H).
  split; [exact L|]. split; [apply strip_idem|]. split.
  - intro Hz. apply strip_In in Hz.
    assert (Hc : In zero (final_cleanup content)).
    { clear - H Hz. unfold splitlines in H.
      assert (G : forall s cur, In raw (splitlines_from cur s) ->
                                In zero raw -> In zero cur \/ In zero s).
      { intro s. remember (length s) as n eqn:En.
        assert (Ln : length s <= n) by lia. clear En. revert s Ln.
        induction n as [|n IH]; intros s Ln cur Hr Hzr.
        - destruct s; [|simpl in Ln; lia]. simpl in Hr.
          destruct cur; [contradiction|]. destruct Hr as [<- | []].
          left. now apply in_rev.
        - destruct s as [|c t].
          + simpl in Hr. destruct cur; [contradiction|]. destruct Hr as [<- | []].
            left. now apply in_rev.
          + simpl in Ln. cbn [splitlines_from] in Hr.
            assert (Here : rev cur = raw -> In zero cur \/ In zero (c :: t))
              by (intros <-; left; now apply in_rev).
            assert (Later : forall t0, length t0 <= n ->
                       (In zero t0 -> In zero (c :: t)) ->
                       In raw (splitlines_from [] t0) ->
                       In zero cur \/ In zero (c :: t)).
            { intros t0 L0 Sub Hin. destruct (IH t0 L0 [] Hin Hzr) as [[]|Hz0].
              right. now apply Sub. }
            destruct (Ascii.eqb c "013").
            * destruct t as [|c' t'].
              -- destruct Hr as [E | Hr]; [now apply Here | contradiction].
              -- destruct (Ascii.eqb c' "010").
                 ++ destruct Hr as [E | Hr]; [now apply Here|].
                    apply (Later t'); [simpl in Ln; lia | | assumption].
                    intro Hx. right. now right.
                 ++ destruct Hr as [E | Hr]; [now apply Here|].
                    apply (Later (c' :: t')); [lia | | assumption].
                    intro Hx. now right.
            * destruct (is_linebreak c).
              -- destruct Hr as [E | Hr]; [now apply Here|].
                 apply (Later t); [lia | | assumption]. intro Hx. now right.
              -- destruct (IH t ltac:(lia) (c :: cur) Hr Hzr) as [[<- | Hz0] | Hz0].
                 ++ right. now left.
                 ++ now left.
                 ++ right. now right. }
      destruct (G _ _ H Hz) as [[] | Hs]. exact Hs. }
    unfold final_cleanup in Hc. apply strip_In in Hc. exact (remove_nul _ Hc).
  - assert (B : forallb (fun c => negb (is_linebreak c)) raw = true).
    { apply (splitlines_from_no_break (length (final_cleanup content))
               (final_cleanup content) [] raw); [lia | reflexivity | exact H]. }
    rewrite forallb_forall in *. intros x Hx. apply B. now apply strip_In.
Qed.

End UploadSpec.

(* ================================================================== *)
(** ** The Jira client and the batch endpoints, for every input *)

Module JiraSpec.
Import PyStr PyRun jira_client main Shapes PyStrFacts NormalizerSpec DriverSpec.

(** *** [labels_for_item] *)

Lemma lower_idem s : lower (lower s) = lower s.
Proof.
  unfold lower. rewrite map_map. apply map_ext. intro c. apply lower_char_idem.
Qed.

Lemma or_text_lower kind : or_text (option_map lower kind) [] = lower (or_text kind []).
Proof. destruct kind as [[|c s]|]; reflexivity. Qed.

Lemma dashed_shape s :
  let d := map (fun c => if Ascii.eqb c " " then "-"%char else c) (lower s) in
  lower d = d /\ ~ In " "%char d.
Proof.
  cbv zeta. split.
  - unfold lower. rewrite !map_map. apply map_ext. intro c.
    destruct (Ascii.eqb (lower_char c) " "); [reflexivity | apply lower_char_idem].
  - intro H. apply in_map_iff in H as (c & E & _).
    destruct (Ascii.eqb c " ") eqn:Ec; [discriminate|].
    subst c. now rewrite Ascii.eqb_refl in Ec.
Qed.

Lemma labels_for_item_cases kind subtype :
  exists first rest,
    labels_for_item kind subtype = first :: rest /\ In first kind_labels /\
    (rest = [] \/
     first = str "nfr" /\ truthy subtype = true /\
     rest = [str "nfr-" ++ map (fun c => if Ascii.eqb c " " then "-"%char else c)
                               (lower (or_text subtype []))]).
Proof.
  unfold labels_for_item, kind_labels. cbv zeta.
  destruct (text_eqb (lower (or_text kind [])) (str "bug")).
  { exists (str "bug"), []. cbn [In]. tauto. }
  destruct (mem (lower (or_text kind []))
              [str "feature"; str "fr"; str "functional requirement"]).
  { exists (str "feature"), []. cbn [In]. tauto. }
  destruct (mem (lower (or_text kind [])) [str "nfr"; str "non-functional requirement"]).
  2:{ exists (str "other"), []. cbn [In]. tauto. }
  destruct (truthy subtype) eqn:T.
  - eexists (str "nfr"), _. cbn [app In]. split; [reflexivity|]. split; [tauto|].
    right. repeat split.
  - exists (str "nfr"), []. cbn [In app]. tauto.
Qed.

(** X10.  [labels_for_item] gives one label that names the kind, [bug],
    [feature], [nfr] or [other], and after [nfr], when a subtype is given,
    one more that starts with [nfr-]; every label is in lower case and has
    no space; the kind is read without regard to case, and a missing or
    empty kind gives [other]. *)
Theorem labels_for_item_shape :
  forall kind subtype,
    (exists first rest,
        labels_for_item kind subtype = first :: rest /\ In first kind_labels /\
        (rest = [] \/
         first = str "nfr" /\ truthy subtype = true /\
         exists sub, rest = [str "nfr-" ++ sub])) /\
    Forall (fun l => lower l = l /\ ~ In " "%char l) (labels_for_item kind subtype) /\
    labels_for_item (option_map lower kind) subtype = labels_for_item kind subtype /\
    (or_text kind [] = [] -> labels_for_item kind subtype = [str "other"]).
Proof.
  intros kind subtype. split; [|split; [|split]].
  - destruct (labels_for_item_cases kind subtype) as (first & rest & E & Hin & Hr).
    exists first, rest. split; [exact E|]. split; [exact Hin|].
    destruct Hr as [-> | (-> & T & ->)]; [now left|]. right. eauto.
  - destruct (labels_for_item_cases kind subtype) as (first & rest & -> & Hin & Hr).
    assert (Hf : lower first = first /\ ~ In " "%char first).
    { unfold kind_labels in Hin. cbn [In] in Hin.
      destruct Hin as [<- | [<- | [<- | [<- | []]]]]; (split; [reflexivity|]);
        vm_compute; intuition discriminate. }
    constructor; [exact Hf|].
    destruct Hr as [-> | (_ & _ & ->)]; [constructor|].
    constructor; [|constructor].
    destruct (dashed_shape (or_text subtype [])) as [D1 D2]. split.
    + unfold lower in *. rewrite map_app. now rewrite D1.
    + intro H. apply in_app_or in H as [H | H]; [|now apply D2].
      vm_compute in H. intuition discriminate.
  - unfold labels_for_item. cbv zeta. now rewrite or_text_lower, lower_idem.
  - intro E. unfold labels_for_item. now rewrite E.
Qed.

(** *** [create_issue] *)

Lemma create_issue_kw env tracker s d l log :
  create_issue env tracker
    [(str "summary", VStr s); (str "description", VStr d); (str "labels", VList l)] log
  = create_issue_body env tracker s d l log.
Proof. reflexivity. Qed.

Lemma clean_text_clean t : ~ In zero (_clean_text t) /\ strip (_clean_text t) = _clean_text t.
Proof.
  unfold _clean_text. destruct (is_empty t).
  - split; [tauto | reflexivity].
  - split; [|apply strip_idem]. intro H. apply strip_In in H. exact (remove_nul _ H).
Qed.

Lemma firstn_In_text n (s : text) c : In c (firstn n s) -> In c s.
Proof.
  revert s. induction n as [|n IH]; intros [|x s] H; try contradiction.
  cbn [firstn] in H. destruct H as [-> | H]; [now left | right; now apply IH].
Qed.

Lemma create_issue_body_unconfigured env tracker s d l log :
  configured env = false ->
  create_issue_body env tracker s d l log = (Raise (RuntimeError missing_env), log).
Proof.
  unfold configured, create_issue_body, bind, _check_env. now intros ->.
Qed.

Lemma create_issue_body_cases env tracker s d l log :
  configured env = true ->
  exists rq,
    clean_request rq /\ rq_labels rq = l /\
    rq_summary rq = firstn 255 (_clean_text s) /\
    rq_description rq = _clean_text d /\
    create_issue_body env tracker s d l log
    = (match tracker log rq with
       | Fails e => Raise e
       | Reply status_code body json_key =>
           if ((status_code =? 200) || (status_code =? 201))%Z
           then match json_key with
                | Ok key => Ok (Created key (rq_summary rq))
                | Raise e => Raise e
                end
           else Ok (Error (str "Jira " ++ str_of_Z status_code ++ str ": " ++ body))
       end, log ++ [rq]).
Proof.
  intro Hc. unfold configured in Hc.
  exists {| rq_url := rev (dropwhile (Ascii.eqb "/") (rev (or_text (JIRA_URL env) [])))
                      ++ str "/rest/api/3/issue";
            rq_project := or_text (JIRA_PROJECT_KEY env) [];
            rq_summary := firstn 255 (_clean_text s);
            rq_description := _clean_text d;
            rq_labels := l |}.
  split; [|split; [reflexivity|split; [reflexivity|split; [reflexivity|]]]].
  - unfold clean_request. cbn [rq_summary rq_description].
    destruct (clean_text_clean s) as [S1 _]. destruct (clean_text_clean d) as [D1 D2].
    repeat split.
    + rewrite length_firstn. lia.
    + intro H. apply S1. exact (firstn_In_text _ _ _ H).
    + exact D1.
    + exact D2.
  - unfold create_issue_body, bind, _check_env, post. rewrite Hc. unfold ret at 1.
    cbn [rq_summary].
    match goal with
    | |- context [tracker log ?rq] => destruct (tracker log rq) as [code body key|e]
    end; [|reflexivity].
    destruct ((code =? 200) || (code =? 201))%Z; [|reflexivity].
    destruct key; reflexivity.
Qed.

(** X11.  The account of a call of [create_issue] with its parameters bound.
    With an incomplete configuration it raises [RuntimeError] and posts
    nothing.  With a complete one it posts exactly one request, with the
    labels given, the first 255 characters of the cleaned summary and the
    cleaned description, neither with a NUL.  A reply with the status
    code 200 or 201 gives an issue, with the key read from the reply and
    the summary as posted, or, when the reply cannot be read as a JSON
    object, the exception of that reading; a reply with any other code
    gives an error object with the code and the text of the reply.  The
    call raises nothing else than the exception of the request or of the
    reading of the reply. *)
Theorem create_issue_account :
  forall env tracker summary description labels log,
    if configured env then
      exists rq,
        snd (create_issue_body env tracker summary description labels log) = log ++ [rq] /\
        clean_request rq /\ rq_labels rq = labels /\
        rq_summary rq = firstn 255 (_clean_text summary) /\
        rq_description rq = _clean_text description /\
        match fst (create_issue_body env tracker summary description labels log) with
        | Raise e =>
            tracker log rq = Fails e \/
            exists status_code body,
              tracker log rq = Reply status_code body (Raise e) /\
              (status_code = 200 \/ status_code = 201)%Z
        | Ok (Created key s) =>
            s = rq_summary rq /\
            exists status_code body,
              tracker log rq = Reply status_code body (Ok key) /\
              (status_code = 200 \/ status_code = 201)%Z
        | Ok (Error msg) =>
            exists status_code body json_key,
              tracker log rq = Reply status_code body json_key /\
              status_code <> 200%Z /\ status_code <> 201%Z /\
              msg = str "Jira " ++ str_of_Z status_code ++ str ": " ++ body
        end
    else
      create_issue_body env tracker summary description labels log
      = (Raise (RuntimeError missing_env), log).
Proof.
  intros env tracker summary description labels log.
  destruct (configured env) eqn:Hc;
    [|now apply create_issue_body_unconfigured].
  destruct (create_issue_body_cases env tracker summary description labels log Hc)
    as (rq & Hclean & Hl & Hs & Hd & ->).
  exists rq. cbn [fst snd].
  split; [reflexivity|]. split; [exact Hclean|]. split; [exact Hl|].
  split; [exact Hs|]. split; [exact Hd|].
  destruct (tracker log rq) as [code body key|e]; [|now left].
  destruct ((code =? 200) || (code =? 201))%Z eqn:E.
  - assert (Hcode : (code = 200 \/ code = 201)%Z)
      by (apply orb_true_iff in E as [E | E]; apply Z.eqb_eq in E; tauto).
    destruct key as [key|e].
    + split; [reflexivity|]. now exists code, body.
    + right. now exists code, body.
  - apply orb_false_iff in E as [E1 E2]. apply Z.eqb_neq in E1, E2.
    exists code, body, key. repeat split; assumption.
Qed.

(** *** The endpoint for classified reviews *)

Lemma prefix_kept p s :
  In p [str "[BUG]"; str "[NFR]"; str "[FEATURE]"] ->
  startswith p (firstn 255 (_clean_text (p ++ str " " ++ s))) = true.
Proof.
  assert (R : forall c t, Ascii.eqb zero c = false ->
                          remove [zero] (c :: t) = c :: remove [zero] t).
  { intros c t E. unfold remove. cbn [remove_from startswith]. now rewrite E. }
  assert (B : forall c t, isspace c = false -> strip (c :: t) = c :: rstrip t).
  { intros c t E. unfold strip, lstrip. cbn [dropwhile]. rewrite E.
    now apply rstrip_cons_keep. }
  cbn [In]. unfold _clean_text.
  intros [<- | [<- | [<- | []]]]; cbn [str list_ascii_of_string app is_empty];
    rewrite !R by reflexivity; rewrite B by reflexivity;
    rewrite !rstrip_cons_keep by reflexivity; reflexivity.
Qed.

Section Batch.

Variable env : jira_env.
Variable tracker : list issue_request -> issue_request -> http_reply.

Lemma send_classifications_loop_account :
  configured env = true ->
  forall items created failed log,
  exists posted,
    snd (send_classifications_loop env tracker items created failed log) = log ++ posted /\
    Forall (fun rq => clean_request rq /\ prefixed_request rq) posted /\
    length posted <= length (filter (fun it => negb (blank_review it)) items) /\
    match fst (send_classifications_loop env tracker items created failed log) with
    | Ok (Batch c f) =>
        exists c' f',
          c = created ++ c' /\ f = failed ++ f' /\
          length c' + length f' = length items /\
          length posted = length (filter (fun it => negb (blank_review it)) items) /\
          Forall (fun r => exists key rq, r = Created key (rq_summary rq) /\ In rq posted)
                 c' /\
          Forall (fun e => error e <> []) f' /\
          length (filter blank_review items) <= length f'
    | Ok (ErrorObject _) => False
    | Raise e =>
        exists past rq,
          posted = past ++ [rq] /\
          (tracker (log ++ past) rq = Fails e \/
           exists status_code body,
             tracker (log ++ past) rq = Reply status_code body (Raise e) /\
             (status_code = 200 \/ status_code = 201)%Z)
    end.
Proof.
  intro Hc. induction items as [|it items IH]; intros created failed log.
  - exists []. cbn. rewrite app_nil_r. repeat split; try constructor.
    exists [], []. rewrite !app_nil_r. repeat split; constructor.
  - cbn [send_classifications_loop filter].
    change (is_empty (strip (or_text (c_review it) []))) with (blank_review it).
    destruct (blank_review it) eqn:Eb; cbn [negb length].
    + destruct (IH created (failed ++ [{| title := []; error := str "Empty review" |}]) log)
        as (posted & Hlog & Hrq & Hlen & Hres).
      exists posted. repeat split; try assumption.
      destruct (fst (send_classifications_loop env tracker items created
                       (failed ++ [{| title := []; error := str "Empty review" |}]) log))
        as [[msg|c f]|e]; try assumption.
      destruct Hres as (c' & f' & -> & -> & H1 & H2 & H3 & H4 & H5).
      exists c', ({| title := []; error := str "Empty review" |} :: f').
      rewrite <- app_assoc. cbn [app length]. repeat split; try assumption; try lia.
      constructor; [discriminate | assumption].
    + unfold bind. rewrite !create_issue_kw.
      match goal with
      | |- context [create_issue_body env tracker ?s ?d ?l log] =>
          destruct (create_issue_body_cases env tracker s d l log Hc)
            as (rq & Hclean & Hl & Hs & _ & ->)
      end.
      assert (Hp : prefixed_request rq).
      { split.
        - rewrite Hs.
          destruct (mem (str "bug") _).
          + rewrite (prefix_kept (str "[BUG]")) by (cbn; tauto). reflexivity.
          + destruct (mem (str "nfr") _).
            * rewrite (prefix_kept (str "[NFR]")) by (cbn; tauto).
              now rewrite orb_true_r.
            * rewrite (prefix_kept (str "[FEATURE]")) by (cbn; tauto).
              now rewrite orb_true_r.
        - rewrite Hl.
          match goal with
          | |- context [labels_for_item ?k ?st] =>
              destruct (labels_for_item_cases k st) as (first & rest & E & Hin & _)
          end.
          exists first, rest. split; assumption. }
      assert (Later : forall created' failed',
                 (exists c0 f0,
                     created' = created ++ c0 /\ failed' = failed ++ f0 /\
                     length c0 + length f0 = 1 /\
                     Forall (fun r => exists key rq', r = Created key (rq_summary rq')
                                                      /\ rq' = rq) c0 /\
                     Forall (fun e => error e <> []) f0) ->
                 exists posted,
                   snd (send_classifications_loop env tracker items created' failed'
                          (log ++ [rq])) = log ++ posted /\
                   Forall (fun rq0 => clean_request rq0 /\ prefixed_request rq0) posted /\
                   length posted
                   <= S (length (filter (fun it0 => negb (blank_review it0)) items)) /\
                   match fst (send_classifications_loop env tracker items created' failed'
                                (log ++ [rq])) with
                   | Ok (Batch c f) =>
                       exists c' f',
                         c = created ++ c' /\ f = failed ++ f' /\
                         length c' + length f' = S (length items) /\
                         length posted
                         = S (length (filter (fun it0 => negb (blank_review it0)) items)) /\
                         Forall (fun r => exists key rq0,
                                            r = Created key (rq_summary rq0)
                                            /\ In rq0 posted) c' /\
                         Forall (fun e => error e <> []) f' /\
                         length (filter blank_review items) <= length f'
                   | Ok (ErrorObject _) => False
                   | Raise e =>
                       exists past rq0,
                         posted = past ++ [rq0] /\
                         (tracker (log ++ past) rq0 = Fails e \/
                          exists status_code body,
                            tracker (log ++ past) rq0 = Reply status_code body (Raise e) /\
                            (status_code = 200 \/ status_code = 201)%Z)
                   end).
      { intros created' failed' (c0 & f0 & -> & -> & Hone & Hc0 & Hf0).
        destruct (IH (created ++ c0) (failed ++ f0) (log ++ [rq]))
          as (posted & Hlog & Hrq & Hlen & Hres).
        exists (rq :: posted). rewrite Hlog, <- app_assoc. cbn [app length].
        split; [reflexivity|]. split; [constructor; [split|]; assumption|].
        split; [lia|].
        destruct (fst (send_classifications_loop env tracker items
                         (created ++ c0) (failed ++ f0) (log ++ [rq])))
          as [[msg|c f]|e]; try assumption.
        - destruct Hres as (c' & f' & -> & -> & H1 & H2 & H3 & H4 & H5).
          exists (c0 ++ c'), (f0 ++ f'). rewrite <- !app_assoc, !length_app.
          split; [reflexivity|]. split; [reflexivity|]. split; [lia|].
          split; [lia|]. split; [|split].
          + apply Forall_app. split.
            * apply (Forall_impl _ (P := fun r => exists key rq',
                                      r = Created key (rq_summary rq') /\ rq' = rq)); [|exact Hc0].
              intros r (key & rq' & -> & ->). exists key, rq. split; [reflexivity | now left].
            * apply (Forall_impl _ (P := fun r => exists key rq0,
                                      r = Created key (rq_summary rq0) /\ In rq0 posted));
                [|exact H3].
              intros r (key & rq0 & -> & Hin). exists key, rq0.
              split; [reflexivity | now right].
          + apply Forall_app. now split.
          + lia.
        - destruct Hres as (past & rq' & -> & Hf).
          exists (rq :: past), rq'. split; [reflexivity|].
          now rewrite <- app_assoc in Hf. }
      destruct (tracker log rq) as [code body key|e] eqn:T.
      * destruct ((code =? 200) || (code =? 201))%Z eqn:Ecode.
        -- destruct key as [key|e].
           ++ apply Later. exists [Created key (rq_summary rq)], [].
              rewrite app_nil_r. repeat split; try constructor.
              ** now exists key, rq.
              ** constructor.
           ++ exists [rq]. cbn [fst snd length]. split; [reflexivity|].
              split; [constructor; [split; assumption | constructor]|].
              split; [lia|]. exists [], rq. rewrite app_nil_r.
              split; [reflexivity|]. right. exists code, body. split; [exact T|].
              apply orb_true_iff in Ecode as [E | E]; apply Z.eqb_eq in E; tauto.
        -- apply Later.
           exists [], [{| title := strip (or_text (c_review it) []);
                          error := str "Jira " ++ str_of_Z code ++ str ": " ++ body |}].
           rewrite app_nil_r. repeat split; try constructor.
           ++ discriminate.
           ++ constructor.
      * exists [rq]. cbn [fst snd length]. split; [reflexivity|].
        split; [constructor; [split; assumption | constructor]|].
        split; [lia|]. exists [], rq. rewrite app_nil_r.
        split; [reflexivity|]. left. exact T.
Qed.

Lemma send_classifications_loop_unconfigured :
  configured env = false ->
  forall items created failed log,
    send_classifications_loop env tracker items created failed log
    = if forallb blank_review items
      then (Ok (Batch created
                  (failed ++ map (fun _ => {| title := []; error := str "Empty review" |})
                                 items)), log)
      else (Raise (RuntimeError missing_env), log).
Proof.
  intro Hc. induction items as [|it items IH]; intros created failed log.
  - cbn. now rewrite app_nil_r.
  - cbn [send_classifications_loop forallb map]. unfold blank_review at 1.
    destruct (is_empty (strip (or_text (c_review it) []))); cbn [andb].
    + rewrite IH. destruct (forallb blank_review items); [|reflexivity].
      now rewrite <- app_assoc.
    + unfold bind at 1. rewrite create_issue_kw.
      now rewrite create_issue_body_unconfigured.
Qed.

Lemma send_selected_loop_outcome :
  forall items created failed log,
    send_selected_loop env tracker items created failed log
    = if forallb blank_story items
      then (Ok (Batch created
                  (failed ++ map (fun _ => {| title := []; error := str "Empty story" |})
                                 items)), log)
      else (Raise (TypeError
                     (str "create_issue() got an unexpected keyword argument 'classification'")),
            log).
Proof.
  induction items as [|it items IH]; intros created failed log.
  - cbn. now rewrite app_nil_r.
  - cbn [send_selected_loop forallb map]. unfold blank_story at 1.
    destruct (is_empty (strip (or_text (s_user_story it) []))); cbn [andb].
    + rewrite IH. destruct (forallb blank_story items); [|reflexivity].
      now rewrite <- app_assoc.
    + reflexivity.
Qed.

End Batch.

Lemma classifications_in_range env tracker items log :
  1 <= length items <= 10 ->
  jira_send_selected_classifications env tracker (Some items) log
  = send_classifications_loop env tracker items [] [] log.
Proof.
  intro H. destruct items as [|it rest]; [simpl in H; lia|].
  unfold jira_send_selected_classifications. cbv zeta.
  replace (10 <? length (it :: rest)) with false by (symmetry; apply Nat.ltb_ge; lia).
  reflexivity.
Qed.

Lemma selected_in_range env tracker items log :
  1 <= length items <= 10 ->
  jira_send_selected env tracker (Some items) log
  = send_selected_loop env tracker items [] [] log.
Proof.
  intro H. destruct items as [|it rest]; [simpl in H; lia|].
  unfold jira_send_selected. cbv zeta.
  replace (10 <? length (it :: rest)) with false by (symmetry; apply Nat.ltb_ge; lia).
  reflexivity.
Qed.

(** X12.  The account of [jira_send_selected_classifications] under a complete
    configuration, for a list of one to ten items.  When the endpoint
    answers, the answer has one entry, created or failed, for each item;
    every created entry carries the summary of a request that was posted,
    every failed entry a message; the items with a blank review are among
    the failed, and one request was posted for each of the other items.
    Every request posted has a summary of at most 255 characters that
    opens with [BUG], [NFR] or [FEATURE], no NUL, and a first label that
    names a kind.  A reply with a status code other than 200 and 201 does
    not end the batch.  The endpoint raises only the exception of a
    request to the tracker, or of the reading of a reply with the code
    200 or 201 that is not a JSON object; the requests posted before it
    stay posted. *)
Theorem classifications_batch_account :
  forall env tracker items log,
    configured env = true ->
    1 <= length items <= 10 ->
    exists posted,
      snd (jira_send_selected_classifications env tracker (Some items) log)
      = log ++ posted /\
      Forall (fun rq => clean_request rq /\ prefixed_request rq) posted /\
      match fst (jira_send_selected_classifications env tracker (Some items) log) with
      | Ok (Batch created failed) =>
          length created + length failed = length items /\
          length posted = length (filter (fun it => negb (blank_review it)) items) /\
          Forall (fun r => exists key rq, r = Created key (rq_summary rq) /\ In rq posted)
                 created /\
          Forall (fun e => error e <> []) failed /\
          length (filter blank_review items) <= length failed
      | Ok (ErrorObject _) => False
      | Raise e =>
          length posted <= length (filter (fun it => negb (blank_review it)) items) /\
          exists past rq,
            posted = past ++ [rq] /\
            (tracker (log ++ past) rq = Fails e \/
             exists status_code body,
               tracker (log ++ past) rq = Reply status_code body (Raise e) /\
               (status_code = 200 \/ status_code = 201)%Z)
      end.
Proof.
  intros env tracker items log Hc Hlen.
  rewrite (classifications_in_range env tracker items log Hlen).
  destruct (send_classifications_loop_account env tracker Hc items [] [] log)
    as (posted & Hlog & Hrq & Hle & Hres).
  exists posted. split; [exact Hlog|]. split; [exact Hrq|].
  destruct (fst (send_classifications_loop env tracker items [] [] log))
    as [[msg|c f]|e]; [exact Hres | | split; assumption].
  destruct Hres as (c' & f' & -> & -> & H). exact H.
Qed.

Lemma classifications_batch_account_witness :
  exists posted,
    snd (jira_send_selected_classifications env_ok tracker_accepts (Some two_class_items) [])
    = [] ++ posted /\
    Forall (fun rq => clean_request rq /\ prefixed_request rq) posted /\
    match fst (jira_send_selected_classifications env_ok tracker_accepts
                 (Some two_class_items) []) with
    | Ok (Batch created failed) =>
        length created + length failed = length two_class_items /\
        length posted
        = length (filter (fun it => negb (blank_review it)) two_class_items) /\
        Forall (fun r => exists key rq, r = Created key (rq_summary rq) /\ In rq posted)
               created /\
        Forall (fun e => error e <> []) failed /\
        length (filter blank_review two_class_items) <= length failed
    | Ok (ErrorObject _) => False
    | Raise e =>
        length posted
        <= length (filter (fun it => negb (blank_review it)) two_class_items) /\
        exists past rq,
          posted = past ++ [rq] /\
          (tracker_accepts ([] ++ past) rq = Fails e \/
           exists status_code body,
             tracker_accepts ([] ++ past) rq = Reply status_code body (Raise e) /\
             (status_code = 200 \/ status_code = 201)%Z)
    end.
Proof.
  apply (classifications_batch_account env_ok tracker_accepts two_class_items []).
  - reflexivity.
  - simpl. lia.
Defined.

(** X13.  With an incomplete configuration the same endpoint never reaches the
    tracker: a list of one to ten items whose reviews are all blank is
    answered with one failed entry for each item, and any other such list
    ends in the [RuntimeError] of [_check_env], which nothing catches. *)
Theorem classifications_unconfigured :
  forall env tracker items log,
    configured env = false ->
    1 <= length items <= 10 ->
    jira_send_selected_classifications env tracker (Some items) log
    = if forallb blank_review items
      then (Ok (Batch []
                  (map (fun _ => {| title := []; error := str "Empty review" |}) items)),
            log)
      else (Raise (RuntimeError missing_env), log).
Proof.
  intros env tracker items log Hc Hlen.
  rewrite (classifications_in_range env tracker items log Hlen).
  now rewrite send_classifications_loop_unconfigured.
Qed.

Lemma classifications_unconfigured_witness :
  jira_send_selected_classifications env_unset tracker_accepts (Some two_class_items) []
  = (Raise (RuntimeError missing_env), []).
Proof.
  apply (classifications_unconfigured env_unset tracker_accepts two_class_items []).
  - reflexivity.
  - simpl. lia.
Defined.

(** *** The two endpoints that call [create_issue] with a keyword it
    does not have *)

(** X14.  [jira_send_selected] creates nothing, whatever the configuration and
    the tracker: a list of one to ten stories that are all blank is
    answered with one failed entry for each, and any other such list ends
    in the [TypeError] of the call of [create_issue], at the first story
    that is not blank; nothing is posted to the tracker. *)
Theorem jira_send_selected_outcome :
  forall env tracker items log,
    1 <= length items <= 10 ->
    jira_send_selected env tracker (Some items) log
    = if forallb blank_story items
      then (Ok (Batch []
                  (map (fun _ => {| title := []; error := str "Empty story" |}) items)),
            log)
      else (Raise (TypeError
                     (str "create_issue() got an unexpected keyword argument 'classification'")),
            log).
Proof.
  intros env tracker items log Hlen.
  rewrite (selected_in_range env tracker items log Hlen).
  now rewrite send_selected_loop_outcome.
Qed.

Lemma jira_send_selected_outcome_witness :
  jira_send_selected env_ok tracker_accepts (Some two_stories) []
  = (Raise (TypeError
              (str "create_issue() got an unexpected keyword argument 'classification'")),
     []).
Proof.
  apply (jira_send_selected_outcome env_ok tracker_accepts two_stories []).
  simpl. lia.
Defined.

(** X15.  [jira_create] creates nothing either, for every list of items,
    configuration and tracker: each item ends in the failed list, under
    its review, with the message of the [TypeError] for the keyword
    [issuetype], and nothing is posted to the tracker. *)
Theorem jira_create_outcome :
  forall env tracker items log,
    jira_create env tracker items log
    = (Ok (Batch []
             (map (fun it =>
                     {| title := review it;
                        error := str "create_issue() got an unexpected keyword argument 'issuetype'" |})
                  items)),
       log).
Proof.
  intros env tracker items log. unfold jira_create.
  generalize (@nil (issue_result * text)) at 1 2.
  change (map (fun it : JiraItem =>
                 {| title := review it;
                    error := str "create_issue() got an unexpected keyword argument 'issuetype'" |})
              items)
    with ([] ++ map (fun it : JiraItem =>
                 {| title := review it;
                    error := str "create_issue() got an unexpected keyword argument 'issuetype'" |})
              items).
  generalize (@nil failed_entry). revert log.
  induction items as [|it items IH]; intros log failed created.
  - cbn. now rewrite app_nil_r.
  - cbn [jira_create_loop map]. unfold bind at 1, try_except, bind at 1.
    assert (U : forall kw name,
               unexpected_keyword create_issue_params kw = Some name ->
               create_issue env tracker kw log
               = (Raise (TypeError
                           (str "create_issue() got an unexpected keyword argument '"
                            ++ name ++ str "'")), log))
      by (intros kw name H; unfold create_issue; now rewrite H).
    rewrite (U _ (str "issuetype")) by reflexivity.
    unfold ret at 1. cbn [fst snd exn_str]. rewrite IH.
    now rewrite <- app_assoc.
Qed.

End JiraSpec.

(* ================================================================== *)
(** ** The bullet list of [generate_srs] *)

Module SrsSpec.
Import PyStr llm_client main Shapes PyStrFacts.

Lemma split_on_from_run sep a : forall cur s,
  ~ In sep a ->
  split_on_from sep cur (a ++ s) = split_on_from sep (rev a ++ cur) s.
Proof.
  induction a as [|c a IH]; intros cur s H; [reflexivity|].
  cbn [app split_on_from]. destruct (Ascii.eqb c sep) eqn:E.
  - apply Ascii.eqb_eq in E. exfalso. apply H. now left.
  - rewrite IH by (intro Hin; apply H; now right).
    cbn [rev]. now rewrite <- app_assoc.
Qed.

Lemma split_on_one sep a : ~ In sep a -> split_on sep a = [a].
Proof.
  intro H. unfold split_on. rewrite <- (app_nil_r a) at 1.
  rewrite split_on_from_run by assumption. cbn [split_on_from].
  now rewrite app_nil_r, rev_involutive.
Qed.

Lemma split_on_cons sep a s :
  ~ In sep a -> split_on sep (a ++ sep :: s) = a :: split_on sep s.
Proof.
  intro H. unfold split_on. rewrite split_on_from_run by assumption.
  cbn [split_on_from]. rewrite Ascii.eqb_refl.
  now rewrite app_nil_r, rev_involutive.
Qed.

Lemma split_join_lines parts :
  parts <> [] -> Forall (fun p => ~ In "010"%char p) parts ->
  split_on "010" (join nl parts) = parts.
Proof.
  intros Hne H. induction H as [|p parts Hp H IH]; [contradiction|].
  destruct parts as [|q parts].
  - cbn [join]. now apply split_on_one.
  - change (join nl (p :: q :: parts)) with (p ++ "010"%char :: join nl (q :: parts)).
    rewrite split_on_cons by assumption. f_equal. apply IH. discriminate.
Qed.

(** X16.  The bullet list that [generate_srs] puts into its prompt has one line
    for each item, in the order of the items, made of the label in
    brackets and the review, provided that no review and no label holds a
    newline (as is the case for the items that [process_txt] passes). *)
Theorem srs_bullets_lines :
  forall items : list (text * text * text),
    items <> [] ->
    Forall (fun it => ~ In "010"%char (fst (fst it)) /\ ~ In "010"%char (snd (fst it)))
           items ->
    split_on "010" (srs_bullets items)
    = map (fun it => str "- [" ++ snd (fst it) ++ str "] " ++ fst (fst it)) items.
Proof.
  intros items Hne H. unfold srs_bullets.
  rewrite (map_ext _ (fun it : text * text * text =>
                         str "- [" ++ snd (fst it) ++ str "] " ++ fst (fst it)))
    by (now intros [[rev lbl] reason]).
  apply split_join_lines.
  - destruct items; [contradiction | discriminate].
  - apply Forall_forall. intros p Hp. apply in_map_iff in Hp as (it & <- & Hin).
    rewrite Forall_forall in H. destruct (H it Hin) as [H1 H2].
    intro Hx. cbn [str list_ascii_of_string app] in Hx.
    destruct Hx as [Hx | [Hx | [Hx | Hx]]]; try discriminate.
    apply in_app_or in Hx as [Hx | Hx]; [now apply H2|].
    cbn [In] in Hx. destruct Hx as [Hx | [Hx | Hx]]; try discriminate.
    now apply H1.
Qed.

Lemma srs_bullets_lines_witness :
  split_on "010"
    (srs_bullets [(str "App crashes on start", str "Bug", str "App crashes on start");
                  (str "Add dark mode", str "Feature", str "Add dark mode")])
  = [str "- [Bug] App crashes on start"; str "- [Feature] Add dark mode"].
Proof.
  apply (srs_bullets_lines
           [(str "App crashes on start", str "Bug", str "App crashes on start");
            (str "Add dark mode", str "Feature", str "Add dark mode")]).
  - discriminate.
  - repeat constructor; vm_compute; intuition discriminate.
Defined.

End SrsSpec.

(* ================================================================== *)
(** ** Cleaning twice *)

Module CleanupMore.
Import PyStr llm_client jira_client main Shapes PyStrFacts NormalizerSpec ExtractorMore.





End CleanupMore.
